(** * Uptime-Monitor: the check-and-alert engine of the worker

    A shallow embedding of [worker/src] (the scheduled check, the probe and
    its classification, the UP/RETRYING/DOWN state machine, the DingTalk
    alert and the certificate/domain resolver), followed by the properties
    the specification states about them.

    Conventions of the embedding.

    - A JavaScript string is a [string] (its UTF-8 bytes).  A number that the
      code only uses as an integer (ids, HTTP statuses, counters, epoch
      milliseconds) is a [Z].
    - A date-valued string (the ISO strings the worker stores in
      [last_check] and [check_info_status], a certificate's [not_after], an
      RDAP [eventDate]) is represented by the instant it denotes, in
      milliseconds since the epoch: [new Date(s).getTime()] is the identity
      on that representation.
    - A nullable column or an optional property is an [option]; JavaScript
      truthiness is written out where the code relies on it.
    - The platform (clock, [fetch], [new URL], locale formatting) is a
      [World] of oracles; [crypto.subtle], [btoa] and [encodeURIComponent]
      are written out.  Statements sent to the database are taken to
      succeed.  An [async] function is a
      computation in a state-and-exception monad over the database, the
      clock position, the trace of outbound effects and the queue of
      promises nobody awaits. *)

From stdpp Require Import base option list gmap strings pretty.
From Stdlib Require Import ZArith Lia Ascii.

Local Open Scope string_scope.
Local Open Scope list_scope.
Local Open Scope Z_scope.

(** ** JavaScript helpers *)

Module Js.

(** [a || d] on a possibly missing string: the empty string is falsy. *)
Definition or_string (a : option string) (d : string) : string :=
  match a with
  | Some (String c s) => String c s
  | _ => d
  end.

(** [a || d] on a possibly missing number: [0] is falsy. *)
Definition or_num (a : option Z) (d : Z) : Z :=
  match a with
  | Some z => if z =? 0 then d else z
  | None => d
  end.

(** Truthiness of a possibly missing string. *)
Definition truthy_string (a : option string) : bool :=
  match a with
  | Some (String _ _) => true
  | _ => false
  end.

(** Truthiness of a possibly missing date string (never empty). *)
Definition truthy_date (a : option Z) : bool :=
  match a with
  | Some _ => true
  | None => false
  end.

(** [s.includes(pat)]. *)
Fixpoint includes (s pat : string) : bool :=
  String.prefix pat s
  || match s with
     | EmptyString => false
     | String _ s' => includes s' pat
     end.

(** [s.split('.')]: the pieces between the dots, never an empty list. *)
Fixpoint split_dot_go (cur : string) (s : string) : list string :=
  match s with
  | EmptyString => [String.rev cur]
  | String c s' =>
      if Ascii.eqb c "."%char
      then String.rev cur :: split_dot_go EmptyString s'
      else split_dot_go (String c cur) s'
  end.

Definition split_dot (s : string) : list string := split_dot_go EmptyString s.

(** [parts.join('.')]. *)
Fixpoint join_dot (parts : list string) : string :=
  match parts with
  | [] => ""
  | [p] => p
  | p :: rest => p +:+ "." +:+ join_dot rest
  end.

(** [parts.slice(k)] for [0 <= k]. *)
Definition slice_from {A} (k : nat) (parts : list A) : list A := drop k parts.

(** Template-literal rendering of an integer. *)
Definition num_to_string (z : Z) : string := pretty z.

End Js.

(** ** The data model *)

(** A row of the [monitors] table, as [SELECT * FROM monitors] returns it. *)
Record Monitor := mkMonitor {
  monitor_id : Z;
  name : string;
  url : string;
  method : option string;
  keyword : option string;
  interval : option Z;
  status : string;
  retry_count : Z;
  last_check : option Z;
  check_info_status : option Z;
  cert_expiry : option Z;
  domain_expiry : option Z
}.

(** A row of the [logs] table, as [performCheck] inserts it. *)
Record LogEntry := mkLog {
  log_monitor_id : Z;
  status_code : Z;
  latency : Z;
  is_fail : Z;
  reason : string
}.

(** ** The scheduling decision *)

Definition isTimeToCheck (monitor : Monitor) (now : Z) : bool :=
  if String.eqb (status monitor) "RETRYING" then true
  else
    let lastCheck := match last_check monitor with Some t => t | None => 0 end in
    let intervalMs := Js.or_num (interval monitor) 300 * 1000 in
    now - lastCheck >=? intervalMs.

(** ** The platform *)

(** The JSON text handed to [fetch] as the body of the webhook POST, kept as
    the object [JSON.stringify] serialises. *)
Record Payload := mkPayload {
  msgtype : string;
  content : string
}.

(** The arguments of one [fetch(url, init)] call.  [req_signal] is the
    [signal] member of the init object ([AbortSignal.timeout(ms)]), the only
    way a Workers [fetch] is given a deadline. *)
Record Request := mkRequest {
  req_url : string;
  req_method : option string;
  req_headers : list (string * string);
  req_body : option Payload;
  req_cf : option (Z * bool);
  req_signal : option Z
}.

(** One record of crt.sh's JSON output. *)
Record CertRecord := mkCert {
  not_after : Z;
  common_name : string
}.

(** One entry of an RDAP [events] array. *)
Record RdapEvent := mkEvent {
  eventAction : string;
  eventDate : Z
}.

(** What [JSON.parse] gives the worker: [null]; a boolean or a number, of
    which the code can only observe the truthiness; an array of certificate
    records; an RDAP object (its [events] member may be missing); a DingTalk
    acknowledgment.  A JSON string and an array with members that are not
    certificate records are left out: sorting and concatenating them depends
    on the engine. *)
Inductive Json :=
| JNull
| JPrimitive (truthy : bool)
| JCerts (records : list CertRecord)
| JRdap (events : option (list RdapEvent))
| JAck (errcode : Z) (errmsg : option string).

(** How an evaluation ends: with a value, or with a thrown error, of which
    the code only ever reads the [message] (it may be missing). *)
Inductive Completion (A : Type) :=
| Normal (a : A)
| Thrown (message : option string).
Arguments Normal {A} a.
Arguments Thrown {A} message.

(** A response: its status, what reading its body gives (the text, or a
    rejection) and what [JSON.parse] makes of that text ([None] when it is
    not JSON). *)
Record Response := mkResponse {
  resp_status : Z;
  resp_text : Completion string;
  resp_parsed : option Json
}.

(** [response.ok] *)
Definition resp_ok (r : Response) : bool :=
  (200 <=? resp_status r) && (resp_status r <=? 299).

(** What awaiting a [fetch] gives: a rejection carrying an error whose
    [message] may be missing, or a response. *)
Inductive FetchResult :=
| Rejected (message : option string)
| Resolved (response : Response).

(** The platform: the successive readings of the clock, the answer to each
    request, [new URL(u).hostname] ([None] when [u] does not parse) and
    [new Date(t).toLocaleString()]. *)
Record World := mkWorld {
  clock : nat -> Z;
  net : Request -> FetchResult;
  url_hostname : string -> option string;
  toLocaleString : Z -> string
}.

(** The worker's bindings other than the database. *)
Record Bindings := mkBindings {
  DINGTALK_ACCESS_TOKEN : option string;
  DINGTALK_SECRET : option string
}.

(** ** The database and the system state *)

(** The statements the worker prepares, with their bound values. *)
Inductive Sql :=
| UpdateInfoStatus (stamp : Z) (id : Z)
| UpdateState (stamp : Z) (new_status : string) (new_retry : Z) (id : Z)
| InsertLog (entry : LogEntry)
| UpdateExpiry (cert : option Z) (domain : option Z) (id : Z)
| SelectMonitors.

Inductive Event :=
| Fetched (request : Request)
| Ran (statement : Sql).

(** A continuation left on a promise that nobody awaits. *)
Inductive Task :=
| ResolveInfo (monitor : Monitor).

Record Sys := mkSys {
  monitors : gmap Z Monitor;
  logs : list LogEntry;
  ticks : nat;
  trace : list Event;
  pending : list Task
}.

Definition set_info_status (stamp : Z) (m : Monitor) : Monitor :=
  mkMonitor (monitor_id m) (name m) (url m) (method m) (keyword m) (interval m)
            (status m) (retry_count m) (last_check m) (Some stamp)
            (cert_expiry m) (domain_expiry m).

Definition set_state (stamp : Z) (st : string) (rc : Z) (m : Monitor) : Monitor :=
  mkMonitor (monitor_id m) (name m) (url m) (method m) (keyword m) (interval m)
            st rc (Some stamp) (check_info_status m)
            (cert_expiry m) (domain_expiry m).

Definition set_expiry (cert dom : option Z) (m : Monitor) : Monitor :=
  mkMonitor (monitor_id m) (name m) (url m) (method m) (keyword m) (interval m)
            (status m) (retry_count m) (last_check m) (check_info_status m)
            cert dom.

(** The effect of a statement on the tables. *)
Definition apply_sql (q : Sql) (s : Sys) : Sys :=
  match q with
  | UpdateInfoStatus stamp id =>
      mkSys (alter (set_info_status stamp) id (monitors s)) (logs s)
            (ticks s) (trace s) (pending s)
  | UpdateState stamp st rc id =>
      mkSys (alter (set_state stamp st rc) id (monitors s)) (logs s)
            (ticks s) (trace s) (pending s)
  | InsertLog entry =>
      mkSys (monitors s) (logs s ++ [entry]) (ticks s) (trace s) (pending s)
  | UpdateExpiry cert dom id =>
      mkSys (alter (set_expiry cert dom) id (monitors s)) (logs s)
            (ticks s) (trace s) (pending s)
  | SelectMonitors => s
  end.

Definition record (e : Event) (s : Sys) : Sys :=
  mkSys (monitors s) (logs s) (ticks s) (trace s ++ [e]) (pending s).

(** ** Asynchronous computations *)

Definition M (A : Type) : Type := World -> Sys -> Completion A * Sys.

#[global] Instance M_ret : MRet M := fun A a _ s => (Normal a, s).

#[global] Instance M_bind : MBind M := fun A B k m w s =>
  match m w s with
  | (Normal a, s') => k a w s'
  | (Thrown e, s') => (Thrown e, s')
  end.

Definition throw {A} (message : option string) : M A :=
  fun _ s => (Thrown message, s).

(** [try { body } catch (e) { handler(e.message) }] *)
Definition try_catch {A} (body : M A) (handler : option string -> M A) : M A :=
  fun w s =>
    match body w s with
    | (Normal a, s') => (Normal a, s')
    | (Thrown e, s') => handler e w s'
    end.

Definition after_reading (s : Sys) : Sys :=
  mkSys (monitors s) (logs s) (S (ticks s)) (trace s) (pending s).

(** [Date.now()], [new Date()]: the next reading of the clock. *)
Definition date_now : M Z :=
  fun w s => (Normal (clock w (ticks s)), after_reading s).

Definition ask {A} (f : World -> A) : M A := fun w s => (Normal (f w), s).

(** [await fetch(...)] *)
Definition fetch (request : Request) : M Response :=
  fun w s =>
    match net w request with
    | Rejected e => (Thrown e, record (Fetched request) s)
    | Resolved r => (Normal r, record (Fetched request) s)
    end.

(** [await response.text()] *)
Definition text (r : Response) : M string :=
  fun _ s => (resp_text r, s).

(** [JSON.parse(text)] of a body that was read. *)
Definition JSON_parse (r : Response) : M Json :=
  match resp_parsed r with
  | Some j => mret j
  | None => throw (Some "Unexpected token")
  end.

(** [await response.json()] *)
Definition json (r : Response) : M Json :=
  _ ← text r; JSON_parse r.

(** [await env.DB.prepare(...).bind(...).run()] *)
Definition run (q : Sql) : M unit :=
  fun _ s => (Normal tt, apply_sql q (record (Ran q) s)).

(** [env.DB.prepare(...).bind(...).run().then(() => { task })
    .catch(console.error)], not awaited: the statement is sent at once.  The
    continuation starts when the statement has resolved and then runs
    alongside the rest of the check.  Here it is queued and run by [settle]:
    the continuation and the check write different columns, so the tables
    end up the same, but the order between the requests of a continuation
    and those of the check that queued it is not modelled, and nothing below
    states it. *)
Definition run_then (q : Sql) (task : Task) : M unit :=
  fun _ s =>
    let s' := apply_sql q (record (Ran q) s) in
    (Normal tt, mkSys (monitors s') (logs s') (ticks s') (trace s')
                      (pending s' ++ [task])).

(** ** The keyed hash used by the signature *)

Module Sha256.

(** [crypto.subtle]'s HMAC with SHA-256, as FIPS 180-4 and RFC 2104 define
    them, on byte sequences. *)

(** Words are 32 bits wide; additions wrap around. *)
Definition wrap (x : Z) : Z := x mod 4294967296.
Definition add (a b : Z) : Z := wrap (a + b).
Definition rotr (n x : Z) : Z :=
  Z.lor (Z.shiftr x n) (wrap (Z.shiftl x (32 - n))).
Definition shr (n x : Z) : Z := Z.shiftr x n.
Definition complement (x : Z) : Z := Z.lxor x 4294967295.

Definition Ch (x y z : Z) : Z := Z.lxor (Z.land x y) (Z.land (complement x) z).
Definition Maj (x y z : Z) : Z :=
  Z.lxor (Z.lxor (Z.land x y) (Z.land x z)) (Z.land y z).
Definition Sigma0 (x : Z) : Z := Z.lxor (Z.lxor (rotr 2 x) (rotr 13 x)) (rotr 22 x).
Definition Sigma1 (x : Z) : Z := Z.lxor (Z.lxor (rotr 6 x) (rotr 11 x)) (rotr 25 x).
Definition sigma0 (x : Z) : Z := Z.lxor (Z.lxor (rotr 7 x) (rotr 18 x)) (shr 3 x).
Definition sigma1 (x : Z) : Z := Z.lxor (Z.lxor (rotr 17 x) (rotr 19 x)) (shr 10 x).

(** Words written in hexadecimal, separated by blanks. *)
Definition hex_value (c : ascii) : Z :=
  let n := Z.of_N (N_of_ascii c) in
  if n <? 58 then n - 48 else n - 87.

Fixpoint hex_words_go (acc : option Z) (s : string) : list Z :=
  match s with
  | EmptyString => match acc with Some x => [x] | None => [] end
  | String c rest =>
      if Ascii.eqb c " "%char
      then match acc with
           | Some x => x :: hex_words_go None rest
           | None => hex_words_go None rest
           end
      else hex_words_go (Some (16 * default 0 acc + hex_value c)) rest
  end.

Definition hex_words (s : string) : list Z := hex_words_go None s.

Definition K : list Z :=
  hex_words
    ("428a2f98 71374491 b5c0fbcf e9b5dba5 3956c25b 59f111f1 923f82a4 ab1c5ed5 " +:+
     "d807aa98 12835b01 243185be 550c7dc3 72be5d74 80deb1fe 9bdc06a7 c19bf174 " +:+
     "e49b69c1 efbe4786 0fc19dc6 240ca1cc 2de92c6f 4a7484aa 5cb0a9dc 76f988da " +:+
     "983e5152 a831c66d b00327c8 bf597fc7 c6e00bf3 d5a79147 06ca6351 14292967 " +:+
     "27b70a85 2e1b2138 4d2c6dfc 53380d13 650a7354 766a0abb 81c2c92e 92722c85 " +:+
     "a2bfe8a1 a81a664b c24b8b70 c76c51a3 d192e819 d6990624 f40e3585 106aa070 " +:+
     "19a4c116 1e376c08 2748774c 34b0bcb5 391c0cb3 4ed8aa4a 5b9cca4f 682e6ff3 " +:+
     "748f82ee 78a5636f 84c87814 8cc70208 90befffa a4506ceb bef9a3f7 c67178f2").

Definition H0 : list Z :=
  hex_words "6a09e667 bb67ae85 3c6ef372 a54ff53a 510e527f 9b05688c 1f83d9ab 5be0cd19".

(** The [n] low bytes of [x], most significant first. *)
Fixpoint be_bytes (n : nat) (x : Z) : list Z :=
  match n with
  | O => []
  | S k => Z.shiftr x (8 * Z.of_nat k) mod 256 :: be_bytes k x
  end.

(** Bytes taken four at a time as big-endian words. *)
Fixpoint be_words (bytes : list Z) : list Z :=
  match bytes with
  | a :: b :: c :: d :: rest => ((a * 256 + b) * 256 + c) * 256 + d :: be_words rest
  | _ => []
  end.

(** The message followed by a 1 bit, zeros and its length in bits, a
    multiple of 64 bytes in all. *)
Definition pad (msg : list Z) : list Z :=
  let len := Z.of_nat (length msg) in
  msg ++ [128] ++ repeat 0 (Z.to_nat ((55 - len) mod 64)) ++ be_bytes 8 (8 * len).

Fixpoint blocks (fuel : nat) (words : list Z) : list (list Z) :=
  match fuel, words with
  | S k, _ :: _ => take 16 words :: blocks k (drop 16 words)
  | _, _ => []
  end.

(** The message schedule, [n] words longer than [w]. *)
Fixpoint schedule (n : nat) (w : list Z) : list Z :=
  match n with
  | O => w
  | S k =>
      let back i := nth (length w - i) w 0 in
      schedule k (w ++ [add (add (sigma1 (back 2%nat)) (back 7%nat))
                            (add (sigma0 (back 15%nat)) (back 16%nat))])
  end.

Definition round (st : list Z) (kw : Z * Z) : list Z :=
  match st with
  | [a; b; c; d; e; f; g; h] =>
      let t1 := add (add (add (add h (Sigma1 e)) (Ch e f g)) kw.1) kw.2 in
      let t2 := add (Sigma0 a) (Maj a b c) in
      [add t1 t2; a; b; c; add d t1; e; f; g]
  | _ => st
  end.

Definition compress (h : list Z) (block : list Z) : list Z :=
  zip_with add h (fold_left round (zip K (schedule 48 block)) h).

(** SHA-256 of a byte sequence (bytes as numbers below 256). *)
Definition digest (msg : list Z) : list Z :=
  let words := be_words (pad msg) in
  flat_map (be_bytes 4) (fold_left compress (blocks (length words) words) H0).

(** HMAC with SHA-256 (block size 64). *)
Definition hmac_numbers (key msg : list Z) : list Z :=
  let key := if (64 <? length key)%nat then digest key else key in
  let key := key ++ repeat 0 (64 - length key)%nat in
  digest (map (Z.lxor 92) key ++ digest (map (Z.lxor 54) key ++ msg)).

Definition number_of_byte (b : Byte.byte) : Z := Z.of_N (Byte.to_N b).
Definition byte_of_number (x : Z) : Byte.byte :=
  byte_of_ascii (ascii_of_N (Z.to_N x)).

(** [crypto.subtle.sign('HMAC', key, data)] for a key imported with hash
    SHA-256. *)
Definition hmac (key data : list Byte.byte) : list Byte.byte :=
  map byte_of_number (hmac_numbers (map number_of_byte key) (map number_of_byte data)).

(** A byte sequence in lowercase hexadecimal. *)
Definition hex_char (n : Z) : ascii :=
  if n <? 10 then ascii_of_N (Z.to_N (48 + n)) else ascii_of_N (Z.to_N (87 + n)).

Fixpoint hex (bytes : list Byte.byte) : string :=
  match bytes with
  | [] => EmptyString
  | b :: rest =>
      let x := number_of_byte b in
      String (hex_char (x / 16)) (String (hex_char (x mod 16)) (hex rest))
  end.

End Sha256.

(** ** Text encodings used by the signature *)

Module Encoding.

Local Open Scope N_scope.

(** [new TextEncoder().encode(s)]: strings are kept as their UTF-8 bytes. *)
Definition encode (s : string) : list Byte.byte := String.list_byte_of_string s.

(** [String.fromCharCode(...new Uint8Array(buffer))] *)
Definition fromCharCode (bytes : list Byte.byte) : string :=
  String.string_of_list_byte bytes.

Definition b64_digit (n : N) : ascii :=
  if n <? 26 then ascii_of_N (65 + n)
  else if n <? 52 then ascii_of_N (97 + (n - 26))
  else if n <? 62 then ascii_of_N (48 + (n - 52))
  else if n =? 62 then "+"%char
  else "/"%char.

(** [btoa(s)] on a binary string. *)
Fixpoint btoa (s : string) : string :=
  match s with
  | EmptyString => EmptyString
  | String a EmptyString =>
      let x := N_of_ascii a in
      String (b64_digit (N.shiftr x 2))
        (String (b64_digit (N.shiftl (N.land x 3) 4)) "==")
  | String a (String b EmptyString) =>
      let x := N_of_ascii a in
      let y := N_of_ascii b in
      String (b64_digit (N.shiftr x 2))
        (String (b64_digit (N.lor (N.shiftl (N.land x 3) 4) (N.shiftr y 4)))
           (String (b64_digit (N.shiftl (N.land y 15) 2)) "="))
  | String a (String b (String c rest)) =>
      let x := N_of_ascii a in
      let y := N_of_ascii b in
      let z := N_of_ascii c in
      String (b64_digit (N.shiftr x 2))
        (String (b64_digit (N.lor (N.shiftl (N.land x 3) 4) (N.shiftr y 4)))
           (String (b64_digit (N.lor (N.shiftl (N.land y 15) 2) (N.shiftr z 6)))
              (String (b64_digit (N.land z 63)) (btoa rest))))
  end.

(** The characters [encodeURIComponent] leaves alone. *)
Definition unreserved (c : ascii) : bool :=
  let n := N_of_ascii c in
  ((65 <=? n) && (n <=? 90)) || ((97 <=? n) && (n <=? 122))
  || ((48 <=? n) && (n <=? 57))
  || Js.includes "-_.!~*'()" (String c EmptyString).

Definition hex_digit (n : N) : ascii :=
  if n <? 10 then ascii_of_N (48 + n) else ascii_of_N (55 + n).

(** [encodeURIComponent(s)], byte by byte on the UTF-8 form. *)
Fixpoint encodeURIComponent (s : string) : string :=
  match s with
  | EmptyString => EmptyString
  | String c rest =>
      if unreserved c then String c (encodeURIComponent rest)
      else
        let n := N_of_ascii c in
        String "%"%char
          (String (hex_digit (N.shiftr n 4))
             (String (hex_digit (N.land n 15)) (encodeURIComponent rest)))
  end.

End Encoding.

Definition newline : string := String (ascii_of_nat 10) EmptyString.
Definition dquote : string := String (ascii_of_nat 34) EmptyString.

(** ** The alert dispatcher *)

Definition fallback_access_token : string :=
  "59f62a4b15f5fa9b7338ffaeacc5c199b537038ec79e57db681e48293cc6625d".
Definition fallback_secret : string :=
  "SEC6243e3cced1f46b53340f22603f10fca92389f5891de46530a61ac30bc2da5c6".

(** [sendDingTalkAlert], lines 327-341 of [worker/src/cert_logic.js]: the
    value of [signEncoded] for the secret in use and the timestamp just read. *)
Definition signEncoded (secret : string) (timestamp : Z) : string :=
  let stringToSign := Js.num_to_string timestamp +:+ newline +:+ secret in
  let signature :=
    Sha256.hmac (Encoding.encode secret) (Encoding.encode stringToSign) in
  let signBase64 := Encoding.btoa (Encoding.fromCharCode signature) in
  Encoding.encodeURIComponent signBase64.

Definition webhookUrl (accessToken : string) (timestamp : Z) (sign : string)
  : string :=
  "https://oapi.dingtalk.com/robot/send?access_token=" +:+ accessToken
  +:+ "&timestamp=" +:+ Js.num_to_string timestamp
  +:+ "&sign=" +:+ sign.

Definition alert_payload (monitor : Monitor) (sent : string) (message : string)
  : Payload :=
  mkPayload "text"
    ("[Uptime Monitor] 警报" +:+ newline +:+ newline
     +:+ "监控对象: " +:+ name monitor +:+ newline
     +:+ "URL: " +:+ url monitor +:+ newline
     +:+ "时间: " +:+ sent +:+ newline
     +:+ "信息: " +:+ message).

Definition alert_request (hook : string) (payload : Payload) : Request :=
  mkRequest hook (Some "POST") [("Content-Type", "application/json")]
            (Some payload) None None.

(** [result.errcode !== 0], which only decides what is written to the
    console: reading a member of [null] throws. *)
Definition errcode_differs (result : Json) : M bool :=
  match result with
  | JNull => throw (Some "Cannot read properties of null (reading 'errcode')")
  | JAck errcode _ => mret (negb (errcode =? 0))
  | _ => mret true
  end.

(** The value the function returns: [undefined] after the early return, the
    webhook's JSON answer, or the locally built [{errcode: -1, errmsg}]. *)
Definition sendDingTalkAlert (env : Bindings) (monitor : Monitor)
    (message : string) : M (option Json) :=
  let accessToken := Js.or_string (DINGTALK_ACCESS_TOKEN env) fallback_access_token in
  let secret := Js.or_string (DINGTALK_SECRET env) fallback_secret in
  if String.eqb accessToken "" || String.eqb secret "" then mret None
  else
    timestamp ← date_now;
    let hook := webhookUrl accessToken timestamp (signEncoded secret timestamp) in
    sent ← date_now;
    shown ← ask (fun w => toLocaleString w sent);
    let payload := alert_payload monitor shown message in
    try_catch
      (resp ← fetch (alert_request hook payload);
       result ← json resp;
       _ ← errcode_differs result;
       mret (Some result))
      (fun e => mret (Some (JAck (-1) e))).

(** ** The probe *)

Definition probe_request (monitor : Monitor) : Request :=
  mkRequest (url monitor)
            (Some (Js.or_string (method monitor) "GET"))
            [("User-Agent", "Uptime-Monitor/1.0")]
            None
            (Some (0, false))
            None.

(** The [catch] block of [performCheck] (lines 253-265 of
    [worker/src/cert_logic.js]): the reason recorded for a request that
    threw. *)
Definition thrown_reason (message : option string) : string :=
  let errorMsg := Js.or_string message "" in
  if Js.includes errorMsg "handshake" || Js.includes errorMsg "certificate"
     || Js.includes errorMsg "SSL" || Js.includes errorMsg "TLS"
  then "SSL Error: " +:+ errorMsg
  else if Js.includes errorMsg "time" || Js.includes errorMsg "timeout"
  then "Timeout"
  else match errorMsg with
       | EmptyString => "Network Error"
       | _ => errorMsg
       end.

(** The outcome of one probe: the values of [status], [isFail] and [reason]
    when the [try]/[catch] of [performCheck] is left. *)
Record CheckResult := mkResult {
  res_status : Z;
  res_isFail : bool;
  res_reason : string
}.

(** [performCheck], lines 232-241: the refresh of the domain and certificate
    information.
    The guard is [true || Date.now() - lastInfoCheck > 86400000]; the right
    operand of [||] is not evaluated when the left one is [true]. *)
Definition refresh_info (monitor : Monitor) : M unit :=
  let lastInfoCheck :=
    match check_info_status monitor with Some t => t | None => 0 end in
  wanted ← (if true then mret true
            else now ← date_now; mret (now - lastInfoCheck >? 86400000));
  if wanted : bool then
    stamp ← date_now;
    run_then (UpdateInfoStatus stamp (monitor_id monitor)) (ResolveInfo monitor)
  else mret tt.

(** [performCheck], lines 215-265: the request and its classification. *)
Definition probe (monitor : Monitor) : M CheckResult :=
  try_catch
    (response ← fetch (probe_request monitor);
     let status := resp_status response in
     if negb (resp_ok response) then
       mret (mkResult status true ("HTTP " +:+ Js.num_to_string status))
     else
       _ ← refresh_info monitor;
       if Js.truthy_string (keyword monitor) then
         body ← text response;
         let wanted := Js.or_string (keyword monitor) "" in
         if negb (Js.includes body wanted) then
           mret (mkResult status true
                   ("Keyword " +:+ dquote +:+ wanted +:+ dquote +:+ " not found"))
         else mret (mkResult status false "")
       else mret (mkResult status false ""))
    (fun e => mret (mkResult 0 true (thrown_reason e))).

(** ** The state machine *)

(** [performCheck], lines 269-303: the new [status] and [retry_count], and
    the alerts sent on the way. *)
Definition advance (env : Bindings) (monitor : Monitor) (isFail : bool)
    (reason : string) (latency : Z) : M (string * Z) :=
  let newStatus := status monitor in
  let newRetryCount := retry_count monitor in
  if isFail then
    if String.eqb (status monitor) "UP" then
      mret ("RETRYING", 1)
    else if String.eqb (status monitor) "RETRYING" then
      if newRetryCount <? 3 then
        mret (newStatus, newRetryCount + 1)
      else
        _ ← sendDingTalkAlert env monitor ("Monitor is DOWN: " +:+ reason);
        mret ("DOWN", newRetryCount)
    else if String.eqb (status monitor) "DOWN" then
      mret (newStatus, newRetryCount)
    else
      mret (newStatus, newRetryCount)
  else
    _ ← (if String.eqb (status monitor) "DOWN" then
           _ ← sendDingTalkAlert env monitor
                 ("Monitor Recovered! Latency: " +:+ Js.num_to_string latency +:+ "ms");
           mret tt
         else mret tt);
    mret ("UP", 0).

(** [performCheck], lines 209-314: the probe, the state machine, then the two
    statements that persist the outcome. *)
Definition performCheck (monitor : Monitor) (env : Bindings) : M unit :=
  startTime ← date_now;
  result ← probe monitor;
  finished ← date_now;
  let latency := finished - startTime in
  next ← advance env monitor (res_isFail result) (res_reason result) latency;
  stamp ← date_now;
  _ ← run (UpdateState stamp next.1 next.2 (monitor_id monitor));
  run (InsertLog (mkLog (monitor_id monitor) (res_status result) latency
                        (if res_isFail result then 1 else 0)
                        (res_reason result))).

(** ** The certificate and domain resolver *)

Definition browser_agent : string :=
  "Mozilla/5.0 (Macintosh; Intel Mac OS X 10_15_7) AppleWebKit/537.36 (KHTML, like Gecko) Chrome/120.0.0.0 Safari/537.36".

Definition crt_request (searchDomain : string) : Request :=
  mkRequest ("https://crt.sh/?q=" +:+ searchDomain +:+ "&output=json")
            None [("User-Agent", browser_agent)] None None None.

Definition rdap_request (domain : string) : Request :=
  mkRequest ("https://rdap.org/domain/" +:+ domain) None [] None None None.

(** One query of crt.sh: an answer that is not a success, cannot be read or
    is not JSON counts as an empty array. *)
Definition fetchCerts (searchDomain : string) : M Json :=
  try_catch
    (res ← fetch (crt_request searchDomain);
     if negb (resp_ok res) then mret (JCerts [])
     else
       _ ← text res;
       try_catch (JSON_parse res) (fun _ => mret (JCerts [])))
    (fun _ => mret (JCerts [])).

(** Array operations on a parsed document.  A value that is not an array
    has no [length]: comparing [undefined] with a number is [false].
    Reading a member of [null] throws. *)
Definition records_of (j : Json) : list CertRecord :=
  match j with
  | JCerts l => l
  | _ => []
  end.

(** [!certs || certs.length === 0] *)
Definition is_empty_array (j : Json) : bool :=
  match j with
  | JNull => true
  | JPrimitive truthy => negb truthy
  | JCerts [] => true
  | _ => false
  end.

(** [certs && certs.length > 0] *)
Definition has_items (j : Json) : bool :=
  match j with
  | JCerts (_ :: _) => true
  | _ => false
  end.

(** [rootCerts.length > 0], with nothing in front to stop at [null]. *)
Definition length_positive (j : Json) : M bool :=
  match j with
  | JNull => throw (Some "Cannot read properties of null (reading 'length')")
  | JCerts (_ :: _) => mret true
  | _ => mret false
  end.

(** [a.concat(b)] for an array [b]: only an array has the method. *)
Definition concat (a b : Json) : M Json :=
  match a with
  | JCerts x => mret (JCerts (x ++ records_of b))
  | JNull => throw (Some "Cannot read properties of null (reading 'concat')")
  | _ => throw (Some "certs.concat is not a function")
  end.

(** [Array.prototype.sort(compare)]: the stable sort, by insertion.  An
    element goes after the ones in front of which [compare] puts it
    strictly later. *)
Fixpoint insert_sorted {A} (compare : A -> A -> Z) (x : A) (l : list A) : list A :=
  match l with
  | [] => [x]
  | y :: rest =>
      if compare x y <=? 0 then x :: y :: rest
      else y :: insert_sorted compare x rest
  end.

Fixpoint sort {A} (compare : A -> A -> Z) (l : list A) : list A :=
  match l with
  | [] => []
  | x :: rest => insert_sorted compare x (sort compare rest)
  end.

(** [(a, b) => new Date(b.not_after).getTime() - new Date(a.not_after).getTime()] *)
Definition by_latest (a b : CertRecord) : Z := not_after b - not_after a.

(** [updateDomainCertInfo], lines 35-51 of its file (lines 24-38 of the copy
    at the head of [worker/src/cert_logic.js]): the queries and what they
    add up to. *)
Definition gather (domain : string) : M Json :=
  certs ← fetchCerts domain;
  if is_empty_array certs && (2 <? Z.of_nat (length (Js.split_dot domain))) then
    let parts := Js.split_dot domain in
    let rootDomain := Js.join_dot (Js.slice_from (length parts - 2) parts) in
    rootCerts ← fetchCerts rootDomain;
    hasRoot ← length_positive rootCerts;
    certs ← (if hasRoot : bool then concat certs rootCerts else mret certs);
    wildCerts ← fetchCerts ("%." +:+ rootDomain);
    hasWild ← length_positive wildCerts;
    certs ← (if hasWild : bool then concat certs wildCerts else mret certs);
    mret certs
  else mret certs.

(** [updateDomainCertInfo], lines 53-57: the expiry of the latest
    certificate. *)
Definition latest (certs : Json) : M (option Z) :=
  if has_items certs then
    match sort by_latest (records_of certs) with
    | latestCert :: _ => mret (Some (not_after latestCert))
    | [] => throw (Some "Cannot read properties of undefined")
    end
  else mret None.

(** [updateDomainCertInfo], lines 8-60: [certExpiry]. *)
Definition lookup_cert (domain : string) : M (option Z) :=
  try_catch (certs ← gather domain; latest certs) (fun _ => mret None).

(** [updateDomainCertInfo], lines 62-76: [domainExpiry]. *)
Definition lookup_domain (domain : string) : M (option Z) :=
  try_catch
    (rdapRes ← fetch (rdap_request domain);
     if resp_ok rdapRes then
       rdapData ← json rdapRes;
       events ← (match rdapData with
                 | JNull =>
                     throw (Some "Cannot read properties of null (reading 'events')")
                 | JRdap (Some evs) => mret evs
                 | _ => mret []
                 end);
       let expEvent :=
         find (fun e => Js.includes (eventAction e) "expiration") events in
       match expEvent with
       | Some e => mret (Some (eventDate e))
       | None => mret None
       end
     else mret None)
    (fun _ => mret None).

(** [new URL(u).hostname] *)
Definition hostname (u : string) : M string :=
  fun w s =>
    match url_hostname w u with
    | Some h => (Normal h, s)
    | None => (Thrown (Some "Invalid URL"), s)
    end.

(** The two lookups, then the one statement that stores what they found. *)
Definition updateDomainCertInfo (env : Bindings) (monitor : Monitor) : M unit :=
  try_catch
    (domain ← hostname (url monitor);
     certExpiry ← lookup_cert domain;
     domainExpiry ← lookup_domain domain;
     if Js.truthy_date certExpiry || Js.truthy_date domainExpiry then
       run (UpdateExpiry certExpiry domainExpiry (monitor_id monitor))
     else mret tt)
    (fun _ => mret tt).

(** ** The scheduled entry point *)

(** The rows of the table as a scan gives them, by increasing id. *)
Definition result_set (s : Sys) : list Monitor :=
  map snd (sort (fun a b : Z * Monitor => a.1 - b.1) (map_to_list (monitors s))).

(** [await env.DB.prepare('SELECT * FROM monitors').all()] *)
Definition select_monitors : M (list Monitor) :=
  fun _ s => (Normal (result_set s), record (Ran SelectMonitors) s).

(** The task [checkSites] builds for one row. *)
Definition checkSite (env : Bindings) (now : Z) (monitor : Monitor) : M unit :=
  let shouldCheck := isTimeToCheck monitor now in
  if shouldCheck then performCheck monitor env else mret tt.

Fixpoint each {A} (f : A -> M unit) (l : list A) : M unit :=
  match l with
  | [] => mret tt
  | x :: rest => _ ← f x; each f rest
  end.

(** [checkSites]: the rows are read once, then every row gets its task.  The
    code starts the tasks together ([Promise.all]) and the runtime
    interleaves them; each task writes only the row of its own target and
    appends its own log entry, so they are run here one after the other, in
    the order of the result set, and nothing is stated below about the order
    of what different tasks send or write. *)
Definition checkSites (env : Bindings) : M unit :=
  now ← date_now;
  results ← select_monitors;
  each (checkSite env now) results.

(** The continuations left behind by [performCheck], run once the statement
    they wait for has completed; [.catch(console.error)] swallows what they
    throw. *)
Definition run_task (env : Bindings) (t : Task) : M unit :=
  match t with
  | ResolveInfo monitor =>
      try_catch (updateDomainCertInfo env monitor) (fun _ => mret tt)
  end.

Definition settle (env : Bindings) : M unit :=
  fun w s =>
    each (run_task env) (pending s) w
         (mkSys (monitors s) (logs s) (ticks s) (trace s) []).

(** ** What is observed of a run *)

(** The status and retry count stored for a target. *)
Definition stored_state (id : Z) (s : Sys) : option (string * Z) :=
  (fun row => (status row, retry_count row)) <$> monitors s !! id.

(** The alerts dispatched: the payloads POSTed to the DingTalk webhook. *)
Definition alert_of (e : Event) : option Payload :=
  match e with
  | Fetched r =>
      if String.prefix "https://oapi.dingtalk.com/robot/send" (req_url r)
      then match req_method r with
           | Some verb => if String.eqb verb "POST" then req_body r else None
           | None => None
           end
      else None
  | Ran _ => None
  end.

Definition alerts_of (t : list Event) : list Payload := omap alert_of t.

(** The statements sent to the database. *)
Definition statement_of (e : Event) : option Sql :=
  match e with
  | Ran q => Some q
  | Fetched _ => None
  end.

Definition statements_of (t : list Event) : list Sql := omap statement_of t.

(** An event that is not a request with a deadline. *)
Definition unbounded (e : Event) : Prop :=
  match e with
  | Fetched r => req_signal r = None
  | Ran _ => True
  end.

(** ** The transition table of the specification (section 4.1) *)

Inductive Alert := NoAlert | DownAlert | RecoveryAlert.

Definition table (current : string) (retry : Z) (failed : bool)
  : option (string * Z * Alert) :=
  if String.eqb current "UP" then
    if failed then Some ("RETRYING", 1, NoAlert)
    else Some ("UP", 0, NoAlert)
  else if String.eqb current "RETRYING" then
    if failed then
      if retry <? 3 then Some ("RETRYING", retry + 1, NoAlert)
      else if retry =? 3 then Some ("DOWN", 3, DownAlert)
      else None
    else Some ("UP", 0, NoAlert)
  else if String.eqb current "DOWN" then
    if failed then Some ("DOWN", retry, NoAlert)
    else Some ("UP", 0, RecoveryAlert)
  else None.

(** Between [s] and [s'] exactly one request was made: the alert about
    [monitor] carrying [message]. *)
Definition sent (monitor : Monitor) (message : string) (s s' : Sys) : Prop :=
  exists token timestamp sign shown,
    trace s' = trace s ++
      [Fetched (alert_request (webhookUrl token timestamp sign)
                              (alert_payload monitor shown message))].

(** What a row of the table says about alerts, for a probe that ended with
    [why] after [latency] milliseconds. *)
Definition alerted (alert : Alert) (monitor : Monitor) (why : string)
    (latency : Z) (s s' : Sys) : Prop :=
  match alert with
  | NoAlert => trace s' = trace s
  | DownAlert => sent monitor ("Monitor is DOWN: " +:+ why) s s'
  | RecoveryAlert =>
      sent monitor ("Monitor Recovered! Latency: " +:+ pretty latency +:+ "ms") s s'
  end.

(** The same, read off the alerts dispatched before and after. *)
Definition dispatched (alert : Alert) (monitor : Monitor) (why : string)
    (latency : Z) (before after : list Payload) : Prop :=
  match alert with
  | NoAlert => after = before
  | DownAlert =>
      exists shown,
        after = before ++ [alert_payload monitor shown ("Monitor is DOWN: " +:+ why)]
  | RecoveryAlert =>
      exists shown,
        after = before ++
          [alert_payload monitor shown
             ("Monitor Recovered! Latency: " +:+ pretty latency +:+ "ms")]
  end.

(** ** The states a deployment goes through *)

(** From a starting state, the scheduled handler runs and the continuations
    it left behind are settled, any number of times, against any world. *)
Inductive reachable (env : Bindings) (s0 : Sys) : Sys -> Prop :=
| reach_start : reachable env s0 s0
| reach_tick w s s' c :
    reachable env s0 s -> checkSites env w s = (c, s') -> reachable env s0 s'
| reach_settle w s s' c :
    reachable env s0 s -> settle env w s = (c, s') -> reachable env s0 s'.

(** The invariant as section 3 of the specification words it. *)
Definition stated_invariant (row : Monitor) : Prop :=
  (status row = "UP" -> retry_count row = 0)
  /\ (retry_count row <> 0 -> status row = "RETRYING").

(** The invariant the state machine keeps. *)
Definition state_ok (st : string) (rc : Z) : Prop :=
  (st = "UP" /\ rc = 0)
  \/ (st = "RETRYING" /\ 1 <= rc <= 3)
  \/ (st = "DOWN" /\ rc = 3).

Definition kept_invariant (row : Monitor) : Prop :=
  state_ok (status row) (retry_count row).

Definition rows_ok (s : Sys) : Prop :=
  forall id row, monitors s !! id = Some row -> kept_invariant row.

(** ** Relations between the state before and after a computation *)

(** [keeps R m]: whatever the world, [m] takes a state to an [R]-related one,
    whether it returns or throws. *)
Definition keeps (R : Sys -> Sys -> Prop) {A} (m : M A) : Prop :=
  forall w s, R s (m w s).2.

(** The trace is extended by events that all satisfy [P]. *)
Definition grows_by (P : Event -> Prop) (s s' : Sys) : Prop :=
  exists evs, trace s' = trace s ++ evs /\ Forall P evs.

(** Every target keeps its status and retry count. *)
Definition same_states (s s' : Sys) : Prop :=
  forall id, stored_state id s' = stored_state id s.

(** No log entry is added, removed or changed. *)
Definition same_logs (s s' : Sys) : Prop := logs s' = logs s.

(** An event that is not an alert. *)
Definition silent (e : Event) : Prop := alert_of e = None.

(** A relation that a lookup cannot break: a preorder that does not see a
    request without body and without deadline. *)
Class Passive (R : Sys -> Sys -> Prop) : Prop := {
  passive_refl : Reflexive R;
  passive_trans : Transitive R;
  passive_fetch req :
    req_body req = None -> req_signal req = None -> keeps R (fetch req)
}.

(** A relation that the probe and the resolver cannot break: it does not see
    the clock advance, the two metadata statements, or the queue of
    continuations either. *)
Class Quiet (R : Sys -> Sys -> Prop) : Prop := {
  quiet_passive : Passive R;
  quiet_date : keeps R date_now;
  quiet_info stamp id task : keeps R (run_then (UpdateInfoStatus stamp id) task);
  quiet_expiry cert dom id : keeps R (run (UpdateExpiry cert dom id));
  quiet_queue s : R s (mkSys (monitors s) (logs s) (ticks s) (trace s) [])
}.

(** Tables, queue and statements sent are the same. *)
Definition untouched (s s' : Sys) : Prop :=
  monitors s' = monitors s /\ logs s' = logs s /\ pending s' = pending s
  /\ ticks s' = ticks s
  /\ statements_of (trace s') = statements_of (trace s).

(** ** The documented pipelines *)

(** Section 4.4, steps 2 to 4: the [sign] parameter. *)
Definition documented_sign (secret : string) (timestamp : Z) : string :=
  let stringToSign := pretty timestamp +:+ newline +:+ secret in
  let raw := Sha256.hmac (String.list_byte_of_string secret)
                         (String.list_byte_of_string stringToSign) in
  Encoding.encodeURIComponent (Encoding.btoa (String.string_of_list_byte raw)).


(** Section 4.3, step 1, on the side of crt.sh: the document it answers a
    query with, if any (no document when the request is rejected, the status
    is not a success, the body cannot be read or is not JSON), and the
    records of that document (none unless it is an array of records). *)
Definition crt_document (w : World) (query : string) : option Json :=
  match net w (crt_request query) with
  | Rejected _ => None
  | Resolved r =>
      if resp_ok r then
        match resp_text r with
        | Normal _ => resp_parsed r
        | Thrown _ => None
        end
      else None
  end.

Definition crt_records (w : World) (query : string) : list CertRecord :=
  match crt_document w query with
  | Some (JCerts l) => l
  | _ => []
  end.


(** What the two lookups of [updateDomainCertInfo] come back with
    ([certExpiry], [domainExpiry]); both are [null] when the URL of the
    target does not parse. *)
Definition found (monitor : Monitor) (w : World) (s : Sys)
  : option Z * option Z :=
  match (domain ← hostname (url monitor);
         certExpiry ← lookup_cert domain;
         domainExpiry ← lookup_domain domain;
         mret (certExpiry, domainExpiry)) w s with
  | (Normal p, _) => p
  | (Thrown _, _) => (None, None)
  end.

(** ** The classification policy of the specification (section 4.2) *)

(** [msg] mentions [word]: the word occurs in it. *)
Definition mentions (msg word : string) : Prop :=
  exists before after, msg = before +:+ word +:+ after.

Definition tls_vocabulary (msg : string) : Prop :=
  mentions msg "handshake" \/ mentions msg "certificate"
  \/ mentions msg "SSL" \/ mentions msg "TLS".

Definition time_vocabulary (msg : string) : Prop :=
  mentions msg "time" \/ mentions msg "timeout".

(** Item 3: the result recorded for a request that threw with [message]. *)
Definition classified_as_thrown (message : option string) (result : CheckResult)
  : Prop :=
  let msg := match message with Some t => t | None => "" end in
  res_status result = 0
  /\ res_isFail result = true
  /\ (tls_vocabulary msg -> res_reason result = "SSL Error: " +:+ msg)
  /\ (~ tls_vocabulary msg -> time_vocabulary msg ->
      res_reason result = "Timeout")
  /\ (~ tls_vocabulary msg -> ~ time_vocabulary msg ->
      res_reason result = if String.eqb msg "" then "Network Error" else msg).

(** ** Failed lookups *)

(** A request that brings nothing back: it is rejected, or answered with a
    non-success status, or its body cannot be read, or is not JSON. *)
Definition fruitless (x : FetchResult) : Prop :=
  match x with
  | Rejected _ => True
  | Resolved r =>
      resp_ok r = false
      \/ (exists e, resp_text r = Thrown e)
      \/ resp_parsed r = None
  end.

(** Section 4.3, the contract, as worded: when a lookup of a refresh fails,
    the dates stored for the target are left as they were. *)
Definition kept_on_failure : Prop :=
  forall (env : Bindings) (m : Monitor) (w : World) (s : Sys)
         (domain : string) (row : Monitor),
    url_hostname w (url m) = Some domain ->
    fruitless (net w (crt_request domain))
    \/ fruitless (net w (rdap_request domain)) ->
    monitors s !! monitor_id m = Some row ->
    exists row',
      monitors (updateDomainCertInfo env m w s).2 !! monitor_id m = Some row'
      /\ cert_expiry row' = cert_expiry row
      /\ domain_expiry row' = domain_expiry row.

(** ** The routes of the worker *)

(** The handlers of [worker/src/cert_logic.js] that write to the database or
    send an alert, and the guard in front of them.  A handler is a
    computation like the others and returns the reply it sends.  As before,
    a statement sent to the database is taken to succeed; the trace lists
    the requests made and the statements of the check engine, so the
    statements of the routes change the tables without being listed. *)

Module Api.

(** What a handler answers with [c.json(body, status)]: the bodies the
    routes modelled here build. *)
Inductive Answer :=
| Failure (error : option string)
| Created (id : Z)
| Succeeded
| AlertTested (dingtalk_response : option Json).

Record Reply := mkReply {
  code : Z;
  answer : Answer
}.

(** The middleware on [/monitors/*] ([worker/src/cert_logic.js], lines
    64-84): [None] stands for [await next()], [Some reply] for the reply it
    sends itself.  [ADMIN_PASSWORD] is the binding of that name,
    [Authorization] the header of the request. *)
Definition monitors_guard (method path : string)
    (ADMIN_PASSWORD Authorization : option string) : option Reply :=
  if String.eqb method "OPTIONS" then None
  else if String.prefix "/monitors/public" path then None
  else
    let adminPassword := ADMIN_PASSWORD in
    if negb (Js.truthy_string adminPassword) then None
    else
      let authHeader := Authorization in
      if negb (Js.truthy_string authHeader)
         || negb (Js.includes (Js.or_string authHeader "")
                              (Js.or_string adminPassword ""))
      then Some (mkReply 401 (Failure (Some "Unauthorized: Invalid Password")))
      else None.

(** The body of a [POST /monitors] request, as [c.req.json()] gives it and
    the destructuring reads it: the four members, each missing or, where
    present, a string for [name], [url] and [keyword] and an integer for
    [interval].  A body that is a number, a string or a boolean has none of
    the members.  A body that cannot be parsed, or that is [null]
    (destructuring [null] throws), is a [Thrown] completion: both end in the
    [catch] of the handler. *)
Record NewMonitor := mkNew {
  new_name : option string;
  new_url : option string;
  new_interval : option Z;
  new_keyword : option string
}.

(** What the table definition, which is not part of the sources, decides:
    the values of the columns an [INSERT] does not name, and the row id a
    new row is given. *)
Record Schema := mkSchema {
  column_defaults : Monitor;
  last_row_id : gmap Z Monitor -> Z
}.

(** The row [INSERT INTO monitors (name, url, interval, keyword)] creates. *)
Definition inserted (schema : Schema) (id : Z) (name url : string)
    (interval : Z) (keyword : option string) : Monitor :=
  let d := column_defaults schema in
  mkMonitor id name url (method d) keyword (Some interval)
            (status d) (retry_count d) (last_check d) (check_info_status d)
            (cert_expiry d) (domain_expiry d).

(** [await env.DB.prepare('INSERT INTO monitors ...').bind(...).run()],
    giving [result.meta.last_row_id]. *)
Definition insert_monitor (schema : Schema) (name url : string) (interval : Z)
    (keyword : option string) : M Z :=
  fun _ s =>
    let id := last_row_id schema (monitors s) in
    (Normal id,
     mkSys (<[id := inserted schema id name url interval keyword]> (monitors s))
           (logs s) (ticks s) (trace s) (pending s)).

(** [app.post('/monitors', ...)], lines 112-129. *)
Definition post_monitors (schema : Schema) (json : Completion NewMonitor)
  : M Reply :=
  try_catch
    (body ← (fun _ s => (json, s));
     if negb (Js.truthy_string (new_name body))
        || negb (Js.truthy_string (new_url body))
     then mret (mkReply 400 (Failure (Some "Missing name or url")))
     else
       id ← insert_monitor schema
               (Js.or_string (new_name body) "") (Js.or_string (new_url body) "")
               (Js.or_num (new_interval body) 300)
               (if Js.truthy_string (new_keyword body) then new_keyword body
                else None);
       mret (mkReply 201 (Created id)))
    (fun e => mret (mkReply 500 (Failure e))).

(** Whether the handler gets as far as the [INSERT]: the body was read and
    both [name] and [url] are truthy. *)
Definition accepted (json : Completion NewMonitor) : bool :=
  match json with
  | Normal body =>
      Js.truthy_string (new_name body) && Js.truthy_string (new_url body)
  | Thrown _ => false
  end.

(** [DELETE FROM logs WHERE monitor_id = ?] and [DELETE FROM monitors WHERE
    id = ?].  The path parameter is text; [id] is the integer it denotes for
    the comparison with an integer column, [None] when it denotes none (no
    row matches then). *)
Definition delete_logs (id : option Z) : M unit :=
  fun _ s =>
    (Normal tt,
     mkSys (monitors s)
           (match id with
            | Some i => List.filter (fun e => negb (log_monitor_id e =? i)) (logs s)
            | None => logs s
            end)
           (ticks s) (trace s) (pending s)).

Definition delete_row (id : option Z) : M unit :=
  fun _ s =>
    (Normal tt,
     mkSys (match id with
            | Some i => delete i (monitors s)
            | None => monitors s
            end)
           (logs s) (ticks s) (trace s) (pending s)).

(** [app.delete('/monitors/:id', ...)], lines 132-143. *)
Definition delete_monitor (id : option Z) : M Reply :=
  try_catch
    (_ ← delete_logs id;
     _ ← delete_row id;
     mret (mkReply 200 Succeeded))
    (fun e => mret (mkReply 500 (Failure e))).

(** The object [{ name: 'Test Monitor', url: 'https://example.com' }] passed
    for the monitor: [sendDingTalkAlert] reads no other member. *)
Definition test_monitor : Monitor :=
  mkMonitor 0 "Test Monitor" "https://example.com" None None None
            "" 0 None None None None.

Definition test_message : string :=
  "这是一条测试消息，证明钉钉通知配置正确。".

(** [app.post('/test-alert', ...)], lines 159-166. *)
Definition post_test_alert (env : Bindings) : M Reply :=
  try_catch
    (result ← sendDingTalkAlert env test_monitor test_message;
     mret (mkReply 200 (AlertTested result)))
    (fun e => mret (mkReply 500 (Failure e))).

End Api.

(** ** More to observe *)

(** Letters and digits. *)
Definition alnum (c : ascii) : bool :=
  let n := N_of_ascii c in
  (((65 <=? n) && (n <=? 90)) || ((97 <=? n) && (n <=? 122))
   || ((48 <=? n) && (n <=? 57)))%N.

(** The characters of a Base64 text. *)
Definition b64_char (c : ascii) : Prop :=
  alnum c = true \/ c = "+"%char \/ c = "/"%char \/ c = "="%char.

(** The characters of a string. *)
Fixpoint chars (s : string) : list ascii :=
  match s with
  | EmptyString => []
  | String c rest => c :: chars rest
  end.

(** What [sendDingTalkAlert] hands back for an answer of the webhook: the
    document it parsed, as it is, or an acknowledgment with [errcode] -1
    built from the error when the request was rejected, the body could not
    be read or was not JSON, or the document was [null]. *)
Definition handed_back (answer : FetchResult) (result : Json) : Prop :=
  match answer with
  | Rejected e => result = JAck (-1) e
  | Resolved r =>
      match resp_text r, resp_parsed r with
      | Thrown e, _ => result = JAck (-1) e
      | Normal _, None => exists e, result = JAck (-1) e
      | Normal _, Some JNull => exists e, result = JAck (-1) e
      | Normal _, Some j => result = j
      end
  end.

(** The requests among the events. *)
Definition request_of (e : Event) : option Request :=
  match e with
  | Fetched r => Some r
  | Ran _ => None
  end.

Definition requests_of (t : list Event) : list Request := omap request_of t.

(** What the probe of a target comes to in a world: it depends on neither
    the database nor the clock. *)
Definition probe_verdict (monitor : Monitor) (w : World) : Completion CheckResult :=
  (probe monitor w (mkSys ∅ [] 0 [] [])).1.

(** The task [checkSites] runs for a target that is due, on the row stored
    under [id]. *)
Definition recheck (env : Bindings) (id : Z) (w : World) (s : Sys) : Sys :=
  match monitors s !! id with
  | Some row => (performCheck row env w s).2
  | None => s
  end.

(** The same, once for each of the worlds in turn. *)
Definition rechecks (env : Bindings) (id : Z) (ws : list World) (s : Sys) : Sys :=
  fold_left (fun s w => recheck env id w s) ws s.

(** Two rows with the same identity and configuration. *)
Definition same_config (a b : Monitor) : Prop :=
  monitor_id a = monitor_id b /\ name a = name b /\ url a = url b
  /\ method a = method b /\ keyword a = keyword b /\ interval a = interval b.

(** The clock has not been set back. *)
Definition later (s s' : Sys) : Prop := (ticks s <= ticks s')%nat.

(** No target is added or removed, and every target keeps its identity and
    configuration. *)
Definition same_targets (s s' : Sys) : Prop :=
  forall id, option_Forall2 same_config (monitors s !! id) (monitors s' !! id).

(** The rows [checkSites] finds to be due at [now], in the order of the
    result set. *)
Definition due_rows (now : Z) (s : Sys) : list Monitor :=
  List.filter (fun row => isTimeToCheck row now) (result_set s).

(** Every row is stored under its own id. *)
Definition well_keyed (s : Sys) : Prop :=
  forall id row, monitors s !! id = Some row -> monitor_id row = id.

(** Every log entry belongs to a stored target. *)
Definition referential (s : Sys) : Prop :=
  forall e, e ∈ logs s -> is_Some (monitors s !! log_monitor_id e).

(** One call into the worker: the scheduled handler, the continuations it
    left behind, or one of the routes. *)
Inductive Call :=
| Scheduled (env : Bindings)
| Settled (env : Bindings)
| PostMonitors (schema : Api.Schema) (json : Completion Api.NewMonitor)
| DeleteMonitor (id : option Z)
| TestAlert (env : Bindings).

Definition serve (c : Call) (w : World) (s : Sys) : Sys :=
  match c with
  | Scheduled env => (checkSites env w s).2
  | Settled env => (settle env w s).2
  | PostMonitors schema json => (Api.post_monitors schema json w s).2
  | DeleteMonitor id => (Api.delete_monitor id w s).2
  | TestAlert env => (Api.post_test_alert env w s).2
  end.

(** ** Concrete situations *)

Module Scenario.

(** No binding set: the dispatcher falls back to its built-in credentials. *)
Definition bare : Bindings := mkBindings None None.

(** A clock that gives one reading per second. *)
Definition seconds (n : nat) : Z := 1700000000000 + 1000 * Z.of_nat n.

Definition world (answers : Request -> FetchResult) : World :=
  mkWorld seconds answers (fun _ => Some "sub.example.com") pretty.

(** Every request is refused. *)
Definition refusing : World :=
  world (fun _ => Rejected (Some "connection refused")).

(** Every request is answered with a 500. *)
Definition failing : World :=
  world (fun _ => Resolved (mkResponse 500 (Normal "oops") None)).

(** Every request is answered with a 200 and a page that is not JSON. *)
Definition healthy : World :=
  world (fun _ => Resolved (mkResponse 200 (Normal "hello") None)).

(** A target in UP that was never checked. *)
Definition site : Monitor :=
  mkMonitor 1 "site" "https://sub.example.com/" None None (Some 60)
            "UP" 0 None None None None.

(** A target that has failed its three retries. *)
Definition flaky : Monitor :=
  mkMonitor 1 "site" "https://sub.example.com/" None None (Some 60)
            "RETRYING" 3 (Some (seconds 0 - 60000)) None None None.

(** A target whose metadata was refreshed one hour before the clock starts. *)
Definition fresh : Monitor :=
  mkMonitor 1 "site" "https://sub.example.com/" None None (Some 60)
            "UP" 0 None (Some (seconds 0 - 3600000)) None None.

(** The same, with a keyword that the page of [healthy] does not contain. *)
Definition picky : Monitor :=
  mkMonitor 1 "site" "https://sub.example.com/" None (Some "welcome") (Some 60)
            "UP" 0 None (Some (seconds 0 - 3600000)) None None.

(** A target whose interval was stored as zero, last checked at second 1. *)
Definition unpaced : Monitor :=
  mkMonitor 7 "shop" "https://shop.example.com" None None (Some 0)
            "UP" 0 (Some 1000) None None None.

(** A database that holds one target and nothing else. *)
Definition db (m : Monitor) : Sys := mkSys {[ monitor_id m := m ]} [] 0 [] [].

(** crt.sh knows nothing under [sub.example.com], two certificates under
    [example.com] and one under [%.example.com]; every other request (RDAP
    among them) is answered with a 404. *)
Definition transparency_log (req : Request) : FetchResult :=
  if String.eqb (req_url req) "https://crt.sh/?q=sub.example.com&output=json"
  then Resolved (mkResponse 200 (Normal "[]") (Some (JCerts [])))
  else if String.eqb (req_url req) "https://crt.sh/?q=example.com&output=json"
  then Resolved (mkResponse 200 (Normal "[2 records]")
                   (Some (JCerts [mkCert 1735689600000 "example.com";
                                  mkCert 1767225600000 "www.example.com"])))
  else if String.eqb (req_url req) "https://crt.sh/?q=%.example.com&output=json"
  then Resolved (mkResponse 200 (Normal "[1 record]")
                   (Some (JCerts [mkCert 1751328000000 "*.example.com"])))
  else Resolved (mkResponse 404 (Normal "not found") None).

Definition transparency : World := world transparency_log.

(** The same, but the query for [example.com] is answered with the JSON
    document [null]. *)
Definition nulled_log (req : Request) : FetchResult :=
  if String.eqb (req_url req) "https://crt.sh/?q=example.com&output=json"
  then Resolved (mkResponse 200 (Normal "null") (Some JNull))
  else transparency_log req.

Definition nulled : World := world nulled_log.

(** A target whose two expiry dates were found by an earlier refresh. *)
Definition dated : Monitor :=
  mkMonitor 1 "site" "https://sub.example.com/" None None (Some 60)
            "UP" 0 None None (Some 1700000000000) (Some 1800000000000).

(** Four runs of the scheduled handler while every request is refused. *)
Definition four_failures : Sys :=
  Nat.iter 4 (fun s => (checkSites bare refusing s).2) (db site).

(** A target in UP with an interval of a minute, checked one second before
    the clock starts. *)
Definition rested : Monitor :=
  mkMonitor 1 "site" "https://sub.example.com/" None None (Some 60)
            "UP" 0 (Some (seconds 0 - 1000)) None None None.

(** A target stored with a status that the state machine does not know. *)
Definition unsettled : Monitor :=
  mkMonitor 1 "site" "https://sub.example.com/" None None (Some 60)
            "PENDING" 0 None None None None.

(** A table whose columns default to UP with no retry and no dates, and
    whose row ids are one more than the largest id in use. *)
Definition schema : Api.Schema :=
  Api.mkSchema
    (mkMonitor 0 "" "" (Some "GET") None (Some 300) "UP" 0 None None None None)
    (fun rows => 1 + map_fold (fun id _ largest => Z.max id largest) 0 rows).

(** A request to add a target, with no interval and an empty keyword. *)
Definition shop : Api.NewMonitor :=
  Api.mkNew (Some "shop") (Some "https://shop.example.com") None (Some "").

End Scenario.

(** * Properties *)

#[local] Set Warnings "-clear-no-such-hyp".

(** ** The scheduling decision *)

Lemma eqb_status_true (s t : string) : String.eqb s t = true <-> s = t.
Proof. apply String.eqb_eq. Qed.

Lemma eqb_status_false (s t : string) : String.eqb s t = false <-> s <> t.
Proof. apply String.eqb_neq. Qed.

Lemma retrying_always_due (m : Monitor) (now : Z) :
  status m = "RETRYING" -> isTimeToCheck m now = true.
Proof. intros H. unfold isTimeToCheck. now rewrite H. Qed.

(** C6, as stated, fails: with the stored interval 0 the stated rule makes a
    target in UP due as soon as any time has passed, while the code falls
    back to 300 seconds. *)
Lemma isTimeToCheck_not_the_stated_rule :
  ~ (forall (m : Monitor) (now t i : Z),
        status m = "UP" \/ status m = "DOWN" ->
        last_check m = Some t ->
        interval m = Some i ->
        (isTimeToCheck m now = true <-> now - t >= i * 1000)).
Proof.
  intros H.
  specialize (H Scenario.unpaced 2000 1000 0
                (or_introl eq_refl) eq_refl eq_refl).
  destruct H as [_ H].
  assert (E : isTimeToCheck Scenario.unpaced 2000 = false) by reflexivity.
  rewrite E in H. discriminate H. lia.
Qed.

(** C6, amended: a target in RETRYING is always due; any other target is due
    exactly when [now - last_check >= interval * 1000], where a missing
    [last_check] counts as 0 and a missing or zero interval as 300 seconds. *)
Theorem isTimeToCheck_rule (m : Monitor) (now : Z) :
  isTimeToCheck m now = true <->
  status m = "RETRYING"
  \/ now - match last_check m with Some t => t | None => 0 end
     >= match interval m with
        | Some i => if i =? 0 then 300 else i
        | None => 300
        end * 1000.
Proof.
  unfold isTimeToCheck, Js.or_num.
  destruct (String.eqb (status m) "RETRYING") eqn:E.
  - apply eqb_status_true in E. tauto.
  - apply eqb_status_false in E. rewrite Z.geb_le. split.
    + intros H. right. lia.
    + intros [H | H]; [contradiction | lia].
Qed.

(** ** Running computations *)

(** Unfolds the operations of the monad; the projections of a state built
    on the way are reduced. *)
Ltac run_cbn :=
  cbv [mbind M_bind mret M_ret try_catch date_now ask fetch run run_then throw
       text json JSON_parse hostname after_reading record];
  cbn [fst snd ticks monitors logs trace pending apply_sql].

(** ** The alert dispatcher *)

Lemma or_string_nonempty (a : option string) (d : string) :
  d <> "" -> Js.or_string a d <> "".
Proof.
  intros Hd. unfold Js.or_string.
  destruct a as [[|c r]|]; try assumption. discriminate.
Qed.

Lemma credentials_present (env : Bindings) :
  String.eqb (Js.or_string (DINGTALK_ACCESS_TOKEN env) fallback_access_token) ""
  || String.eqb (Js.or_string (DINGTALK_SECRET env) fallback_secret) ""
  = false.
Proof.
  apply orb_false_intro; apply eqb_status_false, or_string_nonempty; discriminate.
Qed.

(** One call of [sendDingTalkAlert] reads the clock twice, POSTs one payload
    to the signed webhook address and returns normally, whatever the
    webhook does. *)
Lemma sendDingTalkAlert_effect env (m : Monitor) (msg : string) w s :
  let token := Js.or_string (DINGTALK_ACCESS_TOKEN env) fallback_access_token in
  let secret := Js.or_string (DINGTALK_SECRET env) fallback_secret in
  let timestamp := clock w (ticks s) in
  let shown := toLocaleString w (clock w (S (ticks s))) in
  exists result s',
    sendDingTalkAlert env m msg w s = (Normal result, s')
    /\ monitors s' = monitors s /\ logs s' = logs s /\ pending s' = pending s
    /\ ticks s' = S (S (ticks s))
    /\ trace s' = trace s ++
         [Fetched (alert_request
                     (webhookUrl token timestamp (signEncoded secret timestamp))
                     (alert_payload m shown msg))].
Proof.
  intros token secret timestamp shown.
  unfold sendDingTalkAlert. rewrite credentials_present.
  fold token secret. run_cbn. fold timestamp shown.
  destruct (net w _) as [e | r]; run_cbn.
  - eexists _, _. repeat split.
  - destruct (resp_text r) as [body | e]; run_cbn.
    + destruct (resp_parsed r) as [[| | | |]|]; cbv [errcode_differs]; run_cbn;
        eexists _, _; repeat split.
    + eexists _, _. repeat split.
Qed.

(** ** Frame rules *)

Section Keeps.

Context (R : Sys -> Sys -> Prop) `{!Reflexive R} `{!Transitive R}.

Lemma keeps_ret {A} (a : A) : keeps R (mret a : M A).
Proof. intros w s. reflexivity. Qed.

Lemma keeps_throw {A} (e : option string) : keeps R (throw e : M A).
Proof. intros w s. reflexivity. Qed.

Lemma keeps_ask {A} (f : World -> A) : keeps R (ask f).
Proof. intros w s. reflexivity. Qed.

Lemma keeps_bind {A B} (m : M A) (k : A -> M B) :
  keeps R m -> (forall a, keeps R (k a)) -> keeps R (m ≫= k).
Proof.
  intros Hm Hk w s. specialize (Hm w s).
  cbv [mbind M_bind]. destruct (m w s) as [[a | e] s1]; cbn in *.
  - etransitivity; [exact Hm | apply Hk].
  - exact Hm.
Qed.

Lemma keeps_try {A} (body : M A) (handler : option string -> M A) :
  keeps R body -> (forall e, keeps R (handler e)) -> keeps R (try_catch body handler).
Proof.
  intros Hm Hk w s. specialize (Hm w s).
  cbv [try_catch]. destruct (body w s) as [[a | e] s1]; cbn in *.
  - exact Hm.
  - etransitivity; [exact Hm | apply Hk].
Qed.

Lemma keeps_hostname (u : string) : keeps R (hostname u).
Proof. intros w s. cbv [hostname]. destruct (url_hostname w u); reflexivity. Qed.

Lemma keeps_text (r : Response) : keeps R (text r).
Proof. intros w s. reflexivity. Qed.

Lemma keeps_JSON_parse (r : Response) : keeps R (JSON_parse r).
Proof. intros w s. cbv [JSON_parse]. destruct (resp_parsed r); reflexivity. Qed.

Lemma keeps_json (r : Response) : keeps R (json r).
Proof.
  apply keeps_bind; [apply keeps_text | intros _; apply keeps_JSON_parse].
Qed.

Lemma keeps_each {A} (f : A -> M unit) (l : list A) :
  (forall x, keeps R (f x)) -> keeps R (each f l).
Proof.
  intros Hf. induction l as [|x l IH]; cbn [each].
  - apply keeps_ret.
  - apply keeps_bind; [apply Hf | intros _; exact IH].
Qed.

End Keeps.

(** The primitive operations, for a relation that does not see what they
    change. *)
Section KeepsPrimitive.

Context (R : Sys -> Sys -> Prop).

Lemma keeps_date_now : (forall s, R s (after_reading s)) -> keeps R date_now.
Proof. intros H w s. apply H. Qed.

Lemma keeps_fetch (req : Request) :
  (forall s, R s (record (Fetched req) s)) -> keeps R (fetch req).
Proof. intros H w s. cbv [fetch]. destruct (net w req); apply H. Qed.

Lemma keeps_run (q : Sql) :
  (forall s, R s (apply_sql q (record (Ran q) s))) -> keeps R (run q).
Proof. intros H w s. apply H. Qed.

Lemma keeps_run_then (q : Sql) (t : Task) :
  (forall s, R s (let s' := apply_sql q (record (Ran q) s) in
                  mkSys (monitors s') (logs s') (ticks s') (trace s')
                        (pending s' ++ [t]))) ->
  keeps R (run_then q t).
Proof. intros H w s. apply H. Qed.

End KeepsPrimitive.

Lemma trace_apply_sql (q : Sql) (s : Sys) : trace (apply_sql q s) = trace s.
Proof. destruct q; reflexivity. Qed.

(** *** The trace only grows *)

#[global] Instance grows_by_refl (P : Event -> Prop) : Reflexive (grows_by P).
Proof. intros s. exists []. split; [now rewrite app_nil_r | constructor]. Qed.

#[global] Instance grows_by_trans (P : Event -> Prop) : Transitive (grows_by P).
Proof.
  intros a b c [e1 [H1 F1]] [e2 [H2 F2]]. exists (e1 ++ e2). split.
  - rewrite H2, H1. now rewrite app_assoc.
  - now apply Forall_app.
Qed.

Lemma grows_date_now P : keeps (grows_by P) date_now.
Proof. apply keeps_date_now. intros s. exists []. split; [now rewrite app_nil_r | constructor]. Qed.

Lemma grows_fetch P (req : Request) : P (Fetched req) -> keeps (grows_by P) (fetch req).
Proof.
  intros H. apply keeps_fetch. intros s. exists [Fetched req].
  split; [reflexivity | now repeat constructor].
Qed.

Lemma grows_run P (q : Sql) : P (Ran q) -> keeps (grows_by P) (run q).
Proof.
  intros H. apply keeps_run. intros s. exists [Ran q].
  split; [now rewrite trace_apply_sql | now repeat constructor].
Qed.

Lemma grows_run_then P (q : Sql) (t : Task) :
  P (Ran q) -> keeps (grows_by P) (run_then q t).
Proof.
  intros H. apply keeps_run_then. intros s. exists [Ran q].
  split; [cbn; now rewrite trace_apply_sql | now repeat constructor].
Qed.

(** *** Status and retry count are left alone *)

#[global] Instance same_states_refl : Reflexive same_states.
Proof. intros s id. reflexivity. Qed.

#[global] Instance same_states_trans : Transitive same_states.
Proof. intros a b c H1 H2 id. now rewrite H2, H1. Qed.

Lemma stored_state_alter (f : Monitor -> Monitor) (id' : Z) (s : Sys) (id : Z) :
  (forall row, status (f row) = status row /\ retry_count (f row) = retry_count row) ->
  (fun row => (status row, retry_count row)) <$> alter f id' (monitors s) !! id
  = stored_state id s.
Proof.
  intros Hf. unfold stored_state. rewrite lookup_alter.
  case_decide; [subst | reflexivity].
  destruct (monitors s !! id) as [row|]; cbn; [|reflexivity].
  destruct (Hf row) as [-> ->]. reflexivity.
Qed.

Lemma same_states_apply_sql (q : Sql) (s : Sys) :
  match q with UpdateState _ _ _ _ => False | _ => True end ->
  same_states s (apply_sql q s).
Proof.
  intros Hq id. destruct q; try contradiction; try reflexivity;
    unfold stored_state at 1; cbn [apply_sql monitors];
    apply stored_state_alter; intros row; split; reflexivity.
Qed.

Lemma states_date_now : keeps same_states date_now.
Proof. apply keeps_date_now. intros s id. reflexivity. Qed.

Lemma states_fetch (req : Request) : keeps same_states (fetch req).
Proof. apply keeps_fetch. intros s id. reflexivity. Qed.

Lemma states_run (q : Sql) :
  match q with UpdateState _ _ _ _ => False | _ => True end ->
  keeps same_states (run q).
Proof.
  intros Hq. apply keeps_run. intros s.
  transitivity (record (Ran q) s); [intros id; reflexivity|].
  now apply same_states_apply_sql.
Qed.

Lemma states_run_then (q : Sql) (t : Task) :
  match q with UpdateState _ _ _ _ => False | _ => True end ->
  keeps same_states (run_then q t).
Proof.
  intros Hq. apply keeps_run_then. intros s id. cbn zeta.
  unfold stored_state at 1. cbn [monitors].
  now apply (same_states_apply_sql q (record (Ran q) s)).
Qed.

(** *** The log is left alone *)

#[global] Instance same_logs_refl : Reflexive same_logs.
Proof. intros s. reflexivity. Qed.

#[global] Instance same_logs_trans : Transitive same_logs.
Proof. intros a b c H1 H2. unfold same_logs in *. congruence. Qed.

Lemma logs_date_now : keeps same_logs date_now.
Proof. apply keeps_date_now. intros s. reflexivity. Qed.

Lemma logs_fetch (req : Request) : keeps same_logs (fetch req).
Proof. apply keeps_fetch. intros s. reflexivity. Qed.

Lemma logs_run (q : Sql) :
  match q with InsertLog _ => False | _ => True end -> keeps same_logs (run q).
Proof.
  intros Hq. apply keeps_run. intros s. destruct q; try contradiction; reflexivity.
Qed.

(** ** What the probe and the resolver leave alone *)

Lemma silent_no_body (r : Request) : req_body r = None -> silent (Fetched r).
Proof.
  intros H. unfold silent, alert_of.
  destruct (String.prefix _ _); [|reflexivity].
  destruct (req_method r) as [verb|]; [|reflexivity].
  destruct (String.eqb verb "POST"); [exact H | reflexivity].
Qed.

#[global] Instance passive_unbounded : Passive (grows_by unbounded).
Proof. split; try typeclasses eauto. intros req _ H. now apply grows_fetch. Qed.

#[global] Instance quiet_unbounded : Quiet (grows_by unbounded).
Proof.
  split; try typeclasses eauto.
  - apply grows_date_now.
  - intros. now apply grows_run_then.
  - intros. now apply grows_run.
  - intros s. exists []. split; [now rewrite app_nil_r | constructor].
Qed.

#[global] Instance passive_silent : Passive (grows_by silent).
Proof.
  split; try typeclasses eauto.
  intros req H _. now apply grows_fetch, silent_no_body.
Qed.

#[global] Instance quiet_silent : Quiet (grows_by silent).
Proof.
  split; try typeclasses eauto.
  - apply grows_date_now.
  - intros. now apply grows_run_then.
  - intros. now apply grows_run.
  - intros s. exists []. split; [now rewrite app_nil_r | constructor].
Qed.

#[global] Instance passive_states : Passive same_states.
Proof. split; try typeclasses eauto. intros. apply states_fetch. Qed.

#[global] Instance quiet_states : Quiet same_states.
Proof.
  split; try typeclasses eauto.
  - apply states_date_now.
  - intros. now apply states_run_then.
  - intros. now apply states_run.
  - intros s id. reflexivity.
Qed.

#[global] Instance passive_logs : Passive same_logs.
Proof. split; try typeclasses eauto. intros. apply logs_fetch. Qed.

#[global] Instance quiet_logs : Quiet same_logs.
Proof.
  split; try typeclasses eauto.
  - apply logs_date_now.
  - intros. apply keeps_run_then. intros s. reflexivity.
  - intros. now apply logs_run.
  - intros s. reflexivity.
Qed.

Lemma statements_of_app (a b : list Event) :
  statements_of (a ++ b) = statements_of a ++ statements_of b.
Proof. apply omap_app. Qed.

#[global] Instance passive_untouched : Passive untouched.
Proof.
  split.
  - intros s. repeat split.
  - intros a b c (H1 & H2 & H3 & H4 & H5) (K1 & K2 & K3 & K4 & K5).
    repeat split; congruence.
  - intros req _ _. apply keeps_fetch. intros s. repeat split.
    cbn [record trace]. rewrite statements_of_app. cbn. apply app_nil_r.
Qed.

Section PassiveCode.

Context (R : Sys -> Sys -> Prop) `{!Passive R}.

Ltac passive :=
  repeat first
    [ progress intros
    | progress cbv beta iota
    | exact passive_refl | exact passive_trans
    | apply keeps_ret | apply keeps_throw | apply keeps_ask
    | apply keeps_hostname | apply keeps_text | apply keeps_JSON_parse
    | apply keeps_json
    | apply passive_fetch; reflexivity
    | solve [auto]
    | apply keeps_bind | apply keeps_try
    | match goal with
      | |- keeps _ (if ?b then _ else _) => destruct b
      | |- keeps _ (match ?x with _ => _ end) => destruct x
      end ].

Lemma passive_fetchCerts (d : string) : keeps R (fetchCerts d).
Proof. unfold fetchCerts. passive. Qed.

Lemma passive_length_positive (j : Json) : keeps R (length_positive j).
Proof. unfold length_positive. passive. Qed.

Lemma passive_concat (a b : Json) : keeps R (concat a b).
Proof. unfold concat. passive. Qed.

Lemma passive_gather (d : string) : keeps R (gather d).
Proof.
  pose proof passive_fetchCerts. pose proof passive_length_positive.
  pose proof passive_concat. unfold gather. passive.
Qed.

Lemma passive_latest (j : Json) : keeps R (latest j).
Proof. unfold latest. passive. Qed.

Lemma passive_lookup_cert (d : string) : keeps R (lookup_cert d).
Proof.
  pose proof passive_gather. pose proof passive_latest.
  unfold lookup_cert. passive.
Qed.

Lemma passive_lookup_domain (d : string) : keeps R (lookup_domain d).
Proof. unfold lookup_domain. passive. Qed.

End PassiveCode.

Section QuietCode.

Context (R : Sys -> Sys -> Prop) `{!Quiet R}.

#[local] Instance quiet_is_passive : Passive R := quiet_passive.
#[local] Instance quiet_is_refl : Reflexive R := passive_refl.
#[local] Instance quiet_is_trans : Transitive R := passive_trans.

Ltac quiet :=
  repeat first
    [ progress intros
    | progress cbv beta iota
    | exact passive_refl | exact passive_trans
    | apply keeps_ret | apply keeps_throw | apply keeps_ask
    | apply keeps_hostname | apply keeps_text | apply keeps_JSON_parse
    | apply keeps_json
    | exact quiet_passive
    | apply quiet_date | apply quiet_info | apply quiet_expiry
    | apply passive_fetch; reflexivity
    | apply passive_lookup_cert | apply passive_lookup_domain
    | solve [auto]
    | apply keeps_bind | apply keeps_try
    | match goal with
      | |- keeps _ (if ?b then _ else _) => destruct b
      | |- keeps _ (match ?x with _ => _ end) => destruct x
      end ].

Lemma quiet_refresh_info (m : Monitor) : keeps R (refresh_info m).
Proof. unfold refresh_info. quiet. Qed.

Lemma quiet_probe (m : Monitor) : keeps R (probe m).
Proof. pose proof quiet_refresh_info. unfold probe. quiet. Qed.

Lemma quiet_updateDomainCertInfo env (m : Monitor) :
  keeps R (updateDomainCertInfo env m).
Proof. unfold updateDomainCertInfo. quiet. Qed.

Lemma quiet_run_task env (t : Task) : keeps R (run_task env t).
Proof. pose proof quiet_updateDomainCertInfo. unfold run_task. quiet. Qed.

Lemma quiet_settle env : keeps R (settle env).
Proof.
  intros w s. unfold settle.
  etransitivity; [apply quiet_queue|].
  apply keeps_each; [exact passive_refl | exact passive_trans |].
  apply quiet_run_task.
Qed.

End QuietCode.

(** ** The probe *)

Lemma append_nil (s : string) : "" +:+ s = s.
Proof. reflexivity. Qed.

Lemma append_cons (c : ascii) (a b : string) :
  String c a +:+ b = String c (a +:+ b).
Proof. reflexivity. Qed.

Lemma prefix_spec (p s : string) :
  String.prefix p s = true <-> exists rest, s = p +:+ rest.
Proof.
  revert s. induction p as [|a p IH]; intros s.
  - split; [intros _; now exists s | intros _; now destruct s].
  - destruct s as [|b s]; cbn [String.prefix].
    + split; [discriminate | intros [rest H]; discriminate H].
    + destruct (ascii_dec a b) as [->|Hne].
      * rewrite IH. split; intros [rest H]; exists rest.
        -- rewrite append_cons. now rewrite H.
        -- rewrite append_cons in H. now injection H.
      * split; [discriminate |].
        intros [rest H]. rewrite append_cons in H. injection H. congruence.
Qed.

Lemma includes_spec (s pat : string) :
  Js.includes s pat = true <-> mentions s pat.
Proof.
  unfold mentions. induction s as [|c s IH]; cbn [Js.includes].
  - rewrite orb_false_r, prefix_spec. split.
    + intros [rest H]. now exists "", rest.
    + intros [[|a before] [after H]]; [now exists after | discriminate H].
  - rewrite orb_true_iff, prefix_spec, IH. split.
    + intros [[rest H] | [before [after H]]].
      * now exists "", rest.
      * exists (String c before), after. rewrite append_cons. now rewrite H.
    + intros [[|a before] [after H]].
      * left. now exists after.
      * right. exists before, after. rewrite append_cons in H. now injection H.
Qed.

Lemma includes_false (s pat : string) :
  Js.includes s pat = false <-> ~ mentions s pat.
Proof.
  rewrite <- includes_spec. destruct (Js.includes s pat); split; congruence.
Qed.

Lemma or_string_empty (message : option string) :
  Js.or_string message "" = match message with Some t => t | None => "" end.
Proof. destruct message as [[|c t]|]; reflexivity. Qed.

(** The [catch] block classifies as item 3 of section 4.2 says. *)
Lemma thrown_reason_classified (message : option string) :
  classified_as_thrown message (mkResult 0 true (thrown_reason message)).
Proof.
  unfold classified_as_thrown, thrown_reason, tls_vocabulary, time_vocabulary.
  rewrite or_string_empty. set (msg := match message with Some t => t | None => "" end).
  cbn [res_status res_isFail res_reason].
  rewrite <- !includes_spec.
  destruct (Js.includes msg "handshake"), (Js.includes msg "certificate"),
    (Js.includes msg "SSL"), (Js.includes msg "TLS"); cbn [orb];
    try (repeat split; intros; solve [reflexivity | exfalso; tauto]).
  destruct (Js.includes msg "time"), (Js.includes msg "timeout"); cbn [orb];
    try (repeat split; intros;
         solve [reflexivity | exfalso; intuition discriminate]).
  repeat split; intros; try solve [exfalso; intuition discriminate].
  destruct msg; reflexivity.
Qed.

Example thrown_reasons :
  thrown_reason (Some "TLS handshake failed") = "SSL Error: TLS handshake failed"
  /\ thrown_reason (Some "bad certificate") = "SSL Error: bad certificate"
  /\ thrown_reason (Some "connect timeout") = "Timeout"
  /\ thrown_reason (Some "connection refused") = "connection refused"
  /\ thrown_reason (Some "") = "Network Error"
  /\ thrown_reason None = "Network Error".
Proof. repeat split; reflexivity. Qed.

(** The probe always returns: its [catch] block handles whatever the [try]
    block throws. *)
Lemma probe_returns (m : Monitor) (w : World) (s : Sys) :
  exists result s', probe m w s = (Normal result, s').
Proof.
  unfold probe. cbv [try_catch].
  match goal with
  | |- context [match ?body w s with _ => _ end] =>
      destruct (body w s) as [[result | e] s']
  end; eexists _, _; reflexivity.
Qed.

(** C7: the probe always ends with a [CheckResult], never with an exception,
    and the result follows the priority order of section 4.2: a response
    with a non-success status fails with reason "HTTP <status>"; a successful
    response whose body lacks the configured keyword fails with a reason
    naming the keyword; a request that threw (or whose body could not be
    read for the keyword check) gives status 0 and fails with the reason
    classified from the error text; anything else is a success with an
    empty reason. *)
Theorem probe_classification (m : Monitor) (w : World) (s : Sys) :
  exists result s',
    probe m w s = (Normal result, s')
    /\ match net w (probe_request m) with
       | Rejected e => classified_as_thrown e result
       | Resolved r =>
           (resp_ok r = false ->
            result = mkResult (resp_status r) true
                       ("HTTP " +:+ pretty (resp_status r)))
           /\ (resp_ok r = true ->
               forall kw body,
                 keyword m = Some kw -> kw <> "" ->
                 resp_text r = Normal body -> ~ mentions body kw ->
                 result = mkResult (resp_status r) true
                            ("Keyword " +:+ dquote +:+ kw +:+ dquote
                             +:+ " not found"))
           /\ (resp_ok r = true ->
               forall kw e,
                 keyword m = Some kw -> kw <> "" ->
                 resp_text r = Thrown e ->
                 classified_as_thrown e result)
           /\ (resp_ok r = true ->
               (keyword m = None \/ keyword m = Some ""
                \/ exists kw body,
                     keyword m = Some kw /\ resp_text r = Normal body
                     /\ mentions body kw) ->
               result = mkResult (resp_status r) false "")
       end.
Proof.
  unfold probe. run_cbn.
  destruct (net w (probe_request m)) as [e | r]; run_cbn.
  - eexists _, _. split; [reflexivity | apply thrown_reason_classified].
  - destruct (resp_ok r) eqn:Hok; cbn [negb]; run_cbn.
    + destruct (refresh_info m w _) as [[[] | e0] s1] eqn:Hr.
      2:{ exfalso. revert Hr. unfold refresh_info. run_cbn. discriminate. }
      clear Hr.
      destruct (keyword m) as [[|c kw]|] eqn:Hkw; cbn [Js.truthy_string]; run_cbn.
      * eexists _, _. split; [reflexivity|]. naive_solver.
      * destruct (resp_text r) as [body | e] eqn:Hbody; run_cbn.
        -- cbn [Js.or_string].
           destruct (Js.includes body (String c kw)) eqn:Hin; cbn [negb];
             [apply includes_spec in Hin | apply includes_false in Hin];
             eexists _, _; (split; [reflexivity|]); naive_solver.
        -- eexists _, _. split; [reflexivity|].
           pose proof (thrown_reason_classified e). naive_solver.
      * eexists _, _. split; [reflexivity|]. naive_solver.
    + eexists _, _. split; [reflexivity|]. naive_solver.
Qed.

(** ** The state machine *)

Lemma alerts_of_app (a b : list Event) :
  alerts_of (a ++ b) = alerts_of a ++ alerts_of b.
Proof. apply omap_app. Qed.

Lemma alerts_of_silent (evs : list Event) :
  Forall silent evs -> alerts_of evs = [].
Proof.
  induction 1 as [|e evs He _ IH]; [reflexivity|].
  unfold alerts_of in *. cbn [omap list_omap]. unfold silent in He.
  now rewrite He, IH.
Qed.

Lemma alerts_of_grows (s s' : Sys) :
  grows_by silent s s' -> alerts_of (trace s') = alerts_of (trace s).
Proof.
  intros [evs [-> H]]. rewrite alerts_of_app, (alerts_of_silent evs H).
  apply app_nil_r.
Qed.

(** The request [sendDingTalkAlert] builds is an alert. *)
Lemma alert_of_alert_request (token sign : string) (timestamp : Z) (p : Payload) :
  alert_of (Fetched (alert_request (webhookUrl token timestamp sign) p)) = Some p.
Proof. reflexivity. Qed.

(** From any state, [advance] returns normally, touches neither the tables
    nor the queue and, wherever the table of section 4.1 has a row, returns
    that row's status and retry count and sends that row's alert. *)
Lemma advance_effect env (m : Monitor) (isFail : bool) (why : string)
    (latency : Z) w s :
  exists next s',
    advance env m isFail why latency w s = (Normal next, s')
    /\ monitors s' = monitors s /\ logs s' = logs s /\ pending s' = pending s
    /\ grows_by unbounded s s'
    /\ forall st rc alert,
         table (status m) (retry_count m) isFail = Some (st, rc, alert) ->
         next = (st, rc) /\ alerted alert m why latency s s'.
Proof.
  assert (Hquiet : forall (next : string * Z),
            (forall st rc alert,
               table (status m) (retry_count m) isFail = Some (st, rc, alert) ->
               next = (st, rc) /\ alert = NoAlert) ->
            exists next' s',
              (Normal next, s) = (Normal next', s')
              /\ monitors s' = monitors s /\ logs s' = logs s
              /\ pending s' = pending s /\ grows_by unbounded s s'
              /\ forall st rc alert,
                   table (status m) (retry_count m) isFail = Some (st, rc, alert) ->
                   next' = (st, rc) /\ alerted alert m why latency s s').
  { intros next Hrow. exists next, s.
    do 4 (split; [reflexivity|]). split; [reflexivity|].
    intros st rc alert Ht. destruct (Hrow st rc alert Ht) as [-> ->].
    split; reflexivity. }
  unfold advance. unfold table in *.
  destruct isFail.
  - destruct (String.eqb (status m) "UP") eqn:Hup; run_cbn.
    { apply Hquiet. intros; simplify_eq. split; reflexivity. }
    destruct (String.eqb (status m) "RETRYING") eqn:Hre; run_cbn.
    { destruct (retry_count m <? 3) eqn:Hlt; run_cbn.
      - apply Hquiet. intros; simplify_eq. apply eqb_status_true in Hre.
        rewrite Hre. split; reflexivity.
      - clear Hquiet.
        destruct (sendDingTalkAlert_effect env m ("Monitor is DOWN: " +:+ why) w s)
          as (result & s' & Hrun & Hm & Hl & Hp & _ & Ht).
        rewrite Hrun. eexists _, _. split; [reflexivity|].
        do 3 (split; [assumption|]).
        split; [eexists; split; [exact Ht | repeat constructor]|].
        intros st rc alert Hrow.
        destruct (retry_count m =? 3) eqn:H3; [|discriminate].
        apply Z.eqb_eq in H3. simplify_eq. rewrite H3. split; [reflexivity|].
        eexists _, _, _, _. exact Ht. }
    destruct (String.eqb (status m) "DOWN") eqn:Hdn; run_cbn.
    + apply Hquiet. intros; simplify_eq. apply eqb_status_true in Hdn.
      rewrite Hdn. split; reflexivity.
    + apply Hquiet. intros; simplify_eq.
  - destruct (String.eqb (status m) "DOWN") eqn:Hdn; run_cbn.
    + clear Hquiet.
      destruct (sendDingTalkAlert_effect env m
                  ("Monitor Recovered! Latency: " +:+ Js.num_to_string latency +:+ "ms") w s)
        as (result & s' & Hrun & Hm & Hl & Hp & _ & Ht).
      rewrite Hrun. eexists _, _. split; [reflexivity|].
      do 3 (split; [assumption|]).
      split; [eexists; split; [exact Ht | repeat constructor]|].
      intros st rc alert Hrow.
      apply eqb_status_true in Hdn. rewrite Hdn in Hrow. cbn in Hrow.
      simplify_eq. split; [reflexivity|].
      eexists _, _, _, _. exact Ht.
    + apply Hquiet. intros st rc alert Hrow.
      destruct (String.eqb (status m) "UP"); [simplify_eq; split; reflexivity|].
      destruct (String.eqb (status m) "RETRYING"); simplify_eq; split; reflexivity.
Qed.

Lemma alerted_dispatched (alert : Alert) (m : Monitor) (why : string)
    (latency : Z) (s s' : Sys) :
  alerted alert m why latency s s' ->
  dispatched alert m why latency (alerts_of (trace s)) (alerts_of (trace s')).
Proof.
  destruct alert; cbn [alerted dispatched].
  - now intros ->.
  - intros (token & ts & sign & shown & ->). exists shown.
    rewrite alerts_of_app. reflexivity.
  - intros (token & ts & sign & shown & ->). exists shown.
    rewrite alerts_of_app. reflexivity.
Qed.

(** [performCheck] in one piece: the probe, the state machine, then the two
    statements that persist the outcome. *)
Lemma performCheck_effect env (m : Monitor) w s :
  exists result s1 next s2,
    probe m w (after_reading s) = (Normal result, s1)
    /\ advance env m (res_isFail result) (res_reason result)
         (clock w (ticks s1) - clock w (ticks s)) w (after_reading s1)
       = (Normal next, s2)
    /\ performCheck m env w s =
       (Normal tt,
        let entry := mkLog (monitor_id m) (res_status result)
                           (clock w (ticks s1) - clock w (ticks s))
                           (if res_isFail result then 1 else 0)
                           (res_reason result) in
        let update := UpdateState (clock w (ticks s2)) next.1 next.2 (monitor_id m) in
        apply_sql (InsertLog entry)
          (record (Ran (InsertLog entry))
             (apply_sql update (record (Ran update) (after_reading s2))))).
Proof.
  destruct (probe_returns m w (after_reading s)) as (result & s1 & Hprobe).
  destruct (advance_effect env m (res_isFail result) (res_reason result)
              (clock w (ticks s1) - clock w (ticks s)) w (after_reading s1))
    as (next & s2 & Hadv & _).
  exists result, s1, next, s2. split; [exact Hprobe|]. split; [exact Hadv|].
  unfold performCheck. run_cbn. fold (after_reading s). rewrite Hprobe.
  run_cbn. fold (after_reading s1). rewrite Hadv. reflexivity.
Qed.

(** C1: [performCheck] returns normally and, for every row of the table of
    section 4.1 (the target's status and retry count, and whether the probe
    failed), leaves that row's status and retry count stored for the target
    and dispatches that row's alert and no other: none, one DOWN alert with
    the failure reason, or one recovery alert with the latency. *)
Theorem performCheck_follows_table env (m : Monitor) w s (row : Monitor) :
  monitors s !! monitor_id m = Some row ->
  exists result s1 s',
    probe m w (after_reading s) = (Normal result, s1)
    /\ performCheck m env w s = (Normal tt, s')
    /\ forall st rc alert,
         table (status m) (retry_count m) (res_isFail result) = Some (st, rc, alert) ->
         stored_state (monitor_id m) s' = Some (st, rc)
         /\ dispatched alert m (res_reason result)
              (clock w (ticks s1) - clock w (ticks s))
              (alerts_of (trace s)) (alerts_of (trace s')).
Proof.
  intros Hrow.
  destruct (performCheck_effect env m w s)
    as (result & s1 & next & s2 & Hprobe & Hadv & Hrun).
  pose proof (quiet_probe same_states m w (after_reading s)) as Hst.
  pose proof (quiet_probe (grows_by silent) m w (after_reading s)) as Hsil.
  rewrite Hprobe in Hst, Hsil. cbn [snd] in Hst, Hsil.
  destruct (advance_effect env m (res_isFail result) (res_reason result)
              (clock w (ticks s1) - clock w (ticks s)) w (after_reading s1))
    as (next' & s2' & Hadv' & Hm2 & Hl2 & Hp2 & _ & Htable).
  rewrite Hadv in Hadv'. injection Hadv' as <- <-.
  exists result, s1. eexists. split; [exact Hprobe|]. split; [exact Hrun|].
  intros st rc alert Ht. destruct (Htable st rc alert Ht) as [-> Hal]. split.
  - unfold stored_state. cbn [apply_sql record monitors fst snd]. rewrite lookup_alter.
    case_decide; [|contradiction]. cbn [after_reading monitors]. rewrite Hm2.
    cbn [after_reading monitors].
    specialize (Hst (monitor_id m)). unfold stored_state in Hst.
    cbn [after_reading monitors] in Hst. rewrite Hrow in Hst.
    destruct (monitors s1 !! monitor_id m); [reflexivity | discriminate Hst].
  - apply alerted_dispatched in Hal. cbn [after_reading trace] in Hal.
    rewrite (alerts_of_grows _ _ Hsil) in Hal. cbn [after_reading trace] in Hal.
    cbn [apply_sql record trace after_reading]. rewrite !alerts_of_app.
    cbn. rewrite !app_nil_r. exact Hal.
Qed.

(** C1 at work: a target that has failed its three retries, probed while
    every request is refused. *)
Lemma performCheck_follows_table_witness :
  monitors (Scenario.db Scenario.flaky) !! monitor_id Scenario.flaky
  = Some Scenario.flaky
  /\ exists result s1 s',
       probe Scenario.flaky Scenario.refusing
             (after_reading (Scenario.db Scenario.flaky)) = (Normal result, s1)
       /\ performCheck Scenario.flaky Scenario.bare Scenario.refusing
                       (Scenario.db Scenario.flaky) = (Normal tt, s')
       /\ forall st rc alert,
            table (status Scenario.flaky) (retry_count Scenario.flaky)
                  (res_isFail result) = Some (st, rc, alert) ->
            stored_state (monitor_id Scenario.flaky) s' = Some (st, rc)
            /\ dispatched alert Scenario.flaky (res_reason result)
                 (clock Scenario.refusing (ticks s1)
                  - clock Scenario.refusing (ticks (Scenario.db Scenario.flaky)))
                 (alerts_of (trace (Scenario.db Scenario.flaky)))
                 (alerts_of (trace s')).
Proof.
  split; [reflexivity|].
  exact (performCheck_follows_table Scenario.bare Scenario.flaky
           Scenario.refusing (Scenario.db Scenario.flaky) Scenario.flaky eq_refl).
Defined.

(** The fourth failure in a row: the target goes DOWN, keeps its count of 3,
    and one alert leaves, carrying the failure reason. *)
Example fourth_failure_goes_down :
  let s' := (performCheck Scenario.flaky Scenario.bare Scenario.refusing
                          (Scenario.db Scenario.flaky)).2 in
  stored_state 1 s' = Some ("DOWN", 3)
  /\ content <$> alerts_of (trace s') =
     [content (alert_payload Scenario.flaky (pretty (Scenario.seconds 3))
                 "Monitor is DOWN: connection refused")].
Proof. vm_compute. split; reflexivity. Qed.

(** The scenario of section 8: a target in UP whose probe is answered with a
    500 ends in RETRYING with one retry counted, one log entry and no alert. *)
Example http_500_scenario :
  let s' := (performCheck Scenario.site Scenario.bare Scenario.failing
                          (Scenario.db Scenario.site)).2 in
  stored_state 1 s' = Some ("RETRYING", 1)
  /\ logs s' = [mkLog 1 500 1000 1 "HTTP 500"]
  /\ alerts_of (trace s') = [].
Proof. vm_compute. repeat split; reflexivity. Qed.

(** ** The metadata refresh *)

(** The refresh is queued exactly when the response has a success status:
    neither the time of the last refresh nor the verdict of the keyword
    check has a say. *)
Lemma probe_queues_refresh (m : Monitor) (w : World) (s : Sys) :
  pending (probe m w s).2 =
  pending s ++ match net w (probe_request m) with
               | Resolved r => if resp_ok r then [ResolveInfo m] else []
               | Rejected _ => []
               end.
Proof.
  unfold probe, refresh_info. run_cbn.
  destruct (net w (probe_request m)) as [e | r]; run_cbn.
  - now rewrite app_nil_r.
  - destruct (resp_ok r); cbn [negb]; run_cbn; [|now rewrite app_nil_r].
    destruct (Js.truthy_string (keyword m)); run_cbn; [|reflexivity].
    destruct (resp_text r) as [body | e]; run_cbn; [|reflexivity].
    destruct (negb _); reflexivity.
Qed.

(** C2, on the code: one hour after the last refresh, a successful probe
    stamps [check_info_status] again and queues the resolver, although the
    24-hour cooldown has not elapsed. *)
Theorem refresh_ignores_cooldown :
  let w := Scenario.healthy in
  let m := Scenario.fresh in
  let s' := (performCheck m Scenario.bare w (Scenario.db m)).2 in
  check_info_status m = Some (clock w 0 - 3600000)
  /\ clock w 1 - (clock w 0 - 3600000) <= 86400000
  /\ logs s' = [mkLog 1 200 2000 0 ""]
  /\ pending s' = [ResolveInfo m]
  /\ check_info_status <$> monitors s' !! 1 = Some (Some (clock w 1)).
Proof. vm_compute. repeat split; try reflexivity. discriminate. Qed.

(** The refresh is decided before the keyword check: a probe that fails for
    a missing keyword has queued the resolver all the same. *)
Example refresh_precedes_keyword_check :
  let w := Scenario.healthy in
  let m := Scenario.picky in
  let s' := (performCheck m Scenario.bare w (Scenario.db m)).2 in
  is_fail <$> logs s' = [1]
  /\ stored_state 1 s' = Some ("RETRYING", 1)
  /\ pending s' = [ResolveInfo m].
Proof. vm_compute. repeat split; reflexivity. Qed.

(** The queued resolver changes neither the log nor any target's status and
    retry count. *)
Lemma settle_keeps_outcome env (w : World) (s : Sys) :
  same_logs s (settle env w s).2 /\ same_states s (settle env w s).2.
Proof. split; apply quiet_settle; typeclasses eauto. Qed.

(** ** Deadlines *)

Ltac frame :=
  repeat first
    [ progress intros
    | progress cbv beta iota
    | typeclasses eauto
    | apply keeps_ret | apply keeps_throw | apply keeps_ask
    | apply keeps_hostname | apply keeps_text | apply keeps_JSON_parse
    | apply keeps_json
    | apply quiet_date | apply quiet_info | apply quiet_expiry
    | apply passive_fetch; reflexivity
    | apply quiet_probe | apply quiet_settle
    | solve [auto]
    | apply keeps_bind | apply keeps_try
    | match goal with
      | |- keeps _ (if ?b then _ else _) => destruct b
      | |- keeps _ (match ?x with _ => _ end) => destruct x
      end ].

Lemma unbounded_advance env (m : Monitor) (isFail : bool) (why : string)
    (latency : Z) :
  keeps (grows_by unbounded) (advance env m isFail why latency).
Proof.
  intros w s.
  destruct (advance_effect env m isFail why latency w s)
    as (next & s' & Hrun & _ & _ & _ & Hg & _).
  rewrite Hrun. exact Hg.
Qed.

Lemma unbounded_performCheck (m : Monitor) env :
  keeps (grows_by unbounded) (performCheck m env).
Proof.
  pose proof unbounded_advance. unfold performCheck. frame.
  all: apply grows_run; exact I.
Qed.

Lemma unbounded_select : keeps (grows_by unbounded) select_monitors.
Proof.
  intros w s. exists [Ran SelectMonitors].
  split; [reflexivity | repeat constructor].
Qed.

Lemma unbounded_checkSite env (now : Z) (m : Monitor) :
  keeps (grows_by unbounded) (checkSite env now m).
Proof.
  unfold checkSite.
  destruct (isTimeToCheck m now); [apply unbounded_performCheck | frame].
Qed.

Lemma unbounded_checkSites env : keeps (grows_by unbounded) (checkSites env).
Proof.
  unfold checkSites.
  apply keeps_bind; [typeclasses eauto .. | apply grows_date_now |].
  intros now. apply keeps_bind; [typeclasses eauto .. | apply unbounded_select |].
  intros results. apply keeps_each; [typeclasses eauto .. |].
  apply unbounded_checkSite.
Qed.

(** C4, as stated, fails: the request the probe makes carries no deadline. *)
Lemma probe_request_has_no_deadline :
  ~ (forall m : Monitor, exists timeout, req_signal (probe_request m) = Some timeout).
Proof. intros H. destruct (H Scenario.site) as [t Ht]. discriminate Ht. Qed.

(** C4, amended: no request made during a run of the scheduled handler or by
    the continuations it leaves behind (probe, alert POST, certificate and
    RDAP lookups) carries a deadline; each is bounded only by what the
    platform does to a [fetch] on its own. *)
Theorem requests_carry_no_deadline env (w : World) (s : Sys) :
  grows_by unbounded s (checkSites env w s).2
  /\ grows_by unbounded s (settle env w s).2.
Proof.
  split; [apply unbounded_checkSites | apply quiet_settle; typeclasses eauto].
Qed.

(** ** The invariant of the state machine *)

Lemma table_keeps_ok (st : string) (rc : Z) (failed : bool) :
  state_ok st rc ->
  exists st' rc' alert,
    table st rc failed = Some (st', rc', alert) /\ state_ok st' rc'.
Proof.
  unfold state_ok, table.
  intros [[-> ->] | [[-> Hrc] | [-> ->]]]; cbn; destruct failed.
  - eexists _, _, _. split; [reflexivity|]. right; left. split; [reflexivity | lia].
  - eexists _, _, _. split; [reflexivity|]. left. split; reflexivity.
  - destruct (rc <? 3) eqn:Hlt.
    + apply Z.ltb_lt in Hlt. eexists _, _, _. split; [reflexivity|].
      right; left. split; [reflexivity | lia].
    + apply Z.ltb_ge in Hlt. assert (rc = 3) as -> by lia.
      eexists _, _, _. split; [reflexivity|]. right; right. split; reflexivity.
  - eexists _, _, _. split; [reflexivity|]. left. split; reflexivity.
  - eexists _, _, _. split; [reflexivity|]. right; right. split; reflexivity.
  - eexists _, _, _. split; [reflexivity|]. left. split; reflexivity.
Qed.

Lemma rows_ok_same_states (s s' : Sys) :
  same_states s s' -> rows_ok s -> rows_ok s'.
Proof.
  intros Hsame Hok id row Hrow. specialize (Hsame id).
  unfold stored_state in Hsame. rewrite Hrow in Hsame.
  destruct (monitors s !! id) as [row0|] eqn:E; [|discriminate Hsame].
  cbn in Hsame. injection Hsame as Hst Hrc.
  specialize (Hok id row0 E). unfold kept_invariant in *. now rewrite Hst, Hrc.
Qed.

Lemma performCheck_rows_ok env (m : Monitor) (w : World) (s : Sys) :
  kept_invariant m -> rows_ok s -> rows_ok (performCheck m env w s).2.
Proof.
  intros Hm Hok.
  destruct (performCheck_effect env m w s)
    as (result & s1 & next & s2 & Hprobe & Hadv & ->).
  pose proof (quiet_probe same_states m w (after_reading s)) as Hst.
  rewrite Hprobe in Hst. cbn [snd] in Hst.
  destruct (advance_effect env m (res_isFail result) (res_reason result)
              (clock w (ticks s1) - clock w (ticks s)) w (after_reading s1))
    as (next' & s2' & Hadv' & Hm2 & _ & _ & _ & Htable).
  rewrite Hadv in Hadv'. injection Hadv' as <- <-.
  destruct (table_keeps_ok _ _ (res_isFail result) Hm) as (st & rc & alert & Ht & Hnew).
  destruct (Htable st rc alert Ht) as [-> _].
  assert (Hok1 : rows_ok s1) by (apply (rows_ok_same_states (after_reading s)); assumption).
  intros id row. cbn [snd apply_sql record monitors after_reading fst].
  rewrite Hm2. cbn [after_reading monitors]. rewrite lookup_alter.
  case_decide.
  - destruct (monitors s1 !! monitor_id m); cbn; [|discriminate].
    intros [= <-]. exact Hnew.
  - apply Hok1.
Qed.

Lemma each_checkSite_rows_ok env (now : Z) (w : World) (l : list Monitor) :
  Forall kept_invariant l ->
  forall s, rows_ok s -> rows_ok (each (checkSite env now) l w s).2.
Proof.
  induction 1 as [|m l Hm _ IH]; intros s Hok; [exact Hok|].
  cbn [each]. cbv [mbind M_bind].
  assert (Hstep : rows_ok (checkSite env now m w s).2).
  { unfold checkSite. destruct (isTimeToCheck m now); [|exact Hok].
    now apply performCheck_rows_ok. }
  destruct (checkSite env now m w s) as [[[] | e] s1]; cbn [snd] in *.
  - now apply IH.
  - exact Hstep.
Qed.

Lemma insert_sorted_Permutation {A} (compare : A -> A -> Z) (x : A) (l : list A) :
  insert_sorted compare x l ≡ₚ x :: l.
Proof.
  induction l as [|y l IH]; cbn [insert_sorted]; [reflexivity|].
  destruct (compare x y <=? 0); [reflexivity|].
  rewrite IH. apply Permutation_swap.
Qed.

Lemma sort_Permutation {A} (compare : A -> A -> Z) (l : list A) :
  sort compare l ≡ₚ l.
Proof.
  induction l as [|x l IH]; cbn [sort]; [reflexivity|].
  now rewrite insert_sorted_Permutation, IH.
Qed.

(** The result set holds the rows of the table, each once. *)
Lemma result_set_spec (s : Sys) (m : Monitor) :
  m ∈ result_set s <-> exists id, monitors s !! id = Some m.
Proof.
  unfold result_set. rewrite list_elem_of_fmap. split.
  - intros [[id row] [-> Hin]]. rewrite sort_Permutation in Hin.
    apply elem_of_map_to_list in Hin. now exists id.
  - intros [id Hin]. exists (id, m). split; [reflexivity|].
    rewrite sort_Permutation. now apply elem_of_map_to_list.
Qed.

(** Two targets stored under the ids 7 and 1 are selected as 1, then 7. *)
Example result_set_by_id :
  map monitor_id
      (result_set (mkSys (<[7 := Scenario.unpaced]> {[1 := Scenario.site]})
                         [] 0 [] []))
  = [1; 7].
Proof. reflexivity. Qed.

Lemma checkSites_rows_ok env (w : World) (s : Sys) :
  rows_ok s -> rows_ok (checkSites env w s).2.
Proof.
  intros Hok. unfold checkSites, select_monitors. run_cbn.
  apply each_checkSite_rows_ok; [|exact Hok].
  apply Forall_forall. intros m Hin.
  apply (result_set_spec (after_reading s)) in Hin as [id Hin].
  exact (Hok id m Hin).
Qed.

Lemma settle_rows_ok env (w : World) (s : Sys) :
  rows_ok s -> rows_ok (settle env w s).2.
Proof. apply rows_ok_same_states, quiet_settle. typeclasses eauto. Qed.

Lemma started_up_rows_ok (s0 : Sys) :
  (forall id row, monitors s0 !! id = Some row ->
                  status row = "UP" /\ retry_count row = 0) ->
  rows_ok s0.
Proof. intros H id row Hrow. left. exact (H id row Hrow). Qed.

(** C3, amended: in every state reached from targets that start in UP with
    a retry count of 0, a target in UP has retry count 0, a target in
    RETRYING has a retry count between 1 and 3, and a target in DOWN keeps
    the count of 3 it went down with. *)
Theorem reachable_keeps_invariant env (s0 s : Sys) :
  (forall id row, monitors s0 !! id = Some row ->
                  status row = "UP" /\ retry_count row = 0) ->
  reachable env s0 s ->
  forall id row,
    monitors s !! id = Some row ->
    (status row = "UP" /\ retry_count row = 0)
    \/ (status row = "RETRYING" /\ 1 <= retry_count row <= 3)
    \/ (status row = "DOWN" /\ retry_count row = 3).
Proof.
  intros Hstart Hreach. change (rows_ok s).
  induction Hreach as [|w s s' c _ IH Hrun|w s s' c _ IH Hrun].
  - now apply started_up_rows_ok.
  - replace s' with (checkSites env w s).2 by now rewrite Hrun.
    now apply checkSites_rows_ok.
  - replace s' with (settle env w s).2 by now rewrite Hrun.
    now apply settle_rows_ok.
Qed.

Lemma site_starts_up :
  forall id row, monitors (Scenario.db Scenario.site) !! id = Some row ->
                 status row = "UP" /\ retry_count row = 0.
Proof.
  intros id row H. unfold Scenario.db in H. cbn [monitors] in H.
  apply lookup_singleton_Some in H as [_ <-]. split; reflexivity.
Qed.

Lemma four_failures_reachable :
  reachable Scenario.bare (Scenario.db Scenario.site) Scenario.four_failures.
Proof.
  unfold Scenario.four_failures. cbn [Nat.iter].
  repeat (eapply reach_tick; [|apply surjective_pairing]).
  apply reach_start.
Qed.

Lemma four_failures_row :
  exists row,
    monitors Scenario.four_failures !! 1 = Some row
    /\ status row = "DOWN" /\ retry_count row = 3.
Proof. vm_compute. eexists. repeat split. Qed.

(** C3, as stated, fails: after four failed checks in a row a target is in
    DOWN with a retry count of 3, not 0. *)
Lemma down_keeps_its_retry_count :
  ~ (forall env (s0 s : Sys),
        (forall id row, monitors s0 !! id = Some row ->
                        status row = "UP" /\ retry_count row = 0) ->
        reachable env s0 s ->
        forall id row, monitors s !! id = Some row -> stated_invariant row).
Proof.
  intros H. destruct four_failures_row as (row & Hrow & Hst & Hrc).
  destruct (H Scenario.bare _ _ site_starts_up four_failures_reachable 1 row Hrow)
    as [_ Hnonzero].
  rewrite Hst, Hrc in Hnonzero. discriminate Hnonzero. discriminate.
Qed.

(** C3 at work: the state after four failed checks of a target that started
    in UP. *)
Lemma reachable_keeps_invariant_witness :
  (forall id row, monitors (Scenario.db Scenario.site) !! id = Some row ->
                  status row = "UP" /\ retry_count row = 0)
  /\ reachable Scenario.bare (Scenario.db Scenario.site) Scenario.four_failures
  /\ forall id row,
       monitors Scenario.four_failures !! id = Some row ->
       (status row = "UP" /\ retry_count row = 0)
       \/ (status row = "RETRYING" /\ 1 <= retry_count row <= 3)
       \/ (status row = "DOWN" /\ retry_count row = 3).
Proof.
  split; [exact site_starts_up|]. split; [exact four_failures_reachable|].
  exact (reachable_keeps_invariant Scenario.bare (Scenario.db Scenario.site)
           Scenario.four_failures site_starts_up four_failures_reachable).
Defined.

(** ** The signature *)

(** The code's [signEncoded] is the documented pipeline. *)
Lemma signEncoded_documented (secret : string) (timestamp : Z) :
  signEncoded secret timestamp = documented_sign secret timestamp.
Proof. reflexivity. Qed.

(** C9: the one request [sendDingTalkAlert] makes is a POST to the webhook
    address followed by the query parameters [access_token], [timestamp] and
    [sign], where [timestamp] is the clock reading taken on entry and [sign]
    is the documented pipeline (HMAC-SHA256 keyed by the secret, over the
    timestamp, a line feed and the secret; Base64; percent-encoding) applied
    to that timestamp and the secret in use: a function of the two alone. *)
Theorem sendDingTalkAlert_signs env (m : Monitor) (msg : string) (w : World)
    (s : Sys) :
  exists result s' payload,
    sendDingTalkAlert env m msg w s = (Normal result, s')
    /\ trace s' = trace s ++
         [Fetched
            (mkRequest
               ("https://oapi.dingtalk.com/robot/send?access_token="
                +:+ Js.or_string (DINGTALK_ACCESS_TOKEN env) fallback_access_token
                +:+ "&timestamp=" +:+ pretty (clock w (ticks s))
                +:+ "&sign="
                +:+ documented_sign
                      (Js.or_string (DINGTALK_SECRET env) fallback_secret)
                      (clock w (ticks s)))
               (Some "POST") [("Content-Type", "application/json")]
               (Some payload) None None)].
Proof.
  destruct (sendDingTalkAlert_effect env m msg w s)
    as (result & s' & Hrun & _ & _ & _ & _ & Ht).
  exists result, s'. eexists. split; [exact Hrun|]. exact Ht.
Qed.

(** The hash is the standard one: the digest of [abc] (FIPS 180-4) and the
    second test case of RFC 4231. *)
Example sha256_abc :
  Sha256.hex (map Sha256.byte_of_number
                (Sha256.digest (map Sha256.number_of_byte (Encoding.encode "abc"))))
  = "ba7816bf8f01cfea414140de5dae2223b00361a396177a9cb410ff61f20015ad".
Proof. vm_compute. reflexivity. Qed.

Example hmac_rfc4231_case_2 :
  Sha256.hex (Sha256.hmac (Encoding.encode "Jefe")
                          (Encoding.encode "what do ya want for nothing?"))
  = "5bdcc146bf60754e6a042426089575c75a003f089d2739839dec58b964ec3843".
Proof. vm_compute. reflexivity. Qed.

(** The signature of the built-in secret at one instant, as the pipeline
    computes it. *)
Example sign_of_the_fallback_secret :
  documented_sign fallback_secret 1700000000000
  = "jcNCOj3twQWgJbuOnubbPhcYWO0ywRQ8DuE%2BaUqYThU%3D".
Proof. vm_compute. reflexivity. Qed.

(** Two secrets that differ in their one byte sign the same instant
    differently. *)
Example sign_depends_on_the_secret :
  documented_sign "k" 1700000000000
  = "Bcn500Tba9UiPHDHMDlxTPgQQPPvlJXhBvtfJKCDc7E%3D"
  /\ documented_sign "j" 1700000000000
     = "EjFreMGFkYa1AH1fj1tEZDeMov4tdIz9xeIfIEN%2BNMY%3D".
Proof. vm_compute. split; reflexivity. Qed.

(** ** The certificate cascade *)

Lemma fetchCerts_returns (q : string) (w : World) (s : Sys) :
  exists j, fetchCerts q w s = (Normal j, record (Fetched (crt_request q)) s).
Proof.
  unfold fetchCerts. run_cbn.
  destruct (net w (crt_request q)) as [e | r]; run_cbn; [now eexists|].
  destruct (resp_ok r); cbn [negb]; run_cbn; [|now eexists].
  destruct (resp_text r) as [body | e]; run_cbn; [|now eexists].
  destruct (resp_parsed r); run_cbn; now eexists.
Qed.




(** What [fetchCerts] returns is the document crt.sh answered, or the empty
    array when there is none. *)
Lemma fetchCerts_document (q : string) (w : World) (s : Sys) :
  fetchCerts q w s
  = (Normal (default (JCerts []) (crt_document w q)),
     record (Fetched (crt_request q)) s).
Proof.
  unfold fetchCerts, crt_document. run_cbn.
  destruct (net w (crt_request q)) as [e | r]; run_cbn; [reflexivity|].
  destruct (resp_ok r); cbn [negb]; run_cbn; [|reflexivity].
  destruct (resp_text r) as [body | e]; run_cbn; [|reflexivity].
  destruct (resp_parsed r); reflexivity.
Qed.









(** The same example, computed: three records are gathered and the latest
    of the three dates is selected. *)
Example cascade_of_three :
  (gather "sub.example.com" Scenario.transparency (Scenario.db Scenario.site)).1
  = Normal (JCerts [mkCert 1735689600000 "example.com";
                    mkCert 1767225600000 "www.example.com";
                    mkCert 1751328000000 "*.example.com"])
  /\ (lookup_cert "sub.example.com" Scenario.transparency
                  (Scenario.db Scenario.site)).1
     = Normal (Some 1767225600000).
Proof. split; reflexivity. Qed.

(** With [null] for the root domain the lookup comes back empty after two
    queries, although the wildcard form holds a record. *)
Example cascade_cut_short :
  let end_ := lookup_cert "sub.example.com" Scenario.nulled
                          (Scenario.db Scenario.site) in
  end_.1 = Normal None
  /\ trace end_.2 = [Fetched (crt_request "sub.example.com");
                     Fetched (crt_request "example.com")]
  /\ crt_records Scenario.nulled "%.example.com"
     = [mkCert 1751328000000 "*.example.com"].
Proof. vm_compute. repeat split; reflexivity. Qed.

(** ** The resolver *)

Lemma lookup_cert_returns (d : string) (w : World) (s : Sys) :
  exists c s1, lookup_cert d w s = (Normal c, s1) /\ untouched s s1.
Proof.
  pose proof (passive_lookup_cert untouched d w s) as Hu.
  unfold lookup_cert in *. cbv [try_catch] in *.
  destruct ((gather d ≫= latest) w s) as [[c | e] s1]; cbn [snd] in Hu.
  - now exists c, s1.
  - now exists None, s1.
Qed.

Lemma lookup_domain_returns (d : string) (w : World) (s : Sys) :
  exists x s1, lookup_domain d w s = (Normal x, s1) /\ untouched s s1.
Proof.
  pose proof (passive_lookup_domain untouched d w s) as Hu.
  unfold lookup_domain in *. cbv [try_catch] in *.
  match goal with
  | |- context [match ?body w s with _ => _ end] =>
      destruct (body w s) as [[x | e] s1]
  end; cbn [snd] in Hu.
  - now exists x, s1.
  - now exists None, s1.
Qed.

(** [updateDomainCertInfo] in one piece: it returns normally; it sends its
    one statement, with both values bound, exactly when one of the two
    lookups found something; it sends nothing else to the database. *)
Lemma updateDomainCertInfo_effect env (m : Monitor) (w : World) (s : Sys) :
  exists s',
    updateDomainCertInfo env m w s = (Normal tt, s')
    /\ logs s' = logs s
    /\ match found m w s with
       | (None, None) =>
           monitors s' = monitors s
           /\ statements_of (trace s') = statements_of (trace s)
       | (c, d) =>
           monitors s' = alter (set_expiry c d) (monitor_id m) (monitors s)
           /\ statements_of (trace s')
              = statements_of (trace s) ++ [UpdateExpiry c d (monitor_id m)]
       end.
Proof.
  unfold updateDomainCertInfo, found.
  cbv [try_catch mbind M_bind hostname mret M_ret].
  destruct (url_hostname w (url m)) as [domain|].
  2:{ exists s. repeat split. }
  destruct (lookup_cert_returns domain w s) as (c & s1 & -> & U1).
  destruct (lookup_domain_returns domain w s1) as (d & s2 & -> & U2).
  destruct U1 as (M1 & L1 & _ & _ & T1). destruct U2 as (M2 & L2 & _ & _ & T2).
  assert (Hwrite :
    exists s',
      run (UpdateExpiry c d (monitor_id m)) w s2 = (Normal tt, s')
      /\ logs s' = logs s
      /\ monitors s' = alter (set_expiry c d) (monitor_id m) (monitors s)
      /\ statements_of (trace s')
         = statements_of (trace s) ++ [UpdateExpiry c d (monitor_id m)]).
  { eexists. split; [reflexivity|]. cbn [apply_sql record logs monitors trace].
    rewrite statements_of_app. cbn. repeat split; congruence. }
  destruct Hwrite as (s' & Hrun & HL & HM & HT).
  destruct c as [c|], d as [d|]; cbn [Js.truthy_date orb];
    try (rewrite Hrun; exists s'; repeat split; assumption).
  exists s2. repeat split; congruence.
Qed.

(** A lookup that only meets fruitless requests finds nothing. *)
Lemma fetchCerts_fruitless (q : string) (w : World) (s : Sys) :
  fruitless (net w (crt_request q)) ->
  fetchCerts q w s = (Normal (JCerts []), record (Fetched (crt_request q)) s).
Proof.
  unfold fetchCerts, fruitless. run_cbn.
  destruct (net w (crt_request q)) as [e | r]; run_cbn; [reflexivity|].
  intros [H | [[e H] | H]].
  - now rewrite H.
  - destruct (resp_ok r); cbn [negb]; run_cbn; [|reflexivity]. now rewrite H.
  - destruct (resp_ok r); cbn [negb]; run_cbn; [|reflexivity].
    destruct (resp_text r); run_cbn; [|reflexivity]. now rewrite H.
Qed.

Lemma lookup_cert_fruitless (d : string) (w : World) (s : Sys) :
  (forall req, fruitless (net w req)) -> (lookup_cert d w s).1 = Normal None.
Proof.
  intros Hw. unfold lookup_cert, gather. cbv [try_catch mbind M_bind].
  rewrite fetchCerts_fruitless by apply Hw. cbn [is_empty_array andb].
  destruct (2 <? _).
  - rewrite fetchCerts_fruitless by apply Hw. cbv [length_positive mret M_ret].
    rewrite fetchCerts_fruitless by apply Hw. reflexivity.
  - reflexivity.
Qed.

Lemma lookup_domain_fruitless (d : string) (w : World) (s : Sys) :
  (forall req, fruitless (net w req)) -> (lookup_domain d w s).1 = Normal None.
Proof.
  intros Hw. specialize (Hw (rdap_request d)).
  unfold lookup_domain, fruitless in *. run_cbn.
  destruct (net w (rdap_request d)) as [e | r]; run_cbn; [reflexivity|].
  destruct Hw as [H | [[e H] | H]].
  - now rewrite H.
  - destruct (resp_ok r); run_cbn; [|reflexivity]. now rewrite H.
  - destruct (resp_ok r); run_cbn; [|reflexivity].
    destruct (resp_text r); run_cbn; [|reflexivity]. now rewrite H.
Qed.

Lemma found_nothing (m : Monitor) (w : World) (s : Sys) :
  url_hostname w (url m) = None \/ (forall req, fruitless (net w req)) ->
  found m w s = (None, None).
Proof.
  unfold found. cbv [mbind M_bind hostname mret M_ret].
  intros [-> | Hw]; [reflexivity|].
  destruct (url_hostname w (url m)) as [domain|]; [|reflexivity].
  pose proof (lookup_cert_fruitless domain w s Hw) as Hc.
  destruct (lookup_cert domain w s) as [c s1]. cbn [fst] in Hc. subst c.
  pose proof (lookup_domain_fruitless domain w s1 Hw) as Hd.
  destruct (lookup_domain domain w s1) as [x s2]. cbn [fst] in Hd. subst x.
  reflexivity.
Qed.

(** C8, as stated, fails: a target has both dates stored; crt.sh finds a
    certificate through the cascade while RDAP answers 404.  A lookup has
    failed, yet the one statement is sent and puts null over the stored
    domain expiry. *)
Lemma failed_lookup_overwrites : ~ kept_on_failure.
Proof.
  intros H.
  destruct (H Scenario.bare Scenario.dated Scenario.transparency
              (Scenario.db Scenario.dated) "sub.example.com" Scenario.dated
              eq_refl) as (row' & Hrow & _ & Hdom).
  - right. left. reflexivity.
  - reflexivity.
  - vm_compute in Hrow. injection Hrow as <-. discriminate Hdom.
Qed.

(** C8, amended: [updateDomainCertInfo] never raises; it writes to the
    database exactly when a certificate expiry or a domain expiry was found,
    and then with one statement, which sets both columns to what was found
    (null for the one that was not).  The stored [cert_expiry] and
    [domain_expiry] are left as they were only when neither was found, as
    when the target's URL does not parse or every lookup fails (rejected
    request, non-success status, unreadable or non-JSON body); the failure
    of one lookup beside the success of the other does not keep them. *)
Theorem updateDomainCertInfo_writes_when_found env (m : Monitor) (w : World)
    (s : Sys) :
  exists s',
    updateDomainCertInfo env m w s = (Normal tt, s')
    /\ statements_of (trace s')
       = statements_of (trace s)
         ++ match found m w s with
            | (None, None) => []
            | (c, d) => [UpdateExpiry c d (monitor_id m)]
            end
    /\ (found m w s = (None, None) -> monitors s' = monitors s)
    /\ (url_hostname w (url m) = None \/ (forall req, fruitless (net w req)) ->
        monitors s' = monitors s)
    /\ (found m w s <> (None, None) ->
        monitors s'
        = alter (set_expiry (found m w s).1 (found m w s).2) (monitor_id m)
                (monitors s)).
Proof.
  destruct (updateDomainCertInfo_effect env m w s) as (s' & Hrun & _ & H).
  exists s'. split; [exact Hrun|].
  pose proof (found_nothing m w s) as Hnone.
  destruct (found m w s) as [[c|] [d|]]; destruct H as [HM HT];
    (split; [rewrite ?app_nil_r; exact HT|]);
    (split; [try discriminate; intros _; exact HM|]);
    (split; [first [intros Hfail; discriminate (Hnone Hfail) | intros _; exact HM]|]);
    first [intros _; exact HM | intros Hne; now contradiction Hne].
Qed.

(** C10: when exactly one of the two values was found, the statement sets
    both columns: the one that was not found is stored as null over whatever
    the row held; the row is left as it was only when neither was found. *)
Theorem updateDomainCertInfo_overwrites_both env (m : Monitor) (w : World)
    (s : Sys) (row : Monitor) :
  monitors s !! monitor_id m = Some row ->
  exists s',
    updateDomainCertInfo env m w s = (Normal tt, s')
    /\ (forall c, found m w s = (Some c, None) ->
          exists row', monitors s' !! monitor_id m = Some row'
                       /\ cert_expiry row' = Some c
                       /\ domain_expiry row' = None)
    /\ (forall d, found m w s = (None, Some d) ->
          exists row', monitors s' !! monitor_id m = Some row'
                       /\ cert_expiry row' = None
                       /\ domain_expiry row' = Some d)
    /\ (found m w s = (None, None) -> monitors s' !! monitor_id m = Some row).
Proof.
  intros Hrow.
  destruct (updateDomainCertInfo_effect env m w s) as (s' & Hrun & _ & H).
  exists s'. split; [exact Hrun|].
  destruct (found m w s) as [[c|] [d|]]; destruct H as [HM _];
    repeat split; intros; simplify_eq;
    rewrite HM, ?lookup_alter_eq, ?Hrow; cbn; eauto.
Qed.

(** C10 at work: a target with both dates stored, refreshed while crt.sh
    answers and RDAP does not. *)
Lemma updateDomainCertInfo_overwrites_both_witness :
  monitors (Scenario.db Scenario.dated) !! monitor_id Scenario.dated
  = Some Scenario.dated
  /\ exists s',
       updateDomainCertInfo Scenario.bare Scenario.dated Scenario.transparency
                            (Scenario.db Scenario.dated) = (Normal tt, s')
       /\ (forall c,
             found Scenario.dated Scenario.transparency (Scenario.db Scenario.dated)
             = (Some c, None) ->
             exists row', monitors s' !! monitor_id Scenario.dated = Some row'
                          /\ cert_expiry row' = Some c
                          /\ domain_expiry row' = None)
       /\ (forall d,
             found Scenario.dated Scenario.transparency (Scenario.db Scenario.dated)
             = (None, Some d) ->
             exists row', monitors s' !! monitor_id Scenario.dated = Some row'
                          /\ cert_expiry row' = None
                          /\ domain_expiry row' = Some d)
       /\ (found Scenario.dated Scenario.transparency (Scenario.db Scenario.dated)
           = (None, None) ->
           monitors s' !! monitor_id Scenario.dated = Some Scenario.dated).
Proof.
  split; [reflexivity|].
  exact (updateDomainCertInfo_overwrites_both Scenario.bare Scenario.dated
           Scenario.transparency (Scenario.db Scenario.dated) Scenario.dated
           eq_refl).
Defined.

(** A certificate is found through the cascade while RDAP answers 404: the
    domain expiry stored by an earlier refresh is replaced by null. *)
Example domain_expiry_lost :
  let s' := (updateDomainCertInfo Scenario.bare Scenario.dated
               Scenario.transparency (Scenario.db Scenario.dated)).2 in
  found Scenario.dated Scenario.transparency (Scenario.db Scenario.dated)
  = (Some 1767225600000, None)
  /\ domain_expiry Scenario.dated = Some 1800000000000
  /\ domain_expiry <$> monitors s' !! 1 = Some None
  /\ cert_expiry <$> monitors s' !! 1 = Some (Some 1767225600000).
Proof. vm_compute. repeat split; reflexivity. Qed.

(** Nothing is found when every request is refused: the row keeps both
    dates. *)
Example nothing_found_nothing_written :
  let s' := (updateDomainCertInfo Scenario.bare Scenario.dated
               Scenario.refusing (Scenario.db Scenario.dated)).2 in
  found Scenario.dated Scenario.refusing (Scenario.db Scenario.dated)
  = (None, None)
  /\ monitors s' !! 1 = Some Scenario.dated
  /\ statements_of (trace s') = [].
Proof. vm_compute. repeat split; reflexivity. Qed.
(** * Further properties of the code *)

(** ** The root domain queried by the resolver *)

Lemma rev_app_append (a b s : string) :
  String.rev_app a b +:+ s = String.rev_app a (b +:+ s).
Proof.
  revert b. induction a as [|c a IH]; intros b; cbn; [reflexivity|].
  now rewrite IH.
Qed.

Lemma split_dot_go_nonempty (cur s : string) : Js.split_dot_go cur s <> [].
Proof.
  revert cur. induction s as [|c s IH]; intros cur; cbn; [discriminate|].
  destruct (Ascii.eqb c "."); [discriminate | apply IH].
Qed.

Lemma join_dot_cons (p : string) (rest : list string) :
  rest <> [] -> Js.join_dot (p :: rest) = p +:+ "." +:+ Js.join_dot rest.
Proof. destruct rest; [contradiction | reflexivity]. Qed.

Lemma append_assoc (a b c : string) : (a +:+ b) +:+ c = a +:+ (b +:+ c).
Proof.
  induction a as [|x a IH]; [reflexivity|]. rewrite !append_cons. now rewrite IH.
Qed.

Lemma append_nil_r (a : string) : a +:+ "" = a.
Proof.
  induction a as [|x a IH]; [reflexivity|]. rewrite append_cons. now rewrite IH.
Qed.

Lemma join_split_go (cur s : string) :
  Js.join_dot (Js.split_dot_go cur s) = String.rev cur +:+ s.
Proof.
  revert cur. induction s as [|c s IH]; intros cur; cbn [Js.split_dot_go].
  - cbn. now rewrite append_nil_r.
  - destruct (Ascii.eqb c ".") eqn:E.
    + apply Ascii.eqb_eq in E as ->.
      rewrite join_dot_cons by apply split_dot_go_nonempty.
      rewrite IH. reflexivity.
    + rewrite IH. unfold String.rev. cbn [String.rev_app].
      rewrite rev_app_append. rewrite (rev_app_append cur "" (String c s)).
      reflexivity.
Qed.

(** Joining the pieces of a split gives the string back. *)
Lemma join_split (s : string) : Js.join_dot (Js.split_dot s) = s.
Proof. apply (join_split_go "" s). Qed.

Lemma join_dot_app (a b : list string) :
  a <> [] -> b <> [] ->
  Js.join_dot (a ++ b) = Js.join_dot a +:+ "." +:+ Js.join_dot b.
Proof.
  intros Ha Hb. induction a as [|p a IH]; [contradiction|].
  destruct a as [|q a].
  - cbn [app]. rewrite join_dot_cons by assumption. reflexivity.
  - change ((p :: q :: a) ++ b) with (p :: ((q :: a) ++ b)).
    rewrite join_dot_cons by discriminate.
    rewrite IH by discriminate.
    rewrite (join_dot_cons p (q :: a)) by discriminate.
    rewrite !append_assoc. reflexivity.
Qed.

Lemma chars_rev_app (a b : string) (x : ascii) :
  x ∈ chars (String.rev_app a b) <-> x ∈ chars a \/ x ∈ chars b.
Proof.
  revert b. induction a as [|c a IH]; intros b; cbn [String.rev_app chars].
  - split; [now right | intros [H|H]; [|exact H]]. now apply not_elem_of_nil in H.
  - rewrite IH. cbn [chars]. rewrite !elem_of_cons. tauto.
Qed.

Lemma chars_rev (cur : string) (x : ascii) :
  x ∉ chars cur -> x ∉ chars (String.rev cur).
Proof.
  intros H. unfold String.rev. rewrite chars_rev_app. intros [?|E]; [tauto|].
  cbn in E. now apply not_elem_of_nil in E.
Qed.

(** No piece of a split holds a dot. *)
Lemma split_dot_go_pieces (cur s p : string) :
  "."%char ∉ chars cur -> p ∈ Js.split_dot_go cur s -> "."%char ∉ chars p.
Proof.
  revert cur. induction s as [|c s IH]; intros cur Hcur; cbn [Js.split_dot_go].
  - intros ->%list_elem_of_singleton. now apply chars_rev.
  - destruct (Ascii.eqb c ".") eqn:E.
    + intros [->|Hp]%elem_of_cons.
      * now apply chars_rev.
      * apply (IH "" ); [cbn; apply not_elem_of_nil | exact Hp].
    + apply IH. cbn. apply not_elem_of_cons. split; [|exact Hcur].
      intros <-. now rewrite Ascii.eqb_refl in E.
Qed.

(** X1: for a hostname of more than two labels, the root domain the
    resolver queries next is made of the last two labels, which hold no dot,
    and the hostname ends with a dot followed by that root domain. *)
Theorem root_domain_is_suffix (domain : string) :
  (2 < length (Js.split_dot domain))%nat ->
  exists before l1 l2,
    Js.split_dot domain = before ++ [l1; l2]
    /\ before <> []
    /\ ("."%char ∉ chars l1) /\ ("."%char ∉ chars l2)
    /\ Js.join_dot (Js.slice_from (length (Js.split_dot domain) - 2)
                                  (Js.split_dot domain))
       = l1 +:+ "." +:+ l2
    /\ domain
       = Js.join_dot before +:+ "."
         +:+ Js.join_dot (Js.slice_from (length (Js.split_dot domain) - 2)
                                        (Js.split_dot domain)).
Proof.
  intros Hlen.
  pose proof (join_split domain) as Hjoin.
  assert (Hpieces : forall p, p ∈ Js.split_dot domain -> "."%char ∉ chars p).
  { intros p. apply split_dot_go_pieces. cbn. apply not_elem_of_nil. }
  set (parts := Js.split_dot domain) in *.
  unfold Js.slice_from.
  pose proof (take_drop (length parts - 2) parts) as Hsplit.
  assert (Hdrop : length (drop (length parts - 2) parts) = 2%nat)
    by (rewrite length_drop; lia).
  assert (Htake : length (take (length parts - 2) parts) <> 0%nat)
    by (rewrite length_take; lia).
  destruct (drop (length parts - 2) parts) as [|l1 [|l2 [|]]] eqn:Hd;
    cbn in Hdrop; try lia.
  exists (take (length parts - 2) parts), l1, l2.
  assert (Hne : take (length parts - 2) parts <> []).
  { intros E. rewrite E in Htake. now cbn in Htake. }
  split; [now rewrite Hsplit|]. split; [exact Hne|].
  split; [apply Hpieces; rewrite <- Hsplit; set_solver|].
  split; [apply Hpieces; rewrite <- Hsplit; set_solver|].
  split; [reflexivity|].
  rewrite <- Hjoin at 1. rewrite <- Hsplit at 1.
  now rewrite join_dot_app by (assumption || discriminate).
Qed.

Lemma root_domain_is_suffix_witness :
  exists before l1 l2,
    Js.split_dot "sub.example.com" = before ++ [l1; l2]
    /\ before <> []
    /\ ("."%char ∉ chars l1) /\ ("."%char ∉ chars l2)
    /\ Js.join_dot (Js.slice_from (length (Js.split_dot "sub.example.com") - 2)
                                  (Js.split_dot "sub.example.com"))
       = l1 +:+ "." +:+ l2
    /\ "sub.example.com"
       = Js.join_dot before +:+ "."
         +:+ Js.join_dot (Js.slice_from (length (Js.split_dot "sub.example.com") - 2)
                                        (Js.split_dot "sub.example.com")).
Proof. apply (root_domain_is_suffix "sub.example.com"). vm_compute. lia. Defined.

(** ** The signature in the webhook URL *)

Lemma below_forallb (f : N -> bool) (k : nat) :
  forallb (fun i => f (N.of_nat i)) (seq 0 k) = true ->
  forall n, (n < N.of_nat k)%N -> f n = true.
Proof.
  intros H n Hn. rewrite forallb_forall in H.
  rewrite <- (N2Nat.id n). apply H. apply in_seq. lia.
Qed.

Lemma string_ind3 (P : string -> Prop) :
  P "" ->
  (forall a, P (String a "")) ->
  (forall a b, P (String a (String b ""))) ->
  (forall a b c r, P r -> P (String a (String b (String c r)))) ->
  forall s, P s.
Proof.
  intros H0 H1 H2 H3 s.
  enough (P s /\ (forall a, P (String a s)) /\ (forall a b, P (String a (String b s))))
    by tauto.
  induction s as [|c s (IH0 & IH1 & IH2)]; [auto|].
  split; [apply IH1|]. split; [intros a; apply IH2|].
  intros a b. now apply H3.
Qed.

(** The Base64 digits are letters, digits, [+] and [/]. *)
Lemma b64_digit_alphabet (n : N) :
  alnum (Encoding.b64_digit n) || Ascii.eqb (Encoding.b64_digit n) "+"
  || Ascii.eqb (Encoding.b64_digit n) "/" = true.
Proof.
  destruct (N.ltb_spec n 64) as [Hn|Hn].
  - revert n Hn.
    apply (below_forallb
             (fun n => alnum (Encoding.b64_digit n)
                       || Ascii.eqb (Encoding.b64_digit n) "+"
                       || Ascii.eqb (Encoding.b64_digit n) "/") 64).
    vm_compute. reflexivity.
  - unfold Encoding.b64_digit.
    destruct (N.ltb_spec n 26); [lia|]. destruct (N.ltb_spec n 52); [lia|].
    destruct (N.ltb_spec n 62); [lia|]. destruct (N.eqb_spec n 62); [lia|].
    reflexivity.
Qed.

Lemma b64_digit_char (n : N) : b64_char (Encoding.b64_digit n).
Proof.
  pose proof (b64_digit_alphabet n) as H. unfold b64_char.
  apply orb_true_iff in H as [H|H]; [apply orb_true_iff in H as [H|H]|].
  - now left.
  - apply Ascii.eqb_eq in H. tauto.
  - apply Ascii.eqb_eq in H. tauto.
Qed.

Lemma btoa_alphabet (s : string) (c : ascii) :
  c ∈ chars (Encoding.btoa s) -> b64_char c.
Proof.
  revert c. induction s as [|x|x y|x y z r IH] using string_ind3; intros c;
    cbn [Encoding.btoa chars]; rewrite ?elem_of_cons.
  - now intros ?%not_elem_of_nil.
  - intros [->|[->|[->|[->|?%not_elem_of_nil]]]];
      try apply b64_digit_char; try (unfold b64_char; tauto); done.
  - intros [->|[->|[->|[->|?%not_elem_of_nil]]]];
      try apply b64_digit_char; try (unfold b64_char; tauto); done.
  - intros [->|[->|[->|[->|?]]]]; try apply b64_digit_char. now apply IH.
Qed.

Lemma alnum_unreserved (c : ascii) : alnum c = true -> Encoding.unreserved c = true.
Proof. unfold alnum, Encoding.unreserved. now intros ->. Qed.

Lemma encodeURIComponent_base64 (s : string) :
  (forall c, c ∈ chars s -> b64_char c) ->
  forall c, c ∈ chars (Encoding.encodeURIComponent s) ->
    alnum c = true \/ c = "%"%char.
Proof.
  induction s as [|x s IH]; intros Hs c; cbn [Encoding.encodeURIComponent chars].
  - now intros ?%not_elem_of_nil.
  - assert (Hx : b64_char x) by (apply Hs; cbn; left).
    assert (Hrest : forall c, c ∈ chars s -> b64_char c)
      by (intros d Hd; apply Hs; cbn; now right).
    destruct (Encoding.unreserved x) eqn:E; cbn [chars]; rewrite ?elem_of_cons.
    + intros [->|Hc]; [|now apply IH].
      destruct Hx as [?|[->|[->| ->]]]; [now left|..]; discriminate E.
    + destruct Hx as [Hx|Hx].
      { apply alnum_unreserved in Hx. congruence. }
      intros [->|[->|[->|Hc]]]; [now right| | |now apply IH];
        destruct Hx as [->|[->| ->]]; now left.
Qed.

(** X2: the signature put in the webhook URL consists of letters, digits
    and percent signs only, whatever the secret and the timestamp: it holds
    no character that ends or splits the query parameter. *)
Theorem signEncoded_alphabet (secret : string) (timestamp : Z) (c : ascii) :
  c ∈ chars (signEncoded secret timestamp) ->
  alnum c = true \/ c = "%"%char.
Proof.
  unfold signEncoded. apply encodeURIComponent_base64.
  intros d. apply btoa_alphabet.
Qed.

Lemma signEncoded_alphabet_witness :
  alnum "Q"%char = true \/ "Q"%char = "%"%char.
Proof.
  apply (signEncoded_alphabet "" 0 "Q"%char).
  vm_compute. left.
Defined.

Lemma be_bytes_length (n : nat) (x : Z) : length (Sha256.be_bytes n x) = n.
Proof. induction n as [|n IH]; cbn; [reflexivity | now rewrite IH]. Qed.

Lemma round_length (st : list Z) (kw : Z * Z) :
  length (Sha256.round st kw) = length st.
Proof.
  unfold Sha256.round.
  destruct st as [|a [|b [|c [|d [|e [|f [|g [|h [|]]]]]]]]]; reflexivity.
Qed.

Lemma rounds_length (kws : list (Z * Z)) (st : list Z) :
  length (fold_left Sha256.round kws st) = length st.
Proof.
  revert st. induction kws as [|kw kws IH]; intros st; cbn; [reflexivity|].
  now rewrite IH, round_length.
Qed.

Lemma compress_length (h block : list Z) :
  length (Sha256.compress h block) = length h.
Proof.
  unfold Sha256.compress. rewrite length_zip_with, rounds_length. lia.
Qed.

Lemma chain_length (bs : list (list Z)) (h : list Z) :
  length (fold_left Sha256.compress bs h) = length h.
Proof.
  revert h. induction bs as [|b bs IH]; intros h; cbn; [reflexivity|].
  now rewrite IH, compress_length.
Qed.

Lemma words_to_bytes_length (ws : list Z) :
  length (flat_map (Sha256.be_bytes 4) ws) = (4 * length ws)%nat.
Proof.
  induction ws as [|w ws IH]; [reflexivity|].
  cbn [flat_map]. rewrite length_app, be_bytes_length, IH. cbn [length]. lia.
Qed.

(** A digest is 32 bytes long. *)
Lemma digest_length (msg : list Z) : length (Sha256.digest msg) = 32%nat.
Proof.
  unfold Sha256.digest. rewrite words_to_bytes_length, chain_length. reflexivity.
Qed.

Lemma fromCharCode_length (bytes : list Byte.byte) :
  String.length (Encoding.fromCharCode bytes) = length bytes.
Proof.
  unfold Encoding.fromCharCode.
  induction bytes as [|b bytes IH]; cbn in *; [reflexivity | now f_equal].
Qed.

(** Base64 writes four characters for every three bytes begun. *)
Lemma btoa_length (s : string) :
  String.length (Encoding.btoa s) = (4 * ((String.length s + 2) / 3))%nat.
Proof.
  induction s as [|x|x y|x y z r IH] using string_ind3;
    cbn [Encoding.btoa String.length]; try reflexivity.
  rewrite IH.
  replace (S (S (S (String.length r))) + 2)%nat
    with (String.length r + 2 + 1 * 3)%nat by lia.
  rewrite Nat.div_add by lia. lia.
Qed.

(** X3: the HMAC-SHA256 signature is 32 bytes long whatever the lengths of
    the key and of the signed text (a key longer than a block is hashed
    first), so its Base64 form, before percent-encoding, always has 44
    characters. *)
Theorem signature_size (key data : list Byte.byte) :
  length (Sha256.hmac key data) = 32%nat
  /\ String.length (Encoding.btoa (Encoding.fromCharCode (Sha256.hmac key data)))
     = 44%nat.
Proof.
  assert (H : length (Sha256.hmac key data) = 32%nat).
  { unfold Sha256.hmac, Sha256.hmac_numbers.
    now rewrite length_map, digest_length. }
  split; [exact H|].
  now rewrite btoa_length, fromCharCode_length, H.
Qed.

(** ** One check, in terms of the tables *)

(** What the probe comes to does not depend on the state it starts from. *)
Lemma probe_verdict_any_state (m : Monitor) (w : World) (s : Sys) :
  (probe m w s).1 = probe_verdict m w.
Proof.
  unfold probe_verdict, probe, refresh_info. run_cbn.
  destruct (net w (probe_request m)) as [e | r]; run_cbn; [reflexivity|].
  destruct (resp_ok r); cbn [negb]; run_cbn; [|reflexivity].
  destruct (Js.truthy_string (keyword m)); run_cbn; [|reflexivity].
  destruct (resp_text r) as [body | e]; run_cbn; [|reflexivity].
  destruct (negb _); reflexivity.
Qed.

(** The probe changes at most the refresh stamp of its own row. *)
Lemma probe_monitors (m : Monitor) (w : World) (s : Sys) :
  monitors (probe m w s).2 = monitors s
  \/ exists stamp,
       monitors (probe m w s).2
       = alter (set_info_status stamp) (monitor_id m) (monitors s).
Proof.
  unfold probe, refresh_info. run_cbn.
  destruct (net w (probe_request m)) as [e | r]; run_cbn; [now left|].
  destruct (resp_ok r); cbn [negb]; run_cbn; [|now left].
  right. eexists.
  destruct (Js.truthy_string (keyword m)); run_cbn; [|reflexivity].
  destruct (resp_text r) as [body | e]; run_cbn; [|reflexivity].
  destruct (negb _); reflexivity.
Qed.

#[global] Instance later_refl : Reflexive later.
Proof. intros s. unfold later. lia. Qed.

#[global] Instance later_trans : Transitive later.
Proof. intros a b c. unfold later. lia. Qed.

#[global] Instance passive_later : Passive later.
Proof.
  split; try typeclasses eauto.
  intros req _ _. apply keeps_fetch. intros s. unfold later. cbn. lia.
Qed.

#[global] Instance quiet_later : Quiet later.
Proof.
  split; try typeclasses eauto.
  - apply keeps_date_now. intros s. unfold later. cbn. lia.
  - intros. apply keeps_run_then. intros s. unfold later. destruct s; cbn. lia.
  - intros. apply keeps_run. intros s. unfold later. cbn. lia.
  - intros s. unfold later. cbn. lia.
Qed.

Lemma later_advance env (m : Monitor) (isFail : bool) (why : string)
    (latency : Z) :
  keeps later (advance env m isFail why latency).
Proof.
  assert (H : forall msg, keeps later (sendDingTalkAlert env m msg)).
  { intros msg w s.
    destruct (sendDingTalkAlert_effect env m msg w s)
      as (result & s' & Hrun & _ & _ & _ & Ht & _).
    rewrite Hrun. unfold later. cbn. lia. }
  unfold advance. frame.
Qed.

(** The tables after [performCheck]: the row of the target has its state and
    [last_check] rewritten (and possibly its refresh stamp), and one entry
    is appended to the log. *)
Lemma performCheck_tables env (m : Monitor) (w : World) (s : Sys) :
  exists result next stamp latency base,
    probe_verdict m w = Normal result
    /\ (performCheck m env w s).1 = Normal tt
    /\ (base = monitors s
        \/ exists t, base = alter (set_info_status t) (monitor_id m) (monitors s))
    /\ monitors (performCheck m env w s).2
       = alter (set_state stamp next.1 next.2) (monitor_id m) base
    /\ logs (performCheck m env w s).2
       = logs s ++ [mkLog (monitor_id m) (res_status result) latency
                          (if res_isFail result then 1 else 0)
                          (res_reason result)]
    /\ (exists k, (ticks s < k < ticks (performCheck m env w s).2)%nat
                  /\ stamp = clock w k)
    /\ forall st rc alert,
         table (status m) (retry_count m) (res_isFail result) = Some (st, rc, alert) ->
         next = (st, rc).
Proof.
  destruct (performCheck_effect env m w s)
    as (result & s1 & next & s2 & Hprobe & Hadv & Hrun).
  pose proof (probe_verdict_any_state m w (after_reading s)) as Hv.
  pose proof (probe_monitors m w (after_reading s)) as Hm1.
  pose proof (quiet_probe same_logs m w (after_reading s)) as Hl1.
  assert (Ht1 : (ticks s < ticks s1)%nat).
  { pose proof (quiet_probe later m w (after_reading s)) as H.
    rewrite Hprobe in H. unfold later in H. cbn in H. lia. }
  assert (Ht2 : (ticks s1 < ticks s2)%nat).
  { pose proof (later_advance env m (res_isFail result) (res_reason result)
                  (clock w (ticks s1) - clock w (ticks s)) w (after_reading s1)) as H.
    rewrite Hadv in H. unfold later in H. cbn in H. lia. }
  rewrite Hprobe in Hv, Hm1, Hl1. cbn [fst snd after_reading monitors logs] in *.
  destruct (advance_effect env m (res_isFail result) (res_reason result)
              (clock w (ticks s1) - clock w (ticks s)) w (after_reading s1))
    as (next' & s2' & Hadv' & Hm2 & Hl2 & _ & _ & Htable).
  rewrite Hadv in Hadv'. injection Hadv' as <- <-.
  exists result, next, (clock w (ticks s2)),
         (clock w (ticks s1) - clock w (ticks s)), (monitors s1).
  split; [now symmetry|]. rewrite Hrun. cbn [fst snd].
  split; [reflexivity|]. split; [exact Hm1|].
  cbn [apply_sql record monitors logs after_reading].
  split; [now rewrite Hm2|].
  split; [rewrite Hl2; cbn [after_reading logs]; now rewrite Hl1|].
  split.
  - exists (ticks s2). split; [|reflexivity].
    cbv zeta. cbn [apply_sql record ticks after_reading]. lia.
  - intros st rc alert Ht. now destruct (Htable st rc alert Ht).
Qed.

(** ** What the scheduled run leaves alone *)

#[global] Instance same_config_refl : Reflexive same_config.
Proof. intros m. now repeat split. Qed.

#[global] Instance same_config_trans : Transitive same_config.
Proof.
  intros a b c (?&?&?&?&?&?) (?&?&?&?&?&?). repeat split; congruence.
Qed.

#[global] Instance same_targets_refl : Reflexive same_targets.
Proof. intros s id. destruct (monitors s !! id); constructor. reflexivity. Qed.

#[global] Instance same_targets_trans : Transitive same_targets.
Proof.
  intros a b c Hab Hbc id. specialize (Hab id). specialize (Hbc id).
  destruct Hab as [x y Hxy|]; inversion Hbc; subst; constructor.
  now transitivity y.
Qed.

Lemma same_targets_alter (f : Monitor -> Monitor) (id : Z) (t : gmap Z Monitor) :
  (forall m, same_config m (f m)) ->
  forall i, option_Forall2 same_config (t !! i) (alter f id t !! i).
Proof.
  intros Hf i. rewrite lookup_alter. case_decide; subst.
  - destruct (t !! i); constructor. apply Hf.
  - destruct (t !! i); constructor. reflexivity.
Qed.

Lemma same_targets_same_rows (s s' : Sys) :
  monitors s' = monitors s -> same_targets s s'.
Proof. intros H id. rewrite H. destruct (monitors s !! id); constructor. reflexivity. Qed.

Lemma same_targets_apply_sql (q : Sql) (s : Sys) : same_targets s (apply_sql q s).
Proof.
  destruct q; try (now apply same_targets_same_rows);
    intros i; cbn [apply_sql monitors];
    apply same_targets_alter; intros m; now repeat split.
Qed.

Lemma targets_run (q : Sql) : keeps same_targets (run q).
Proof. apply keeps_run. intros s. apply (same_targets_apply_sql q (record (Ran q) s)). Qed.

#[global] Instance passive_targets : Passive same_targets.
Proof.
  split; try typeclasses eauto.
  intros req _ _. apply keeps_fetch. intros s. now apply same_targets_same_rows.
Qed.

#[global] Instance quiet_targets : Quiet same_targets.
Proof.
  split; try typeclasses eauto.
  - apply keeps_date_now. intros s. now apply same_targets_same_rows.
  - intros. apply keeps_run_then. intros s.
    apply (same_targets_apply_sql (UpdateInfoStatus stamp id)
             (record (Ran (UpdateInfoStatus stamp id)) s)).
  - intros. apply targets_run.
  - intros s. now apply same_targets_same_rows.
Qed.

Lemma targets_advance env (m : Monitor) (isFail : bool) (why : string)
    (latency : Z) :
  keeps same_targets (advance env m isFail why latency).
Proof.
  intros w s.
  destruct (advance_effect env m isFail why latency w s)
    as (next & s' & Hrun & Hm & _).
  rewrite Hrun. now apply same_targets_same_rows.
Qed.

Lemma targets_performCheck (m : Monitor) env :
  keeps same_targets (performCheck m env).
Proof.
  pose proof targets_advance. pose proof targets_run.
  unfold performCheck. frame.
Qed.

Lemma targets_checkSites env : keeps same_targets (checkSites env).
Proof.
  unfold checkSites.
  apply keeps_bind; [typeclasses eauto .. | apply quiet_date |].
  intros now. apply keeps_bind; [typeclasses eauto .. | |].
  { intros w s. now apply same_targets_same_rows. }
  intros results. apply keeps_each; [typeclasses eauto .. |].
  intros m. unfold checkSite.
  destruct (isTimeToCheck m now); [apply targets_performCheck | frame].
Qed.

(** X4: neither the scheduled run nor the refreshes it leaves behind add or
    remove a target or change the id, name, URL, method, keyword or interval
    of one: the engine writes only state, stamps and expiry dates. *)
Theorem engine_keeps_targets env (w : World) (s : Sys) :
  same_targets s (checkSites env w s).2
  /\ same_targets s (settle env w s).2.
Proof.
  split; [apply targets_checkSites | apply quiet_settle; typeclasses eauto].
Qed.

(** ** What the scheduled run writes *)

Lemma checkSite_returns env (now : Z) (m : Monitor) (w : World) (s : Sys) :
  (checkSite env now m w s).1 = Normal tt.
Proof.
  unfold checkSite. destruct (isTimeToCheck m now); [|reflexivity].
  destruct (performCheck_tables env m w s) as (?&?&?&?&?&_&H&_). exact H.
Qed.

Lemma each_checkSite_logs env (now : Z) (w : World) (l : list Monitor) (s : Sys) :
  (each (checkSite env now) l w s).1 = Normal tt
  /\ exists new,
       logs (each (checkSite env now) l w s).2 = logs s ++ new
       /\ map log_monitor_id new
          = map monitor_id (List.filter (fun row => isTimeToCheck row now) l).
Proof.
  revert s. induction l as [|m l IH]; intros s.
  - split; [reflexivity|]. exists []. now rewrite app_nil_r.
  - cbn [each List.filter]. cbv [mbind M_bind].
    pose proof (checkSite_returns env now m w s) as Hret.
    assert (Hlog : exists new,
               logs (checkSite env now m w s).2 = logs s ++ new
               /\ map log_monitor_id new
                  = map monitor_id (if isTimeToCheck m now then [m] else [])).
    { unfold checkSite. destruct (isTimeToCheck m now).
      - destruct (performCheck_tables env m w s)
          as (result & next & stamp & latency & base & _ & _ & _ & _ & Hl & _).
        eexists. split; [exact Hl | reflexivity].
      - exists []. now rewrite app_nil_r. }
    destruct (checkSite env now m w s) as [[[] | e] s1]; cbn [fst snd] in *;
      [|discriminate Hret].
    destruct (IH s1) as (Hr & new & Hnew & Hids).
    destruct Hlog as (first & Hfirst & Hid).
    split; [exact Hr|]. exists (first ++ new).
    rewrite Hnew, Hfirst, <- app_assoc. split; [reflexivity|].
    rewrite map_app, Hid, Hids. now destruct (isTimeToCheck m now).
Qed.

Lemma checkSites_logs env (w : World) (s : Sys) :
  (checkSites env w s).1 = Normal tt
  /\ exists new,
       logs (checkSites env w s).2 = logs s ++ new
       /\ map log_monitor_id new
          = map monitor_id (due_rows (clock w (ticks s)) s).
Proof.
  unfold checkSites, select_monitors, due_rows. run_cbn.
  exact (each_checkSite_logs env (clock w (ticks s)) w (result_set s)
           (record (Ran SelectMonitors) (after_reading s))).
Qed.

(** X5: one scheduled run returns normally, keeps the log entries there
    were and adds exactly one entry for every target that is due at the
    time read on entry and none for the others.  The tasks run together, so
    nothing is said of the order of the new entries: their targets are, up
    to order, the due rows. *)
Theorem checkSites_logs_the_due env (w : World) (s : Sys) :
  (checkSites env w s).1 = Normal tt
  /\ exists new,
       logs (checkSites env w s).2 = logs s ++ new
       /\ map log_monitor_id new
          ≡ₚ map monitor_id (due_rows (clock w (ticks s)) s).
Proof.
  destruct (checkSites_logs env w s) as (Hret & new & Hlogs & Hids).
  split; [exact Hret|]. exists new. split; [exact Hlogs|]. now rewrite Hids.
Qed.

Lemma performCheck_other_rows env (m : Monitor) (w : World) (s : Sys) (id : Z) :
  id <> monitor_id m ->
  monitors (performCheck m env w s).2 !! id = monitors s !! id.
Proof.
  intros Hid.
  destruct (performCheck_tables env m w s)
    as (result & next & stamp & latency & base & _ & _ & Hbase & Hm & _).
  rewrite Hm, lookup_alter_ne by congruence.
  destruct Hbase as [-> | [t ->]]; [reflexivity|].
  now rewrite lookup_alter_ne by congruence.
Qed.

Lemma each_checkSite_other_rows env (now : Z) (w : World) (id : Z)
    (l : list Monitor) (s : Sys) :
  (forall m, m ∈ l -> monitor_id m = id -> isTimeToCheck m now = false) ->
  monitors (each (checkSite env now) l w s).2 !! id = monitors s !! id.
Proof.
  revert s. induction l as [|m l IH]; intros s Hl; [reflexivity|].
  cbn [each]. cbv [mbind M_bind].
  assert (Hstep : monitors (checkSite env now m w s).2 !! id = monitors s !! id).
  { unfold checkSite. destruct (isTimeToCheck m now) eqn:Hdue; [|reflexivity].
    apply performCheck_other_rows. intros E.
    rewrite (Hl m) in Hdue; [discriminate | set_solver | congruence]. }
  destruct (checkSite env now m w s) as [[[] | e] s1]; cbn [snd] in *;
    [|exact Hstep].
  rewrite IH; [exact Hstep|]. intros m' Hin. apply Hl. set_solver.
Qed.

(** X6: a target that is not due when the scheduled run starts is left as
    it is: after the run its row is the one stored before, whatever happens
    to the other targets. *)
Theorem checkSites_skips_the_rest env (w : World) (s : Sys) (id : Z)
    (row : Monitor) :
  well_keyed s ->
  monitors s !! id = Some row ->
  isTimeToCheck row (clock w (ticks s)) = false ->
  monitors (checkSites env w s).2 !! id = Some row.
Proof.
  intros Hkeys Hrow Hdue. unfold checkSites, select_monitors. run_cbn.
  rewrite each_checkSite_other_rows; [exact Hrow|].
  intros m Hin Hid.
  apply (result_set_spec (after_reading s)) in Hin as [id' Hin].
  cbn [after_reading monitors] in Hin.
  pose proof (Hkeys id' m Hin) as Hk.
  assert (id' = id) as -> by congruence.
  assert (m = row) as -> by congruence. exact Hdue.
Qed.

Lemma checkSites_skips_the_rest_witness :
  monitors (checkSites Scenario.bare Scenario.refusing
                       (Scenario.db Scenario.rested)).2 !! 1
  = Some Scenario.rested.
Proof.
  apply (checkSites_skips_the_rest Scenario.bare Scenario.refusing
           (Scenario.db Scenario.rested) 1 Scenario.rested).
  - intros id row H. unfold Scenario.db in H. cbn [monitors] in H.
    apply lookup_singleton_Some in H as [<- <-]. reflexivity.
  - reflexivity.
  - reflexivity.
Defined.

(** X7: every check stamps [last_check] with a reading of the clock taken
    during the check, whether the probe passed or failed, and keeps the
    interval; unless the check leaves the target RETRYING, the target is
    due again exactly from [interval] seconds after that stamp (300 seconds
    when the interval is missing or zero). *)
Theorem performCheck_paces env (m : Monitor) (w : World) (s : Sys)
    (row : Monitor) :
  monitors s !! monitor_id m = Some row ->
  exists stamp row',
    monitors (performCheck m env w s).2 !! monitor_id m = Some row'
    /\ last_check row' = Some stamp
    /\ interval row' = interval row
    /\ (exists k, (ticks s < k < ticks (performCheck m env w s).2)%nat
                  /\ stamp = clock w k)
    /\ forall now,
         status row' <> "RETRYING" ->
         (isTimeToCheck row' now = true
          <-> stamp + Js.or_num (interval row) 300 * 1000 <= now).
Proof.
  intros Hrow.
  destruct (performCheck_tables env m w s)
    as (result & next & stamp & latency & base & _ & _ & Hbase & Hm & _ & Hk & _).
  assert (Hb : exists row0, base !! monitor_id m = Some row0
                            /\ interval row0 = interval row).
  { destruct Hbase as [-> | [t ->]].
    - now exists row.
    - rewrite lookup_alter, Hrow. case_decide; [|contradiction].
      eexists. split; reflexivity. }
  destruct Hb as (row0 & Hrow0 & Hint).
  exists stamp, (set_state stamp next.1 next.2 row0).
  split.
  { rewrite Hm, lookup_alter, Hrow0. case_decide; [reflexivity | contradiction]. }
  split; [reflexivity|]. split; [exact Hint|]. split; [exact Hk|].
  intros now Hst. unfold isTimeToCheck. cbn [status last_check interval set_state] in *.
  apply eqb_status_false in Hst. rewrite Hst, Hint.
  rewrite Z.geb_le. lia.
Qed.

Lemma performCheck_paces_witness :
  exists stamp row',
    monitors (performCheck Scenario.site Scenario.bare Scenario.healthy
                           (Scenario.db Scenario.site)).2 !! 1 = Some row'
    /\ last_check row' = Some stamp
    /\ interval row' = Some 60
    /\ (exists k,
          (0 < k < ticks (performCheck Scenario.site Scenario.bare Scenario.healthy
                                       (Scenario.db Scenario.site)).2)%nat
          /\ stamp = Scenario.seconds k)
    /\ forall now,
         status row' <> "RETRYING" ->
         (isTimeToCheck row' now = true <-> stamp + 60 * 1000 <= now).
Proof.
  apply (performCheck_paces Scenario.bare Scenario.site Scenario.healthy
           (Scenario.db Scenario.site) Scenario.site).
  reflexivity.
Defined.

(** ** Alerts over consecutive checks *)

Lemma probe_verdict_config (a b : Monitor) (w : World) :
  same_config a b -> probe_verdict a w = probe_verdict b w.
Proof.
  intros (_ & _ & Hurl & Hmethod & Hkw & _).
  unfold probe_verdict, probe, refresh_info, probe_request.
  rewrite Hurl, Hmethod, Hkw. run_cbn.
  match goal with |- context [net w ?r] => destruct (net w r) as [e | r'] end;
    run_cbn; [reflexivity|].
  destruct (resp_ok r'); cbn [negb]; run_cbn; [|reflexivity].
  destruct (Js.truthy_string (keyword b)); run_cbn; [|reflexivity].
  destruct (resp_text r') as [body | e]; run_cbn; [|reflexivity].
  destruct (negb _); reflexivity.
Qed.

Lemma alert_payload_config (a b : Monitor) (shown message : string) :
  same_config a b -> alert_payload a shown message = alert_payload b shown message.
Proof. intros (_ & Hname & Hurl & _). unfold alert_payload. now rewrite Hname, Hurl. Qed.

(** The alerts of one check, for a row of the table. *)
Lemma performCheck_alerts env (m : Monitor) (w : World) (s : Sys) :
  exists result latency,
    probe_verdict m w = Normal result
    /\ forall st rc alert,
         table (status m) (retry_count m) (res_isFail result) = Some (st, rc, alert) ->
         dispatched alert m (res_reason result) latency
           (alerts_of (trace s)) (alerts_of (trace (performCheck m env w s).2)).
Proof.
  destruct (performCheck_effect env m w s)
    as (result & s1 & next & s2 & Hprobe & Hadv & Hrun).
  pose proof (probe_verdict_any_state m w (after_reading s)) as Hv.
  pose proof (quiet_probe (grows_by silent) m w (after_reading s)) as Hsil.
  rewrite Hprobe in Hv, Hsil. cbn [fst snd] in Hv, Hsil.
  destruct (advance_effect env m (res_isFail result) (res_reason result)
              (clock w (ticks s1) - clock w (ticks s)) w (after_reading s1))
    as (next' & s2' & Hadv' & _ & _ & _ & _ & Htable).
  rewrite Hadv in Hadv'. injection Hadv' as <- <-.
  exists result, (clock w (ticks s1) - clock w (ticks s)).
  split; [now symmetry|].
  intros st rc alert Ht. destruct (Htable st rc alert Ht) as [_ Hal].
  apply alerted_dispatched in Hal. cbn [after_reading trace] in Hal.
  rewrite (alerts_of_grows _ _ Hsil) in Hal. cbn [after_reading trace] in Hal.
  rewrite Hrun. cbn [snd apply_sql record trace after_reading].
  rewrite !alerts_of_app. cbn. rewrite !app_nil_r. exact Hal.
Qed.

(** One check of the row stored under [id]. *)
Lemma recheck_step env (id : Z) (w : World) (s : Sys) (row : Monitor) :
  monitors s !! id = Some row ->
  monitor_id row = id ->
  exists result row' latency,
    probe_verdict row w = Normal result
    /\ monitors (recheck env id w s) !! id = Some row'
    /\ same_config row row'
    /\ forall st rc alert,
         table (status row) (retry_count row) (res_isFail result) = Some (st, rc, alert) ->
         status row' = st /\ retry_count row' = rc
         /\ dispatched alert row (res_reason result) latency
              (alerts_of (trace s)) (alerts_of (trace (recheck env id w s))).
Proof.
  intros Hrow Hid. unfold recheck. rewrite Hrow.
  destruct (performCheck_tables env row w s)
    as (result & next & stamp & latency & base & Hv & _ & Hbase & Hm & _ & _ & Hnext).
  destruct (performCheck_alerts env row w s) as (result' & lat & Hv' & Hal).
  assert (result' = result) as -> by congruence.
  assert (Hb : exists row0, base !! id = Some row0 /\ same_config row row0).
  { destruct Hbase as [-> | [t ->]].
    - exists row. split; [exact Hrow | reflexivity].
    - rewrite Hid, lookup_alter, Hrow. case_decide; [|contradiction].
      eexists. split; [reflexivity|]. now repeat split. }
  destruct Hb as (row0 & Hrow0 & Hcfg).
  exists result, (set_state stamp next.1 next.2 row0), lat.
  split; [exact Hv|]. split.
  { rewrite Hm, Hid, lookup_alter, Hrow0. case_decide; [reflexivity | contradiction]. }
  split.
  { transitivity row0; [exact Hcfg | now repeat split]. }
  intros st rc alert Ht. rewrite (Hnext st rc alert Ht). cbn.
  split; [reflexivity|]. split; [reflexivity|]. exact (Hal st rc alert Ht).
Qed.

(** A failing check of a target in UP or in RETRYING below three retries. *)
Lemma recheck_retries env (id : Z) (w : World) (s : Sys) (row : Monitor)
    (origin : Monitor) (k : Z) :
  monitors s !! id = Some row -> monitor_id row = id ->
  same_config origin row ->
  (exists r, probe_verdict origin w = Normal r /\ res_isFail r = true) ->
  (status row = "UP" /\ k = 0) \/ (status row = "RETRYING" /\ retry_count row = k) ->
  0 <= k < 3 ->
  exists row',
    monitors (recheck env id w s) !! id = Some row'
    /\ same_config origin row'
    /\ status row' = "RETRYING" /\ retry_count row' = k + 1
    /\ alerts_of (trace (recheck env id w s)) = alerts_of (trace s).
Proof.
  intros Hrow Hid Hcfg (r & Hr & Hfail) Hst Hk.
  destruct (recheck_step env id w s row Hrow Hid)
    as (result & row' & lat & Hv & Hrow' & Hcfg' & Htable).
  rewrite <- (probe_verdict_config origin row w Hcfg), Hr in Hv.
  injection Hv as <-. rewrite Hfail in Htable.
  exists row'. split; [exact Hrow'|].
  split; [now transitivity row|].
  destruct Hst as [[Hup ->] | [Hre Hrc]].
  - destruct (Htable "RETRYING" 1 NoAlert) as (? & ? & ?).
    { unfold table. now rewrite Hup. }
    repeat split; assumption.
  - destruct (Htable "RETRYING" (k + 1) NoAlert) as (? & ? & ?).
    { unfold table. rewrite Hre, Hrc. cbn.
      destruct (Z.ltb_spec k 3); [reflexivity | lia]. }
    repeat split; assumption.
Qed.

(** X8: alerts are debounced.  From UP, three consecutive failing checks of
    a target take it to RETRYING with counts 1, 2 and 3 and send nothing;
    the fourth failing check takes it to DOWN, still with count 3, and sends
    exactly one alert, which carries the reason of that fourth failure. *)
Theorem alert_after_four_failures env (id : Z) (row : Monitor)
    (w1 w2 w3 w4 : World) (s : Sys) :
  monitors s !! id = Some row ->
  monitor_id row = id ->
  status row = "UP" ->
  (forall w, w ∈ [w1; w2; w3; w4] ->
             exists r, probe_verdict row w = Normal r /\ res_isFail r = true) ->
  stored_state id (rechecks env id [w1] s) = Some ("RETRYING", 1)
  /\ stored_state id (rechecks env id [w1; w2] s) = Some ("RETRYING", 2)
  /\ stored_state id (rechecks env id [w1; w2; w3] s) = Some ("RETRYING", 3)
  /\ alerts_of (trace (rechecks env id [w1; w2; w3] s)) = alerts_of (trace s)
  /\ stored_state id (rechecks env id [w1; w2; w3; w4] s) = Some ("DOWN", 3)
  /\ exists r shown,
       probe_verdict row w4 = Normal r
       /\ alerts_of (trace (rechecks env id [w1; w2; w3; w4] s))
          = alerts_of (trace s)
            ++ [alert_payload row shown ("Monitor is DOWN: " +:+ res_reason r)].
Proof.
  intros Hrow Hid Hup Hfail. unfold rechecks. cbn [fold_left].
  destruct (recheck_retries env id w1 s row row 0 Hrow Hid)
    as (row1 & Hrow1 & Hcfg1 & Hst1 & Hrc1 & Hal1);
    [reflexivity | apply Hfail; set_solver | now left | lia |].
  set (s1 := recheck env id w1 s) in *.
  assert (Hid1 : monitor_id row1 = id) by (destruct Hcfg1 as [<- _]; exact Hid).
  destruct (recheck_retries env id w2 s1 row1 row 1 Hrow1 Hid1 Hcfg1)
    as (row2 & Hrow2 & Hcfg2 & Hst2 & Hrc2 & Hal2);
    [apply Hfail; set_solver | now right | lia |].
  set (s2 := recheck env id w2 s1) in *.
  assert (Hid2 : monitor_id row2 = id) by (destruct Hcfg2 as [<- _]; exact Hid).
  destruct (recheck_retries env id w3 s2 row2 row 2 Hrow2 Hid2 Hcfg2)
    as (row3 & Hrow3 & Hcfg3 & Hst3 & Hrc3 & Hal3);
    [apply Hfail; set_solver | now right | lia |].
  set (s3 := recheck env id w3 s2) in *.
  assert (Hid3 : monitor_id row3 = id) by (destruct Hcfg3 as [<- _]; exact Hid).
  destruct (recheck_step env id w4 s3 row3 Hrow3 Hid3)
    as (result & row4 & lat & Hv & Hrow4 & Hcfg4 & Htable).
  destruct (Hfail w4) as (r & Hr & Hf); [set_solver|].
  rewrite <- (probe_verdict_config row row3 w4 Hcfg3), Hr in Hv.
  injection Hv as <-. rewrite Hf in Htable.
  destruct (Htable "DOWN" 3 DownAlert) as (Hst4 & Hrc4 & shown & Hal4).
  { unfold table. rewrite Hst3, Hrc3. reflexivity. }
  unfold stored_state. rewrite Hrow1, Hrow2, Hrow3, Hrow4. cbn [fmap option_fmap option_map].
  rewrite Hst1, Hrc1, Hst2, Hrc2, Hst3, Hrc3, Hst4, Hrc4.
  do 3 (split; [reflexivity|]).
  split; [congruence|]. split; [reflexivity|].
  exists r, shown. split; [exact Hr|].
  rewrite Hal4, Hal3, Hal2, Hal1.
  now rewrite (alert_payload_config row row3).
Qed.

Lemma alert_after_four_failures_witness :
  let ws := [Scenario.refusing; Scenario.refusing; Scenario.refusing;
             Scenario.refusing] in
  let s := Scenario.db Scenario.site in
  stored_state 1 (rechecks Scenario.bare 1 (take 1 ws) s) = Some ("RETRYING", 1)
  /\ stored_state 1 (rechecks Scenario.bare 1 (take 2 ws) s) = Some ("RETRYING", 2)
  /\ stored_state 1 (rechecks Scenario.bare 1 (take 3 ws) s) = Some ("RETRYING", 3)
  /\ alerts_of (trace (rechecks Scenario.bare 1 (take 3 ws) s)) = alerts_of (trace s)
  /\ stored_state 1 (rechecks Scenario.bare 1 ws s) = Some ("DOWN", 3)
  /\ exists r shown,
       probe_verdict Scenario.site Scenario.refusing = Normal r
       /\ alerts_of (trace (rechecks Scenario.bare 1 ws s))
          = alerts_of (trace s)
            ++ [alert_payload Scenario.site shown
                  ("Monitor is DOWN: " +:+ res_reason r)].
Proof.
  apply (alert_after_four_failures Scenario.bare 1 Scenario.site
           Scenario.refusing Scenario.refusing Scenario.refusing
           Scenario.refusing (Scenario.db Scenario.site));
    [reflexivity | reflexivity | reflexivity |].
  intros w Hw.
  assert (w = Scenario.refusing) as ->.
  { repeat (apply elem_of_cons in Hw as [Hw|Hw]; [exact Hw|]).
    now apply not_elem_of_nil in Hw. }
  eexists. split; reflexivity.
Defined.

(** ** A status outside the table *)

Lemma advance_off_table env (m : Monitor) (isFail : bool) (why : string)
    (latency : Z) (w : World) (s : Sys) :
  status m <> "UP" -> status m <> "RETRYING" -> status m <> "DOWN" ->
  advance env m isFail why latency w s
  = (Normal (if isFail then (status m, retry_count m) else ("UP", 0)), s).
Proof.
  intros Hup%eqb_status_false Hre%eqb_status_false Hdn%eqb_status_false.
  unfold advance. rewrite Hup, Hre, Hdn. now destruct isFail.
Qed.

(** X9: a target whose stored status is none of UP, RETRYING and DOWN never
    escalates: a failing check leaves its status and retry count as they
    are, a passing check makes it UP with count 0, and neither sends an
    alert. *)
Theorem unknown_status_never_alerts env (m : Monitor) (w : World) (s : Sys)
    (row : Monitor) :
  monitors s !! monitor_id m = Some row ->
  status m <> "UP" -> status m <> "RETRYING" -> status m <> "DOWN" ->
  exists result,
    probe_verdict m w = Normal result
    /\ stored_state (monitor_id m) (performCheck m env w s).2
       = Some (if res_isFail result then (status m, retry_count m) else ("UP", 0))
    /\ alerts_of (trace (performCheck m env w s).2) = alerts_of (trace s).
Proof.
  intros Hrow Hup Hre Hdn.
  destruct (performCheck_effect env m w s)
    as (result & s1 & next & s2 & Hprobe & Hadv & Hrun).
  pose proof (probe_verdict_any_state m w (after_reading s)) as Hv.
  pose proof (quiet_probe (grows_by silent) m w (after_reading s)) as Hsil.
  pose proof (quiet_probe same_states m w (after_reading s)) as Hst.
  rewrite Hprobe in Hv, Hsil, Hst. cbn [fst snd] in Hv, Hsil, Hst.
  rewrite advance_off_table in Hadv by assumption. injection Hadv as <- <-.
  exists result. split; [now symmetry|]. rewrite Hrun. cbn [snd]. split.
  - unfold stored_state. cbn [apply_sql record monitors after_reading].
    rewrite lookup_alter. case_decide; [|contradiction].
    specialize (Hst (monitor_id m)). unfold stored_state in Hst.
    cbn [after_reading monitors] in Hst. rewrite Hrow in Hst.
    destruct (monitors s1 !! monitor_id m); [|discriminate Hst].
    cbn. now destruct (res_isFail result).
  - cbn [apply_sql record trace after_reading]. rewrite !alerts_of_app. cbn.
    rewrite !app_nil_r. rewrite (alerts_of_grows _ _ Hsil). reflexivity.
Qed.

Lemma unknown_status_never_alerts_witness :
  exists result,
    probe_verdict Scenario.unsettled Scenario.refusing = Normal result
    /\ stored_state 1 (performCheck Scenario.unsettled Scenario.bare
                         Scenario.refusing (Scenario.db Scenario.unsettled)).2
       = Some (if res_isFail result then ("PENDING", 0) else ("UP", 0))
    /\ alerts_of (trace (performCheck Scenario.unsettled Scenario.bare
                           Scenario.refusing (Scenario.db Scenario.unsettled)).2)
       = alerts_of (trace (Scenario.db Scenario.unsettled)).
Proof.
  apply (unknown_status_never_alerts Scenario.bare Scenario.unsettled
           Scenario.refusing (Scenario.db Scenario.unsettled) Scenario.unsettled);
    [reflexivity | discriminate ..].
Defined.

(** ** The alert test route *)

(** What [sendDingTalkAlert] returns: the webhook's answer as parsed, or an
    acknowledgment with [errcode] -1 built from the error. *)
Lemma sendDingTalkAlert_result env (m : Monitor) (msg : string) w s :
  exists result s' hook shown,
    sendDingTalkAlert env m msg w s = (Normal (Some result), s')
    /\ monitors s' = monitors s /\ logs s' = logs s /\ pending s' = pending s
    /\ trace s' = trace s ++ [Fetched (alert_request hook (alert_payload m shown msg))]
    /\ handed_back (net w (alert_request hook (alert_payload m shown msg))) result.
Proof.
  unfold sendDingTalkAlert, handed_back. rewrite credentials_present. run_cbn.
  destruct (net w _) as [e | r] eqn:Hnet; run_cbn.
  - eexists _, _, _, _. split; [reflexivity|]. do 4 (split; [reflexivity|]).
    now rewrite Hnet.
  - destruct (resp_text r) as [body | e] eqn:Htext; run_cbn.
    + destruct (resp_parsed r) as [[| t | l | evs | code text]|] eqn:Hparsed;
        cbv [errcode_differs]; run_cbn;
        eexists _, _, _, _; (split; [reflexivity|]); do 4 (split; [reflexivity|]);
        rewrite Hnet, Htext, Hparsed; first [reflexivity | eexists; reflexivity].
    + eexists _, _, _, _. split; [reflexivity|]. do 4 (split; [reflexivity|]).
      now rewrite Hnet, Htext.
Qed.

(** X10: [POST /test-alert] always answers 200 with the outcome of the
    delivery in its body and never 500: it sends exactly one alert, about
    "Test Monitor", and leaves the tables alone.  The body carries the
    document the webhook answered, as it is, unless there is none to carry:
    when the webhook cannot be reached, its answer cannot be read or is not
    JSON, or is the document [null], the body carries [errcode] -1 with the
    error, still under status 200. *)
Theorem test_alert_reports_success env (w : World) (s : Sys) :
  exists result s' hook shown,
    Api.post_test_alert env w s
    = (Normal (Api.mkReply 200 (Api.AlertTested (Some result))), s')
    /\ monitors s' = monitors s /\ logs s' = logs s
    /\ trace s' = trace s
         ++ [Fetched (alert_request hook
                        (alert_payload Api.test_monitor shown Api.test_message))]
    /\ handed_back
         (net w (alert_request hook
                   (alert_payload Api.test_monitor shown Api.test_message)))
         result.
Proof.
  destruct (sendDingTalkAlert_result env Api.test_monitor Api.test_message w s)
    as (result & s' & hook & shown & Hrun & Hm & Hl & _ & Ht & Hres).
  exists result, s', hook, shown.
  split; [|auto].
  unfold Api.post_test_alert. cbv [try_catch mbind M_bind mret M_ret].
  now rewrite Hrun.
Qed.

(** ** The routes *)

(** X11: the guard on [/monitors/*] lets a request through exactly when its
    method is OPTIONS, or its path starts with [/monitors/public], or no
    password is configured (the binding is missing or empty), or the
    [Authorization] header contains the configured password somewhere in
    its text; every other request is answered 401. *)
Theorem monitors_guard_lets_through (method path : string)
    (ADMIN_PASSWORD Authorization : option string) :
  (Api.monitors_guard method path ADMIN_PASSWORD Authorization = None
   \/ Api.monitors_guard method path ADMIN_PASSWORD Authorization
      = Some (Api.mkReply 401
                (Api.Failure (Some "Unauthorized: Invalid Password"))))
  /\ (Api.monitors_guard method path ADMIN_PASSWORD Authorization = None
      <-> method = "OPTIONS"
          \/ (exists rest, path = "/monitors/public" +:+ rest)
          \/ ADMIN_PASSWORD = None \/ ADMIN_PASSWORD = Some ""
          \/ exists password header,
               ADMIN_PASSWORD = Some password /\ Authorization = Some header
               /\ mentions header password).
Proof.
  unfold Api.monitors_guard.
  destruct (String.eqb method "OPTIONS") eqn:Hm.
  { apply eqb_status_true in Hm. split; [now left | tauto]. }
  apply eqb_status_false in Hm.
  destruct (String.prefix "/monitors/public" path) eqn:Hp.
  { apply prefix_spec in Hp. split; [now left | tauto]. }
  assert (Hp' : ~ exists rest, path = "/monitors/public" +:+ rest).
  { rewrite <- prefix_spec. congruence. }
  destruct ADMIN_PASSWORD as [[|c password]|]; cbn [Js.truthy_string negb];
    [split; [now left | tauto] | | split; [now left | tauto]].
  destruct Authorization as [[|d header]|]; cbn [Js.truthy_string negb orb Js.or_string].
  - split; [now right|]. split; [discriminate|].
    intros [?|[?|[?|[?|(p & h & [= <-] & [= <-] & Hin)]]]]; try done.
    destruct Hin as ([|] & after & H); discriminate H.
  - destruct (Js.includes (String d header) (String c password)) eqn:Hin;
      cbn [negb].
    + split; [now left|]. split; [|reflexivity]. intros _.
      do 4 right. eexists _, _. split; [reflexivity|]. split; [reflexivity|].
      now apply includes_spec.
    + split; [now right|]. split; [discriminate|].
      intros [?|[?|[?|[?|(p & h & [= <-] & [= <-] & Hin')]]]]; try done.
      apply includes_spec in Hin'. congruence.
  - split; [now right|]. split; [discriminate|].
    intros [?|[?|[?|[?|(p & h & _ & ? & _)]]]]; done.
Qed.

(** X13: a [POST /monitors] that names a name and a URL is answered 201 with
    the id of the new row.  The row holds the name and URL given; its
    interval is the one given, or 300 when that is missing or zero; its
    keyword is the one given, or null when that is missing or empty; every
    other column has the default of the table.  No other row and no log
    entry is touched, and no request is made. *)
Theorem post_monitors_creates (schema : Api.Schema) (body : Api.NewMonitor)
    (w : World) (s : Sys) (given_name given_url : string) :
  Api.new_name body = Some given_name -> given_name <> "" ->
  Api.new_url body = Some given_url -> given_url <> "" ->
  exists s' row,
    Api.post_monitors schema (Normal body) w s
    = (Normal (Api.mkReply 201 (Api.Created (Api.last_row_id schema (monitors s)))), s')
    /\ monitors s' !! Api.last_row_id schema (monitors s) = Some row
    /\ monitor_id row = Api.last_row_id schema (monitors s)
    /\ name row = given_name /\ url row = given_url
    /\ (forall seconds, Api.new_interval body = Some seconds -> seconds <> 0 ->
                        interval row = Some seconds)
    /\ (Api.new_interval body = None \/ Api.new_interval body = Some 0 ->
        interval row = Some 300)
    /\ (forall word, Api.new_keyword body = Some word -> word <> "" ->
                     keyword row = Some word)
    /\ (Api.new_keyword body = None \/ Api.new_keyword body = Some "" ->
        keyword row = None)
    /\ (let d := Api.column_defaults schema in
        method row = method d /\ status row = status d
        /\ retry_count row = retry_count d /\ last_check row = last_check d
        /\ check_info_status row = check_info_status d
        /\ cert_expiry row = cert_expiry d /\ domain_expiry row = domain_expiry d)
    /\ (forall id, id <> Api.last_row_id schema (monitors s) ->
                   monitors s' !! id = monitors s !! id)
    /\ logs s' = logs s /\ trace s' = trace s.
Proof.
  intros Hname Hn Hurl Hu.
  unfold Api.post_monitors, Api.insert_monitor.
  cbv [try_catch mbind M_bind mret M_ret]. rewrite Hname, Hurl.
  destruct given_name as [|a n]; [contradiction|].
  destruct given_url as [|b u]; [contradiction|].
  cbn [Js.truthy_string negb orb Js.or_string].
  eexists _, _. split; [reflexivity|]. cbn [monitors logs trace].
  split; [apply lookup_insert_eq|].
  unfold Api.inserted.
  cbn [monitor_id name url interval keyword method status retry_count last_check
       check_info_status cert_expiry domain_expiry].
  do 3 (split; [reflexivity|]).
  split.
  { intros seconds -> Hs. unfold Js.or_num.
    destruct (Z.eqb_spec seconds 0); [contradiction | reflexivity]. }
  split; [intros [-> | ->]; reflexivity|].
  split.
  { intros word -> Hw. destruct word; [contradiction | reflexivity]. }
  split; [intros [-> | ->]; reflexivity|].
  split; [repeat split|].
  split; [|split; reflexivity].
  intros id Hid. now rewrite lookup_insert_ne by congruence.
Qed.

Lemma post_monitors_creates_witness :
  exists s' row,
    Api.post_monitors Scenario.schema (Normal Scenario.shop) Scenario.healthy
                      (Scenario.db Scenario.site)
    = (Normal (Api.mkReply 201 (Api.Created 2)), s')
    /\ monitors s' !! 2 = Some row
    /\ name row = "shop" /\ url row = "https://shop.example.com"
    /\ interval row = Some 300
    /\ keyword row = None
    /\ status row = "UP"
    /\ monitors s' !! 1 = Some Scenario.site.
Proof.
  destruct (post_monitors_creates Scenario.schema Scenario.shop Scenario.healthy
              (Scenario.db Scenario.site) "shop" "https://shop.example.com")
    as (s' & row & Hrun & Hrow & _ & Hname & Hurl & _ & Hint & _ & Hkw & Hcols
        & Hothers & _);
    [reflexivity | discriminate | reflexivity | discriminate |].
  exists s', row. split; [exact Hrun|]. split; [exact Hrow|].
  split; [exact Hname|]. split; [exact Hurl|].
  split; [apply Hint; now left|]. split; [apply Hkw; now right|].
  split; [apply Hcols|].
  rewrite (Hothers 1) by discriminate. reflexivity.
Defined.

Lemma delete_monitor_runs (id : Z) (w : World) (s : Sys) :
  Api.delete_monitor (Some id) w s
  = (Normal (Api.mkReply 200 Api.Succeeded),
     mkSys (delete id (monitors s))
           (List.filter (fun e => negb (log_monitor_id e =? id)) (logs s))
           (ticks s) (trace s) (pending s)).
Proof. reflexivity. Qed.

Lemma kept_logs (id : Z) (l : list LogEntry) (e : LogEntry) :
  e ∈ List.filter (fun e => negb (log_monitor_id e =? id)) l
  <-> e ∈ l /\ log_monitor_id e <> id.
Proof.
  rewrite !list_elem_of_In, filter_In, negb_true_iff, Z.eqb_neq. reflexivity.
Qed.

Lemma kept_all_logs (id : Z) (l : list LogEntry) :
  (forall e, e ∈ l -> log_monitor_id e <> id) ->
  List.filter (fun e => negb (log_monitor_id e =? id)) l = l.
Proof.
  induction l as [|e l IH]; intros H; [reflexivity|]. cbn [List.filter].
  destruct (Z.eqb_spec (log_monitor_id e) id) as [E|_]; cbn [negb].
  - exfalso. apply (H e); [left | exact E].
  - f_equal. apply IH. intros e' He'. apply H. now right.
Qed.

(** X14: [DELETE /monitors/:id] is always answered 200, whether or not the
    target exists.  Afterwards there is no target with that id and no log
    entry of it; every other target and every log entry of another target
    is kept; and no request is made. *)
Theorem delete_monitor_removes (id : Z) (w : World) (s : Sys) :
  exists s',
    Api.delete_monitor (Some id) w s = (Normal (Api.mkReply 200 Api.Succeeded), s')
    /\ monitors s' !! id = None
    /\ (forall other, other <> id -> monitors s' !! other = monitors s !! other)
    /\ (forall e, e ∈ logs s' <-> e ∈ logs s /\ log_monitor_id e <> id)
    /\ trace s' = trace s.
Proof.
  eexists. split; [apply delete_monitor_runs|]. cbn [monitors logs trace].
  split; [apply lookup_delete_eq|].
  split; [intros other H; now rewrite lookup_delete_ne by congruence|].
  split; [intros e; apply kept_logs | reflexivity].
Qed.

(** X15: adding a target and deleting it again gives back the tables as
    they were, provided the id handed out was not in use by a target or by
    a log entry. *)
Theorem post_then_delete (schema : Api.Schema) (body : Api.NewMonitor)
    (w w' : World) (s : Sys) :
  Api.accepted (Normal body) = true ->
  monitors s !! Api.last_row_id schema (monitors s) = None ->
  (forall e, e ∈ logs s ->
             log_monitor_id e <> Api.last_row_id schema (monitors s)) ->
  exists id s1 s2,
    Api.post_monitors schema (Normal body) w s
    = (Normal (Api.mkReply 201 (Api.Created id)), s1)
    /\ Api.delete_monitor (Some id) w' s1
       = (Normal (Api.mkReply 200 Api.Succeeded), s2)
    /\ monitors s2 = monitors s /\ logs s2 = logs s.
Proof.
  intros Hacc Hfresh Hlogs.
  unfold Api.accepted in Hacc. apply andb_true_iff in Hacc as [Hn Hu].
  unfold Api.post_monitors, Api.insert_monitor.
  cbv [try_catch mbind M_bind mret M_ret]. rewrite Hn, Hu. cbn [negb orb].
  eexists _, _, _. split; [reflexivity|].
  split; [apply delete_monitor_runs|]. cbn [monitors logs].
  split; [now apply delete_insert_id | now apply kept_all_logs].
Qed.

Lemma post_then_delete_witness :
  exists id s1 s2,
    Api.post_monitors Scenario.schema (Normal Scenario.shop) Scenario.healthy
                      (Scenario.db Scenario.site)
    = (Normal (Api.mkReply 201 (Api.Created id)), s1)
    /\ Api.delete_monitor (Some id) Scenario.healthy s1
       = (Normal (Api.mkReply 200 Api.Succeeded), s2)
    /\ monitors s2 = monitors (Scenario.db Scenario.site)
    /\ logs s2 = logs (Scenario.db Scenario.site).
Proof.
  apply (post_then_delete Scenario.schema Scenario.shop Scenario.healthy
           Scenario.healthy (Scenario.db Scenario.site)).
  - reflexivity.
  - reflexivity.
  - intros e He. now apply not_elem_of_nil in He.
Defined.

(** ** Referential integrity *)

Lemma well_keyed_same_targets (s s' : Sys) :
  same_targets s s' -> well_keyed s -> well_keyed s'.
Proof.
  intros Hsame Hk id row' Hrow'. specialize (Hsame id). rewrite Hrow' in Hsame.
  inversion Hsame as [row ? Hcfg Hrow|]; subst.
  destruct Hcfg as [<- _]. now apply Hk.
Qed.

Lemma is_Some_same_targets (s s' : Sys) (id : Z) :
  same_targets s s' -> is_Some (monitors s !! id) -> is_Some (monitors s' !! id).
Proof.
  intros Hsame [row Hrow]. specialize (Hsame id). rewrite Hrow in Hsame.
  inversion Hsame; subst. eauto.
Qed.

Lemma referential_same (s s' : Sys) :
  same_targets s s' -> logs s' = logs s -> referential s -> referential s'.
Proof.
  intros Hsame Hlogs Href e He. rewrite Hlogs in He.
  apply (is_Some_same_targets s s'); [exact Hsame | now apply Href].
Qed.

Lemma checkSites_integrity env (w : World) (s : Sys) :
  well_keyed s -> referential s ->
  well_keyed (checkSites env w s).2 /\ referential (checkSites env w s).2.
Proof.
  intros Hk Href.
  pose proof (targets_checkSites env w s) as Hsame.
  split; [now apply (well_keyed_same_targets s)|].
  destruct (checkSites_logs env w s) as (_ & new & Hlogs & Hids).
  intros e He. rewrite Hlogs in He. apply elem_of_app in He as [He|He].
  - apply (is_Some_same_targets s); [exact Hsame | now apply Href].
  - apply (is_Some_same_targets s); [exact Hsame|].
    assert (Hin : log_monitor_id e ∈ map log_monitor_id new)
      by (apply list_elem_of_fmap; eauto).
    rewrite Hids in Hin. apply list_elem_of_fmap in Hin as (row & Hid & Hrow).
    unfold due_rows in Hrow. apply list_elem_of_In, filter_In in Hrow as [Hrow _].
    apply list_elem_of_In, result_set_spec in Hrow as [id Hrow].
    rewrite Hid, (Hk id row Hrow). eauto.
Qed.

Lemma post_monitors_integrity (schema : Api.Schema)
    (json : Completion Api.NewMonitor) (w : World) (s : Sys) :
  well_keyed s -> referential s ->
  well_keyed (Api.post_monitors schema json w s).2
  /\ referential (Api.post_monitors schema json w s).2.
Proof.
  intros Hk Href. unfold Api.post_monitors, Api.insert_monitor.
  cbv [try_catch mbind M_bind mret M_ret].
  destruct json as [body | e]; [|now split].
  destruct (negb _ || negb _); [now split|]. cbn [snd]. split.
  - intros id row. cbn [monitors]. rewrite lookup_insert.
    case_decide; [|apply Hk]. intros [= <-]. now subst.
  - intros entry He. cbn [monitors logs] in *. rewrite lookup_insert.
    case_decide; [eauto | now apply Href].
Qed.

Lemma delete_monitor_integrity (id : option Z) (w : World) (s : Sys) :
  well_keyed s -> referential s ->
  well_keyed (Api.delete_monitor id w s).2
  /\ referential (Api.delete_monitor id w s).2.
Proof.
  intros Hk Href. destruct id as [id|]; [|now split].
  rewrite delete_monitor_runs. cbn [snd]. split.
  - intros i row. cbn [monitors]. rewrite lookup_delete.
    case_decide; [discriminate | apply Hk].
  - intros e He. cbn [monitors logs] in *. apply kept_logs in He as [He Hne].
    rewrite lookup_delete_ne by congruence. now apply Href.
Qed.

Lemma test_alert_frame env (w : World) (s : Sys) :
  monitors (Api.post_test_alert env w s).2 = monitors s
  /\ logs (Api.post_test_alert env w s).2 = logs s.
Proof.
  destruct (sendDingTalkAlert_result env Api.test_monitor Api.test_message w s)
    as (result & s' & hook & shown & Hrun & Hm & Hl & _).
  unfold Api.post_test_alert. cbv [try_catch mbind M_bind mret M_ret].
  rewrite Hrun. now split.
Qed.

(** X16: every log entry belongs to a stored target, and every target is
    stored under its own id, after any call into the worker (a scheduled
    run, the refreshes it left behind, adding a target, deleting one, the
    alert test) made in a state where that holds. *)
Theorem serve_keeps_integrity (c : Call) (w : World) (s : Sys) :
  well_keyed s -> referential s ->
  well_keyed (serve c w s) /\ referential (serve c w s).
Proof.
  intros Hk Href. destruct c as [env | env | schema json | id | env];
    cbn [serve].
  - now apply checkSites_integrity.
  - pose proof (quiet_settle same_targets env w s) as Hsame.
    pose proof (quiet_settle same_logs env w s) as Hlogs.
    split; [now apply (well_keyed_same_targets s)
           | now apply (referential_same s)].
  - now apply post_monitors_integrity.
  - now apply delete_monitor_integrity.
  - destruct (test_alert_frame env w s) as [Hm Hl].
    pose proof (same_targets_same_rows s _ Hm) as Hsame.
    split; [now apply (well_keyed_same_targets s)
           | now apply (referential_same s)].
Qed.

Lemma serve_keeps_integrity_witness :
  well_keyed (serve (Scheduled Scenario.bare) Scenario.refusing
                    (Scenario.db Scenario.site))
  /\ referential (serve (Scheduled Scenario.bare) Scenario.refusing
                        (Scenario.db Scenario.site)).
Proof.
  apply (serve_keeps_integrity (Scheduled Scenario.bare) Scenario.refusing
           (Scenario.db Scenario.site)).
  - intros id row H. unfold Scenario.db in H. cbn [monitors] in H.
    apply lookup_singleton_Some in H as [<- <-]. reflexivity.
  - intros e He. now apply not_elem_of_nil in He.
Defined.

(** ** The requests of the resolver *)

Lemma requests_of_app (a b : list Event) :
  requests_of (a ++ b) = requests_of a ++ requests_of b.
Proof. apply omap_app. Qed.

(** The certificate lookup makes one, two or three queries, always going
    from the hostname to the root domain to its wildcard form. *)
Lemma gather_requests (d : string) (w : World) (s : Sys) :
  exists c s1,
    gather d w s = (c, s1)
    /\ (s1 = record (Fetched (crt_request d)) s
        \/ ((2 < length (Js.split_dot d))%nat
            /\ let root := Js.join_dot (Js.slice_from (length (Js.split_dot d) - 2)
                                                      (Js.split_dot d)) in
               (s1 = record (Fetched (crt_request root))
                       (record (Fetched (crt_request d)) s)
                \/ s1 = record (Fetched (crt_request ("%." +:+ root)))
                          (record (Fetched (crt_request root))
                             (record (Fetched (crt_request d)) s))))).
Proof.
  unfold gather. cbv [mbind M_bind].
  rewrite fetchCerts_document.
  destruct (is_empty_array _ && (2 <? Z.of_nat (length (Js.split_dot d)))) eqn:E;
    [|eexists _, _; split; [reflexivity | now left]].
  apply andb_true_iff in E as [_ E%Z.ltb_lt].
  assert (Hlen : (2 < length (Js.split_dot d))%nat) by lia.
  rewrite fetchCerts_document.
  destruct (default (JCerts []) (crt_document w d)) as [| t0 | l0 | |];
    (destruct (default (JCerts [])
                 (crt_document w
                    (Js.join_dot (Js.slice_from (length (Js.split_dot d) - 2)
                                                (Js.split_dot d)))))
       as [| t1 | [|c1 l1] | |]);
    cbv [length_positive concat throw mret M_ret];
    try rewrite fetchCerts_document;
    try (match goal with
         | |- context [default (JCerts []) (crt_document w ?q)] =>
             destruct (default (JCerts []) (crt_document w q))
               as [| t2 | [|c2 l2] | |]
         end;
         cbv [length_positive concat throw mret M_ret]);
    eexists _, _; (split; [reflexivity|]); right; (split; [exact Hlen|]);
    cbv zeta; first [left; reflexivity | right; reflexivity].
Qed.

Lemma latest_state (j : Json) (w : World) (s : Sys) : (latest j w s).2 = s.
Proof.
  unfold latest. destruct (has_items j); [|reflexivity].
  destruct (sort by_latest (records_of j)); reflexivity.
Qed.

Lemma lookup_cert_requests (d : string) (w : World) (s : Sys) :
  exists c s1,
    lookup_cert d w s = (Normal c, s1)
    /\ (s1 = record (Fetched (crt_request d)) s
        \/ ((2 < length (Js.split_dot d))%nat
            /\ let root := Js.join_dot (Js.slice_from (length (Js.split_dot d) - 2)
                                                      (Js.split_dot d)) in
               (s1 = record (Fetched (crt_request root))
                       (record (Fetched (crt_request d)) s)
                \/ s1 = record (Fetched (crt_request ("%." +:+ root)))
                          (record (Fetched (crt_request root))
                             (record (Fetched (crt_request d)) s))))).
Proof.
  destruct (gather_requests d w s) as (c & s1 & Hg & Hs1).
  unfold lookup_cert. cbv [try_catch mbind M_bind mret M_ret]. rewrite Hg.
  destruct c as [j | e]; [|eexists _, _; split; [reflexivity | exact Hs1]].
  pose proof (latest_state j w s1) as Hl.
  destruct (latest j w s1) as [[c | e] s2]; cbn [snd] in Hl; subst s2;
    eexists _, _; (split; [reflexivity | exact Hs1]).
Qed.

Lemma lookup_domain_requests (d : string) (w : World) (s : Sys) :
  exists x,
    lookup_domain d w s = (Normal x, record (Fetched (rdap_request d)) s).
Proof.
  unfold lookup_domain. run_cbn.
  destruct (net w (rdap_request d)) as [e | r]; run_cbn; [now eexists|].
  destruct (resp_ok r); run_cbn; [|now eexists].
  destruct (resp_text r) as [body | e]; run_cbn; [|now eexists].
  destruct (resp_parsed r) as [[| t | l | [evs|] | code text]|]; run_cbn;
    try (now eexists).
  destruct (find _ _); now eexists.
Qed.

(** The requests of one refresh. *)
Lemma refresh_requests env (m : Monitor) (w : World) (s : Sys) :
  exists new,
    requests_of (trace (updateDomainCertInfo env m w s).2)
    = requests_of (trace s) ++ new
    /\ match url_hostname w (url m) with
       | None => new = []
       | Some domain =>
           new = [crt_request domain; rdap_request domain]
           \/ ((2 < length (Js.split_dot domain))%nat
               /\ let root :=
                    Js.join_dot (Js.slice_from (length (Js.split_dot domain) - 2)
                                               (Js.split_dot domain)) in
                  (new = [crt_request domain; crt_request root;
                          rdap_request domain]
                   \/ new = [crt_request domain; crt_request root;
                             crt_request ("%." +:+ root); rdap_request domain]))
       end.
Proof.
  unfold updateDomainCertInfo.
  cbv [try_catch mbind M_bind hostname mret M_ret].
  destruct (url_hostname w (url m)) as [domain|].
  2:{ exists []. now rewrite app_nil_r. }
  destruct (lookup_cert_requests domain w s) as (c & s1 & -> & Hs1).
  destruct (lookup_domain_requests domain w s1) as (d & ->).
  assert (Hreq : exists new,
             requests_of (trace (record (Fetched (rdap_request domain)) s1))
             = requests_of (trace s) ++ new
             /\ (new = [crt_request domain; rdap_request domain]
                 \/ ((2 < length (Js.split_dot domain))%nat
                     /\ let root :=
                          Js.join_dot (Js.slice_from (length (Js.split_dot domain) - 2)
                                                     (Js.split_dot domain)) in
                        (new = [crt_request domain; crt_request root;
                                rdap_request domain]
                         \/ new = [crt_request domain; crt_request root;
                                   crt_request ("%." +:+ root);
                                   rdap_request domain])))).
  { destruct Hs1 as [-> | [Hlen [-> | ->]]]; eexists; cbn [record trace];
      rewrite !requests_of_app, <- !app_assoc; (split; [reflexivity|]);
      [now left
      | right; split; [exact Hlen | left; reflexivity]
      | right; split; [exact Hlen | right; reflexivity]]. }
  destruct Hreq as (new & Hnew & Hshape). exists new. split; [|exact Hshape].
  destruct (Js.truthy_date c || Js.truthy_date d); cbn [snd]; [|exact Hnew].
  cbv [run]. cbn [snd apply_sql record trace]. rewrite requests_of_app.
  cbn [requests_of omap list_omap request_of]. rewrite app_nil_r.
  cbn [record trace] in Hnew. exact Hnew.
Qed.

(** X17: one refresh makes no request when the URL of the target does not
    parse; otherwise it queries crt.sh for the hostname, then, only for a
    hostname of more than two labels, possibly for the root domain and then
    possibly for its wildcard form (a lookup that throws on the way skips
    what is left of the cascade), and last it queries RDAP exactly once, for
    the hostname itself and not for the root domain, whatever the
    certificate lookup came to: two, three or four requests in all, in that
    order. *)
Theorem updateDomainCertInfo_requests env (m : Monitor) (w : World) (s : Sys) :
  exists new,
    requests_of (trace (updateDomainCertInfo env m w s).2)
    = requests_of (trace s) ++ new
    /\ match url_hostname w (url m) with
       | None => new = []
       | Some domain =>
           new = [crt_request domain; rdap_request domain]
           \/ ((2 < length (Js.split_dot domain))%nat
               /\ let root :=
                    Js.join_dot (Js.slice_from (length (Js.split_dot domain) - 2)
                                               (Js.split_dot domain)) in
                  (new = [crt_request domain; crt_request root;
                          rdap_request domain]
                   \/ new = [crt_request domain; crt_request root;
                             crt_request ("%." +:+ root); rdap_request domain]))
       end.
Proof. apply refresh_requests. Qed.

(** ** The requests of one check *)

Lemma probe_requests (m : Monitor) (w : World) (s : Sys) :
  requests_of (trace (probe m w s).2) = requests_of (trace s) ++ [probe_request m].
Proof.
  unfold probe, refresh_info. run_cbn.
  destruct (net w (probe_request m)) as [e | r]; run_cbn;
    [now rewrite requests_of_app|].
  destruct (resp_ok r); cbn [negb]; run_cbn; [|now rewrite requests_of_app].
  assert (H : forall q,
             requests_of ((trace s ++ [Fetched (probe_request m)]) ++ [Ran q])
             = requests_of (trace s) ++ [probe_request m]).
  { intros q. rewrite !requests_of_app. cbn. now rewrite app_nil_r. }
  destruct (Js.truthy_string (keyword m)); run_cbn; [|apply H].
  destruct (resp_text r) as [body | e]; run_cbn; [|apply H].
  destruct (negb _); apply H.
Qed.

Lemma advance_requests env (m : Monitor) (isFail : bool) (why : string)
    (latency : Z) (w : World) (s : Sys) :
  trace (advance env m isFail why latency w s).2 = trace s
  \/ exists hook shown message,
       trace (advance env m isFail why latency w s).2
       = trace s ++ [Fetched (alert_request hook (alert_payload m shown message))].
Proof.
  assert (Hsend : forall message (k : option Json -> M (string * Z)),
             (forall j s', (k j w s').2 = s') ->
             exists hook shown,
               trace ((sendDingTalkAlert env m message ≫= k) w s).2
               = trace s ++ [Fetched (alert_request hook (alert_payload m shown message))]).
  { intros message k Hk.
    destruct (sendDingTalkAlert_result env m message w s)
      as (result & s' & hook & shown & Hrun & _ & _ & _ & Ht & _).
    exists hook, shown. cbv [mbind M_bind]. rewrite Hrun, Hk. exact Ht. }
  unfold advance. destruct isFail.
  - destruct (String.eqb (status m) "UP"); [now left|].
    destruct (String.eqb (status m) "RETRYING").
    + destruct (retry_count m <? 3); [now left|]. right.
      destruct (Hsend ("Monitor is DOWN: " +:+ why)
                  (fun _ => mret ("DOWN", retry_count m))) as (hook & shown & H);
        [reflexivity|].
      now exists hook, shown, ("Monitor is DOWN: " +:+ why).
    + destruct (String.eqb (status m) "DOWN"); now left.
  - destruct (String.eqb (status m) "DOWN"); [|now left]. right.
    destruct (sendDingTalkAlert_result env m
                ("Monitor Recovered! Latency: " +:+ Js.num_to_string latency +:+ "ms") w s)
      as (result & s' & hook & shown & Hrun & _ & _ & _ & Ht & _).
    exists hook, shown,
      ("Monitor Recovered! Latency: " +:+ Js.num_to_string latency +:+ "ms").
    cbv [mbind M_bind mret M_ret]. rewrite Hrun. exact Ht.
Qed.

(** The requests the check makes itself, and what it leaves queued. *)
Lemma performCheck_own_requests env (m : Monitor) (w : World) (s : Sys) :
  exists rest,
    requests_of (trace (performCheck m env w s).2)
    = requests_of (trace s) ++ probe_request m :: rest
    /\ (rest = []
        \/ exists hook shown message,
             rest = [alert_request hook (alert_payload m shown message)])
    /\ (pending (performCheck m env w s).2 = pending s
        \/ pending (performCheck m env w s).2 = pending s ++ [ResolveInfo m]).
Proof.
  destruct (performCheck_effect env m w s)
    as (result & s1 & next & s2 & Hprobe & Hadv & Hrun).
  pose proof (probe_requests m w (after_reading s)) as Hp.
  pose proof (probe_queues_refresh m w (after_reading s)) as Hq.
  rewrite Hprobe in Hp, Hq. cbn [snd after_reading trace pending] in Hp, Hq.
  pose proof (advance_requests env m (res_isFail result) (res_reason result)
                (clock w (ticks s1) - clock w (ticks s)) w (after_reading s1)) as Ha.
  destruct (advance_effect env m (res_isFail result) (res_reason result)
              (clock w (ticks s1) - clock w (ticks s)) w (after_reading s1))
    as (next' & s2' & Hadv' & _ & _ & Hpend & _).
  rewrite Hadv in Ha, Hadv'. injection Hadv' as <- <-.
  cbn [snd after_reading trace pending] in Ha, Hpend.
  rewrite Hrun. cbn [snd apply_sql record trace pending after_reading].
  rewrite !requests_of_app. cbn [requests_of omap list_omap request_of].
  rewrite !app_nil_r.
  assert (Hqueue : pending s2 = pending s \/ pending s2 = pending s ++ [ResolveInfo m]).
  { rewrite Hpend, Hq.
    destruct (net w (probe_request m)) as [e | r]; [left; apply app_nil_r|].
    destruct (resp_ok r); [now right | left; apply app_nil_r]. }
  destruct Ha as [-> | (hook & shown & message & ->)].
  - exists []. rewrite Hp. split; [reflexivity|]. split; [now left | exact Hqueue].
  - eexists. rewrite requests_of_app, Hp, <- app_assoc.
    split; [reflexivity|]. split; [|exact Hqueue].
    right. now exists hook, shown, message.
Qed.

Lemma settle_one env (m : Monitor) (w : World) (s : Sys) :
  pending s = [ResolveInfo m] ->
  trace (settle env w s).2
  = trace (updateDomainCertInfo env m w
             (mkSys (monitors s) (logs s) (ticks s) (trace s) [])).2.
Proof.
  intros Hp. unfold settle. rewrite Hp. cbn [each run_task].
  cbv [mbind M_bind try_catch mret M_ret].
  destruct (updateDomainCertInfo env m w _) as [[[] | e] s']; reflexivity.
Qed.

Lemma settle_none env (w : World) (s : Sys) :
  pending s = [] -> trace (settle env w s).2 = trace s.
Proof. intros Hp. unfold settle. rewrite Hp. reflexivity. Qed.

(** X18: one check probes the target exactly once: retries happen on later
    scheduled runs, never inside a check.  Besides the probe, the check and
    the refresh it may start (taken to its end) make at most one alert
    request, about that target, and at most four lookups at crt.sh and
    RDAP.  The refresh runs alongside the check, so the requests are
    counted without regard to their order. *)
Theorem performCheck_requests env (m : Monitor) (w w' : World) (s : Sys) :
  pending s = [] ->
  exists rest lookups,
    requests_of (trace (settle env w' (performCheck m env w s).2).2)
    ≡ₚ requests_of (trace s) ++ probe_request m :: rest ++ lookups
    /\ (rest = []
        \/ exists hook shown message,
             rest = [alert_request hook (alert_payload m shown message)])
    /\ Forall (fun r => exists q, r = crt_request q \/ r = rdap_request q) lookups
    /\ (length lookups <= 4)%nat.
Proof.
  intros Hempty.
  destruct (performCheck_own_requests env m w s) as (rest & Hown & Hrest & Hqueue).
  rewrite Hempty in Hqueue. cbn [app] in Hqueue.
  destruct Hqueue as [Hq | Hq].
  - exists rest, []. rewrite (settle_none env w' _ Hq), Hown, app_nil_r.
    split; [reflexivity|]. split; [exact Hrest|]. split; [constructor | cbn; lia].
  - rewrite (settle_one env m w' _ Hq).
    destruct (refresh_requests env m w'
                (mkSys (monitors (performCheck m env w s).2)
                       (logs (performCheck m env w s).2)
                       (ticks (performCheck m env w s).2)
                       (trace (performCheck m env w s).2) []))
      as (new & Hnew & Hshape).
    cbn [trace] in Hnew. exists rest, new. rewrite Hnew, Hown.
    split; [now rewrite <- app_assoc|]. split; [exact Hrest|].
    destruct (url_hostname w' (url m)) as [domain|].
    + destruct Hshape as [-> | [_ [-> | ->]]];
        (split; [repeat constructor; eauto | cbn; lia]).
    + subst new. split; [constructor | cbn; lia].
Qed.

Lemma performCheck_requests_witness :
  exists rest lookups,
    requests_of (trace (settle Scenario.bare Scenario.healthy
                          (performCheck Scenario.site Scenario.bare Scenario.healthy
                                        (Scenario.db Scenario.site)).2).2)
    ≡ₚ requests_of (trace (Scenario.db Scenario.site))
       ++ probe_request Scenario.site :: rest ++ lookups
    /\ (rest = []
        \/ exists hook shown message,
             rest = [alert_request hook (alert_payload Scenario.site shown message)])
    /\ Forall (fun r => exists q, r = crt_request q \/ r = rdap_request q) lookups
    /\ (length lookups <= 4)%nat.
Proof.
  apply (performCheck_requests Scenario.bare Scenario.site Scenario.healthy
           Scenario.healthy (Scenario.db Scenario.site)).
  reflexivity.
Defined.

(** ** A run with nothing to do *)

Lemma each_checkSite_idle env (now : Z) (w : World) (l : list Monitor) (s : Sys) :
  (forall m, m ∈ l -> isTimeToCheck m now = false) ->
  each (checkSite env now) l w s = (Normal tt, s).
Proof.
  induction l as [|m l IH]; intros H; [reflexivity|].
  cbn [each]. cbv [mbind M_bind]. unfold checkSite at 1.
  rewrite (H m) by set_solver. cbv [mret M_ret]. apply IH.
  intros m' Hm'. apply H. set_solver.
Qed.

(** X19: when no target is due, the scheduled run reads the table and does
    nothing else: no request, no statement other than the SELECT, no change
    to the targets or to the log. *)
Theorem checkSites_idle env (w : World) (s : Sys) :
  (forall id row, monitors s !! id = Some row ->
                  isTimeToCheck row (clock w (ticks s)) = false) ->
  checkSites env w s
  = (Normal tt,
     mkSys (monitors s) (logs s) (S (ticks s)) (trace s ++ [Ran SelectMonitors])
           (pending s)).
Proof.
  intros Hidle. unfold checkSites, select_monitors. run_cbn.
  rewrite each_checkSite_idle; [reflexivity|].
  intros m Hin.
  apply (result_set_spec (after_reading s)) in Hin as [id Hin].
  exact (Hidle id m Hin).
Qed.

Lemma checkSites_idle_witness :
  checkSites Scenario.bare Scenario.refusing (Scenario.db Scenario.rested)
  = (Normal tt,
     mkSys (monitors (Scenario.db Scenario.rested)) [] 1 [Ran SelectMonitors] []).
Proof.
  apply (checkSites_idle Scenario.bare Scenario.refusing
           (Scenario.db Scenario.rested)).
  intros id row H. unfold Scenario.db in H. cbn [monitors] in H.
  apply lookup_singleton_Some in H as [<- <-]. reflexivity.
Defined.

